(** * DeerFlow: asynchronous tasks and event replay

    The web client of DeerFlow creates a task with [POST chat/async] and
    follows it over server-sent events with [GET chat/replay].  This
    development embeds the client code of that path:

    - [Sse]      : [fetchStream] and [parseEvent] (core/sse),
    - [Types]    : the [ChatEvent] union (core/api/types.ts),
    - [ChatApi]  : [chatStream] and [checkThreadRunningTask] (core/api/chat),
    - [Store]    : [saveChatHistory] (core/store),
    - [ChatReplay] : [chatReplayStreamAPI], [chatReplayFromRedis] and
      [chatSmartReplayStream] (core/api/chat),
    - [RecordedReplay] : [chatReplayStream] and [fetchReplay]
      (core/api/chat),
    - [StoreHistory] : [getChatHistoryByThreadId] and [getAllChatHistories]
      (core/store),
    - [ResearchStore] : the store of messages and research, with
      [appendMessage], [updateMessage], [resetThread] and
      [switchToHistoryChat] (core/store),
    - [ResearchContent] : [checkForRealResearchContent] (core/store),

    and models the two server components the client relies on, the event
    log ([EventLog]) and the task lifecycle ([TaskLifecycle]), from their
    specification.  The examples run the client on pages whose
    [JSON.parse] is that of [Json], and on the frames the architecture
    notes show ([WireSamples]).

    JavaScript strings are modelled by [string], a sequence of characters.
    The separators the stream reader looks for (line feed, colon, space) are
    ASCII, and no byte of a multi-byte UTF-8 sequence is an ASCII byte, so
    the positions of separators and the pieces between them do not depend on
    the unit of text chosen.  Where the code counts the units of a string,
    in the titles the store cuts from the text of a message, the text is the
    sequence of its UTF-16 code units ([Store.Text]). *)

From Stdlib Require Import String Ascii List Bool Arith NArith ZArith Lia.
From Stdlib Require DecimalString.
From stdpp Require Import base option list strings.

Import ListNotations.
Local Open Scope bool_scope.

(** Appends to a literal are computed by [simpl] throughout this file. *)
#[local] Arguments String.append !_ _ / : simpl nomatch.
#[local] Arguments Ascii.eqb !_ !_ / : simpl nomatch.

(** ** JavaScript string primitives used by the client *)

Module JsString.

(** The line feed character and the one-character string ["\n"]. *)
Definition lf : ascii := Ascii.ascii_of_nat 10.
Definition LF : string := String lf EmptyString.

(** [s.startsWith(p)] *)
Fixpoint startsWith (p s : string) : bool :=
  match p with
  | EmptyString => true
  | String a p' =>
      match s with
      | EmptyString => false
      | String b s' => Ascii.eqb a b && startsWith p' s'
      end
  end.

(** [s.indexOf(needle)]; [None] stands for the result [-1]. *)
Fixpoint indexOf (needle s : string) : option nat :=
  if startsWith needle s then Some 0
  else match s with
       | EmptyString => None
       | String _ s' => option_map S (indexOf needle s')
       end.

(** [s.slice(n)] for [0 <= n] *)
Fixpoint slice_from (n : nat) (s : string) : string :=
  match n, s with
  | 0, _ => s
  | S _, EmptyString => EmptyString
  | S n', String _ s' => slice_from n' s'
  end.

(** [s.slice(0, n)] for [0 <= n] *)
Fixpoint slice_to (n : nat) (s : string) : string :=
  match n, s with
  | 0, _ => EmptyString
  | S _, EmptyString => EmptyString
  | S n', String a s' => String a (slice_to n' s')
  end.

(** [s.slice(a, b)] for [0 <= a] and [0 <= b] *)
Definition slice (a b : nat) (s : string) : string :=
  slice_to (b - a) (slice_from a s).

(** [s.split(c)] for a separator of one character: never empty, the pieces
    between consecutive separators, empty pieces included. *)
Fixpoint split_on (c : ascii) (s : string) : list string :=
  match s with
  | EmptyString => [EmptyString]
  | String a s' =>
      if Ascii.eqb a c then EmptyString :: split_on c s'
      else match split_on c s' with
           | piece :: pieces => String a piece :: pieces
           | [] => [String a EmptyString]
           end
  end.

(** [s.includes(c)] for one character *)
Fixpoint has_char (c : ascii) (s : string) : bool :=
  match s with
  | EmptyString => false
  | String a s' => Ascii.eqb a c || has_char c s'
  end.

(** [s.includes(needle)] *)
Definition includes (needle s : string) : bool :=
  match indexOf needle s with Some _ => true | None => false end.

(** [v === null] (or [v === undefined]) for an optional value. *)
Definition is_null {A : Type} (v : option A) : bool :=
  match v with None => true | Some _ => false end.

End JsString.

(** ** core/sse: reading a server-sent event stream *)

Module Sse.
Import JsString.

(** [StreamEvent]: [data] is [null] when the chunk had no data line. *)
Record StreamEvent : Type := mkStreamEvent {
  event : string;
  data : option string
}.

(** The body of the [for] loop of [parseEvent], on the pair
    [(resultEvent, resultData)]. *)
Definition parse_line (acc : string * option string) (line : string)
  : string * option string :=
  match indexOf ": " line with
  | None => acc
  | Some pos =>
      let key := slice 0 pos line in
      let value := slice_from (pos + 2) line in
      if String.eqb key "event" then (value, snd acc)
      else if String.eqb key "data" then (fst acc, Some value)
      else acc
  end.

(** The loop of [parseEvent]: the final [(resultEvent, resultData)]. *)
Definition parse_lines (chunk : string) : string * option string :=
  fold_left parse_line (split_on lf chunk) ("message", None).

(** [parseEvent(chunk)]; [None] is [undefined]. *)
Definition parseEvent (chunk : string) : option StreamEvent :=
  let '(resultEvent, resultData) := parse_lines chunk in
  if String.eqb resultEvent "message" && is_null resultData then None
  else Some (mkStreamEvent resultEvent resultData).

(** The inner [while (true)] loop of [fetchStream]: cut the buffer at each
    blank line, parse every chunk, keep the rest.  Each round removes at
    least two characters from the buffer, so [fuel] no smaller than the
    buffer's length is never used up ([SseFacts.drain_fuel]). *)
Fixpoint drain (fuel : nat) (buffer : string) : list StreamEvent * string :=
  match fuel with
  | 0 => ([], buffer)
  | S fuel' =>
      match indexOf (LF +:+ LF) buffer with
      | None => ([], buffer)
      | Some index =>
          let chunk := slice 0 index buffer in
          let buffer' := slice_from (index + 2) buffer in
          let '(evs, rest) := drain fuel' buffer' in
          match parseEvent chunk with
          | Some ev => (ev :: evs, rest)
          | None => (evs, rest)
          end
      end
  end.

Definition drain_buffer (buffer : string) : list StreamEvent * string :=
  drain (String.length buffer) buffer.

(** The outer loop: [reads] are the successive values of [reader.read()]
    before [done]; the result is the events yielded, in order. *)
Fixpoint read_loop (buffer : string) (reads : list string) : list StreamEvent :=
  match reads with
  | [] => []
  | value :: reads' =>
      let '(evs, rest) := drain_buffer (buffer +:+ value) in
      evs ++ read_loop rest reads'
  end.

(** What [fetch] resolved to: the status line, and the texts that
    [reader.read()] gives one after the other before [done] ([None] for a
    response without a readable body).  A body is one that is read to its
    end: a read that rejects while the stream is open (the connection is
    lost) is not among the responses described here. *)
Record Response : Type := mkResponse {
  status : nat;
  statusText : string;
  body : option (list string)
}.

(** The events yielded, or the error thrown before the first read. *)
Inductive StreamResult : Type :=
| Yields (evs : list StreamEvent)
| FailedToFetch (status : nat)
| BodyNotReadable.

(** [fetchStream(url, init)] once [fetch] has resolved to [response]; the
    request itself (URL with the search parameters, method and headers) is
    built by the callers in [ChatApi]. *)
Definition fetchStream (response : Response) : StreamResult :=
  if negb (Nat.eqb (status response) 200) then FailedToFetch (status response)
  else match body response with
       | None => BodyNotReadable
       | Some reads => Yields (read_loop "" reads)
       end.

(** *** Vocabulary for stating what [parseEvent] computes *)

(** An SSE frame of the wire format: an event line, a data line and a
    blank line. *)
Definition frame_chunk (kind json : string) : string :=
  "event: " +:+ kind +:+ LF +:+ "data: " +:+ json.

Definition frame (kind json : string) : string :=
  frame_chunk kind json +:+ LF +:+ LF.

Definition wire (frames : list (string * string)) : string :=
  fold_right (fun f rest => frame (fst f) (snd f) +:+ rest) "" frames.

(** All the reads of a body, put end to end. *)
Definition received (reads : list string) : string :=
  fold_right String.append "" reads.

(** A field of one line: no line feed inside. *)
Definition single_line (s : string) : bool := negb (has_char lf s).

(** A frame is given by its kind and its JSON text, each on one line. *)
Definition well_formed (f : string * string) : bool :=
  single_line (fst f) && single_line (snd f).

(** The event a frame stands for. *)
Definition event_of (f : string * string) : StreamEvent :=
  mkStreamEvent (fst f) (Some (snd f)).

(** [field_value key line] is the text after ["key: "] when [line] starts
    with it. *)
Definition field_value (key line : string) : option string :=
  if startsWith (key +:+ ": ") line
  then Some (slice_from (String.length key + 2) line)
  else None.

(** The values of the lines of [chunk] that start with ["key: "], in order. *)
Definition field_values (key chunk : string) : list string :=
  omap (field_value key) (split_on lf chunk).

Definition has_field (key chunk : string) : bool :=
  negb (is_null (head (field_values key chunk))).

(** Does the line contain the separator [": "]? *)
Definition has_separator (line : string) : bool :=
  negb (is_null (indexOf ": " line)).

End Sse.

(** ** core/api/types.ts: the events the client is typed to receive *)

Module Types.

(** The canonical event kinds of the wire vocabulary, as the architecture
    notes list them (message, tool call, interaction control and system
    state events). *)
Definition canonical_event_kinds : list string :=
  ["message_chunk"; "tool_calls"; "tool_call_chunks"; "tool_call_result";
   "interrupt"; "research_start"; "research_end"; "error"; "replay_end"].

Inductive Agent : Type := coordinator | planner | researcher | coder | reporter.
Inductive Role : Type := user | assistant | tool.
Inductive FinishReason : Type :=
  stop | finish_tool_calls | finish_interrupt | completed.

Section Events.
(** [unknown] is TypeScript's type of the same name; [Option] is the type
    imported from core/messages.  A property whose type is one string
    literal ([type] of [ToolCall] and [ToolCallChunk], [status] of
    [ResearchEndEvent]) has a single value and is not kept as a field; the
    [type] of an event is computed from its constructor. *)
Context {unknown Option : Type}.

Record ToolCall : Type := mkToolCall {
  tool_call_id_ : string;
  tool_call_name : string;
  tool_call_args : list (string * unknown)
}.

Record ToolCallChunk : Type := mkToolCallChunk {
  chunk_index : Z;
  chunk_id : string;
  chunk_name : string;
  chunk_args : string
}.

(** The part of [data] every [GenericEvent] has. *)
Record GenericData : Type := mkGenericData {
  id : string;
  thread_id : string;
  agent : Agent;
  role : Role;
  finish_reason : option FinishReason
}.

(** [ChatEvent]: one constructor for each member of the union, holding
    the common part of [data] and then the member's own fields. *)
Inductive ChatEvent : Type :=
| MessageChunkEvent (d : GenericData)
    (content : option string) (reasoning_content : option string)
| ToolCallsEvent (d : GenericData)
    (tool_calls : list ToolCall) (tool_call_chunks : list ToolCallChunk)
| ToolCallChunksEvent (d : GenericData) (tool_call_chunks : list ToolCallChunk)
| ToolCallResultEvent (d : GenericData)
    (tool_call_id : string) (content : option string)
| InterruptEvent (d : GenericData) (options : list Option)
| ReplayEndEvent (d : GenericData) (message : option string)
| ErrorEvent (d : GenericData) (message : string)
| ResearchEndEvent (d : GenericData) (research_id : string).

(** The [type] tag of an event. *)
Definition type (e : ChatEvent) : string :=
  match e with
  | MessageChunkEvent _ _ _ => "message_chunk"
  | ToolCallsEvent _ _ _ => "tool_calls"
  | ToolCallChunksEvent _ _ => "tool_call_chunks"
  | ToolCallResultEvent _ _ _ => "tool_call_result"
  | InterruptEvent _ _ => "interrupt"
  | ReplayEndEvent _ _ => "replay_end"
  | ErrorEvent _ _ => "error"
  | ResearchEndEvent _ _ => "research_end"
  end.

(** The common part of [data]. *)
Definition data (e : ChatEvent) : GenericData :=
  match e with
  | MessageChunkEvent d _ _ | ToolCallsEvent d _ _ | ToolCallChunksEvent d _
  | ToolCallResultEvent d _ _ | InterruptEvent d _ | ReplayEndEvent d _
  | ErrorEvent d _ | ResearchEndEvent d _ => d
  end.

(** The name of an optional property, when the property is there. *)
Definition optional {A : Type} (name : string) (v : option A) : list string :=
  match v with Some _ => [name] | None => [] end.

Definition generic_keys (d : GenericData) : list string :=
  ["id"; "thread_id"; "agent"; "role"] ++ optional "finish_reason" (finish_reason d).

(** The property names of the [data] object of an event. *)
Definition data_keys (e : ChatEvent) : list string :=
  match e with
  | MessageChunkEvent d content reasoning_content =>
      generic_keys d ++ optional "content" content
        ++ optional "reasoning_content" reasoning_content
  | ToolCallsEvent d _ _ => generic_keys d ++ ["tool_calls"; "tool_call_chunks"]
  | ToolCallChunksEvent d _ => generic_keys d ++ ["tool_call_chunks"]
  | ToolCallResultEvent d _ content =>
      generic_keys d ++ ["tool_call_id"] ++ optional "content" content
  | InterruptEvent d _ => generic_keys d ++ ["options"]
  | ReplayEndEvent d message => generic_keys d ++ optional "message" message
  | ErrorEvent d _ => generic_keys d ++ ["message"]
  | ResearchEndEvent d _ => generic_keys d ++ ["research_id"; "status"]
  end.

(** Some common part, and with it a [ChatEvent] of each kind the union
    has (used to show that a kind is inhabited). *)
Definition some_data : GenericData := mkGenericData "" "" coordinator assistant None.

Definition inhabitant (kind : string) : option ChatEvent :=
  if String.eqb kind "message_chunk" then Some (MessageChunkEvent some_data None None)
  else if String.eqb kind "tool_calls" then Some (ToolCallsEvent some_data [] [])
  else if String.eqb kind "tool_call_chunks" then Some (ToolCallChunksEvent some_data [])
  else if String.eqb kind "tool_call_result" then Some (ToolCallResultEvent some_data "" None)
  else if String.eqb kind "interrupt" then Some (InterruptEvent some_data [])
  else if String.eqb kind "replay_end" then Some (ReplayEndEvent some_data None)
  else if String.eqb kind "error" then Some (ErrorEvent some_data "")
  else if String.eqb kind "research_end" then Some (ResearchEndEvent some_data "")
  else None.

End Events.

Arguments ChatEvent : clear implicits.
Arguments ToolCall : clear implicits.

End Types.

(** ** core/api/chat: the chat stream of the client *)

Module ChatApi.
Import JsString Sse.

Inductive Method : Type := GET | POST.

Inductive ReportStyle : Type := academic | popular_science | news | social_media.

Section Client.
(** [Json] is the type of the values [JSON.parse] returns; [Resource]
    and [McpSettings] are the types of core/messages and core/mcp that
    the parameters mention. *)
Context {Json Resource McpSettings : Type}.

(** The second argument of [chatStream]. *)
Record Params : Type := mkParams {
  thread_id : string;
  resources : option (list Resource);
  auto_accepted_plan : bool;
  max_plan_iterations : Z;
  max_step_num : Z;
  max_search_results : option Z;
  interrupt_feedback : option string;
  enable_deep_thinking : option bool;
  enable_background_investigation : bool;
  report_style : option ReportStyle;
  mcp_settings : option McpSettings
}.

(** The object whose JSON text is the body of [POST chat/async]. *)
Record TaskConfig : Type := mkTaskConfig {
  cfg_messages : list (string * string);
  cfg_thread_id : string;
  cfg_auto_accepted_plan : bool;
  cfg_max_plan_iterations : Z;
  cfg_max_step_num : Z;
  cfg_max_search_results : option Z;
  cfg_interrupt_feedback : option string;
  cfg_enable_deep_thinking : option bool;
  cfg_enable_background_investigation : bool;
  cfg_report_style : option ReportStyle;
  cfg_mcp_settings : option McpSettings;
  cfg_resources : option (list Resource)
}.

(** A call of [fetch]: the URL before the query, the query parameters,
    the headers the caller gives, and the body. *)
Record Request : Type := mkRequest {
  method : Method;
  url : string;
  searchParams : list (string * string);
  headers : list (string * string);
  request_body : option TaskConfig
}.

(** What the client does to the outside, in order. *)
Inductive Effect : Type :=
| Fetched (request : Request)
| Slept (ms : nat).

(** What [chatStream] yields: [{ type, data }], cast to [ChatEvent]
    without a check. *)
Record Yielded : Type := mkYielded {
  type : string;
  data : Json
}.

(** What the client throws: a rejected [fetch], the errors it makes
    itself, the errors of [JSON.parse] and of a property access on [null],
    and those of [fetchStream]. *)
Inductive Error : Type :=
| FetchRejected
| CreateTaskFailed (statusText : string)
| CheckRunningTaskFailed (statusText : string)
| SyntaxError
| TypeError
| TaskCancelled
| StreamFailed (status : nat)
| StreamNotReadable
| ErrorEvent (data : option string).

(** The page and the runtime: values the code reads and functions it
    calls that are defined elsewhere.  [JSON_parse] is [None] when
    [JSON.parse] throws; [task_id_of] is the [task_id] property of the
    body of the answer to [POST chat/async], as template strings and
    [URLSearchParams] write it, and [None] when the destructuring
    throws; [task_status_of] is [taskInfo.status] when that is a string;
    [finish_reason_of] tells whether [data.finish_reason] is truthy and
    [role_is_user] whether [data.role === "user"], each [None] when the
    property access throws. *)
Record Host : Type := mkHost {
  static_website_only : bool;
  location_search : string;
  resolveServiceURL : string -> string;
  extractReplayIdFromSearchParams : string -> option string;
  JSON_parse : string -> option Json;
  task_id_of : Json -> option string;
  task_status_of : Json -> option string;
  finish_reason_of : Json -> option bool;
  role_is_user : Json -> option bool
}.

(** The network and the user: the answer to the request made when [n]
    effects have happened ([None] when [fetch] rejects), and whether the
    abort signal is aborted at that time. *)
Record Net : Type := mkNet {
  respond : nat -> Request -> option Response;
  aborted : nat -> bool
}.

(** The state a computation runs in: what was done so far, what was
    yielded so far, and the module variable [fastForwardReplaying]. *)
Record World : Type := mkWorld {
  trace : list Effect;
  yielded : list Yielded;
  fastForwardReplaying : bool
}.

(** How a computation ends. *)
Inductive Outcome (A : Type) : Type :=
| Return (a : A)
| Throw (e : Error).
Arguments Return {A} a.
Arguments Throw {A} e.

(** A computation of the client: it may return or throw, and changes
    the world. *)
Definition M (A : Type) : Type := World -> Outcome A * World.

Definition ret {A : Type} (a : A) : M A := fun w => (Return a, w).

Definition throw {A : Type} (e : Error) : M A := fun w => (Throw e, w).

Definition bind {A B : Type} (c : M A) (k : A -> M B) : M B :=
  fun w =>
    match c w with
    | (Return a, w') => k a w'
    | (Throw e, w') => (Throw e, w')
    end.

(** [try { c } catch (e) { h e }] *)
Definition try_catch {A : Type} (c : M A) (h : Error -> M A) : M A :=
  fun w =>
    match c w with
    | (Return a, w') => (Return a, w')
    | (Throw e, w') => h e w'
    end.

(** The world after one more effect. *)
Definition log (e : Effect) (w : World) : World :=
  {| trace := trace w ++ [e]; yielded := yielded w;
     fastForwardReplaying := fastForwardReplaying w |}.

(** [yield ev] *)
Definition yield (ev : Yielded) : M unit :=
  fun w =>
    (Return tt,
     {| trace := trace w; yielded := yielded w ++ [ev];
        fastForwardReplaying := fastForwardReplaying w |}).

(** The value of [v], or the error [e] thrown when there is none. *)
Definition lift {A : Type} (v : option A) (e : Error) : M A :=
  match v with Some a => ret a | None => throw e end.

Variable host : Host.
Variable net : Net.

(** [await fetch(...)] *)
Definition fetch (request : Request) : M Response :=
  fun w =>
    match respond net (length (trace w)) request with
    | Some response => (Return response, log (Fetched request) w)
    | None => (Throw FetchRejected, log (Fetched request) w)
    end.

(** [await sleep(ms)], [await new Promise(r => setTimeout(r, ms))] *)
Definition sleep (ms : nat) : M unit := fun w => (Return tt, log (Slept ms) w).

(** [options.abortSignal?.aborted] *)
Definition signal_aborted : M bool :=
  fun w => (Return (aborted net (length (trace w))), w).

(** [response.ok], [await response.text()], [await response.json()] *)
Definition ok (response : Response) : bool :=
  Nat.leb 200 (status response) && Nat.leb (status response) 299.

Definition text (response : Response) : string :=
  match body response with
  | Some reads => received reads
  | None => ""
  end.

Definition json (response : Response) : option Json :=
  JSON_parse host (text response).

(** [JSON.parse(event.data)]: [null] is read as the text ["null"]. *)
Definition parse_data (data : option string) : option Json :=
  JSON_parse host (match data with Some s => s | None => "null" end).

(** The events of [fetchStream(url, init)], or what it throws. *)
Definition stream (request : Request) : M (list StreamEvent) :=
  bind (fetch request) (fun response =>
    match fetchStream response with
    | Yields evs => ret evs
    | FailedToFetch st => throw (StreamFailed st)
    | BodyNotReadable => throw StreamNotReadable
    end).

Notation "x <- c ;; k" := (bind c (fun x => k))
  (at level 100, c at next level, right associativity).
Notation "c ;;; k" := (bind c (fun _ => k))
  (at level 100, right associativity).

(** *** [chatStream]: the asynchronous path *)

Definition async_request (userMessage : string) (params : Params) : Request :=
  {| method := POST;
     url := resolveServiceURL host "chat/async";
     searchParams := [];
     headers := [("Content-Type", "application/json")];
     request_body := Some
       {| cfg_messages := [("user", userMessage)];
          cfg_thread_id := thread_id params;
          cfg_auto_accepted_plan := auto_accepted_plan params;
          cfg_max_plan_iterations := max_plan_iterations params;
          cfg_max_step_num := max_step_num params;
          cfg_max_search_results := max_search_results params;
          cfg_interrupt_feedback := interrupt_feedback params;
          cfg_enable_deep_thinking := enable_deep_thinking params;
          cfg_enable_background_investigation :=
            enable_background_investigation params;
          cfg_report_style := report_style params;
          cfg_mcp_settings := mcp_settings params;
          cfg_resources := resources params |} |}.

Definition quick_check_request (params : Params) (task_id : string) : Request :=
  {| method := GET;
     url := resolveServiceURL host "chat/replay";
     searchParams := [("thread_id", thread_id params); ("query_id", task_id);
                      ("continuous", "false"); ("offset", "0")];
     headers := [("Range", "bytes=0-100")];
     request_body := None |}.

Definition status_request (task_id : string) : Request :=
  {| method := GET;
     url := resolveServiceURL host ("tasks/" +:+ task_id);
     searchParams := [];
     headers := [];
     request_body := None |}.

Definition replay_request (params : Params) (task_id : string) : Request :=
  {| method := GET;
     url := resolveServiceURL host "chat/replay";
     searchParams := [("thread_id", thread_id params); ("query_id", task_id);
                      ("continuous", "true"); ("offset", "0")];
     headers := [("Cache-Control", "no-cache")];
     request_body := None |}.

(** The [try] of the first waiting loop: has the task been seen to
    start? *)
Definition quick_check (params : Params) (task_id : string) : M bool :=
  try_catch
    (quickCheckResponse <- fetch (quick_check_request params task_id) ;;
     if ok quickCheckResponse
     then ret (includes "event:" (text quickCheckResponse)
               && includes "research_start" (text quickCheckResponse))
     else ret false)
    (fun _ => ret false).

(** The first waiting loop, with [attempts] rounds left. *)
Fixpoint quick_checks (attempts : nat) (params : Params) (task_id : string)
  : M bool :=
  match attempts with
  | 0 => ret false
  | S attempts' =>
      stop <- signal_aborted ;;
      if stop : bool then throw TaskCancelled
      else
        taskStarted <- quick_check params task_id ;;
        if taskStarted : bool then ret true
        else sleep 500 ;;; quick_checks attempts' params task_id
  end.

(** The [try] of the second waiting loop. *)
Definition status_check (task_id : string) : M bool :=
  try_catch
    (statusResponse <- fetch (status_request task_id) ;;
     if ok statusResponse
     then
       taskInfo <- lift (json statusResponse) SyntaxError ;;
       match task_status_of host taskInfo with
       | Some st => ret (String.eqb st "running" || String.eqb st "completed")
       | None => ret false
       end
     else ret false)
    (fun _ => ret false).

(** The second waiting loop, with [attempts] rounds left. *)
Fixpoint status_checks (attempts : nat) (task_id : string) : M bool :=
  match attempts with
  | 0 => ret false
  | S attempts' =>
      stop <- signal_aborted ;;
      if stop : bool then throw TaskCancelled
      else
        taskStarted <- status_check task_id ;;
        if taskStarted : bool then ret true
        else sleep 1000 ;;; status_checks attempts' task_id
  end.

(** The [for await] loop over the replay stream. *)
Fixpoint consume (events : list StreamEvent) : M unit :=
  match events with
  | [] => ret tt
  | ev :: events' =>
      if String.eqb (event ev) "replay_end" then ret tt
      else if String.eqb (event ev) "error" then throw (ErrorEvent (Sse.data ev))
      else
        d <- lift (parse_data (Sse.data ev)) SyntaxError ;;
        yield {| type := event ev; data := d |} ;;;
        consume events'
  end.

(** The body of the outer [try]; its [catch] logs and throws again. *)
Definition chatStream_async (userMessage : string) (params : Params) : M unit :=
  asyncResponse <- fetch (async_request userMessage params) ;;
  if negb (ok asyncResponse)
  then throw (CreateTaskFailed (statusText asyncResponse))
  else
    answer <- lift (json asyncResponse) SyntaxError ;;
    task_id <- lift (task_id_of host answer) TypeError ;;
    taskStarted <- quick_checks 8 params task_id ;;
    (if taskStarted : bool then ret true else status_checks 10 task_id) ;;;
    events <- stream (replay_request params task_id) ;;
    consume events.

(** *** Replay of a recorded conversation *)

(** [chatReplayStream], the replay of a recorded file: no property
    below depends on what it does. *)
Variable chatReplayStream : string -> Params -> M unit.

Definition sleepInReplay (ms : nat) : M unit :=
  fun w => if fastForwardReplaying w then sleep 0 w else sleep ms w.

Definition api_replay_request (threadId : string) : Request :=
  {| method := GET;
     url := resolveServiceURL host "chat/replay";
     searchParams := [("thread_id", threadId); ("offset", "0")];
     headers := [("Cache-Control", "no-cache")];
     request_body := None |}.

(** One round of the loop of [chatReplayStreamFromAPI]: [true] when the
    loop is left. *)
Definition replay_event (ev : StreamEvent) : M bool :=
  try_catch
    (d <- lift (parse_data (Sse.data ev)) SyntaxError ;;
     if String.eqb (event ev) "replay_end" then ret true
     else if String.eqb (event ev) "error" then ret true
     else
       (if String.eqb (event ev) "message_chunk"
        then
          finished <- lift (finish_reason_of host d) TypeError ;;
          if finished : bool then ret tt else sleepInReplay 50
        else if String.eqb (event ev) "tool_call_result" then sleepInReplay 300
        else ret tt) ;;;
       yield {| type := event ev; data := d |} ;;;
       (if String.eqb (event ev) "tool_call_result" then sleepInReplay 500
        else if String.eqb (event ev) "message_chunk"
        then
          is_user <- lift (role_is_user host d) TypeError ;;
          if is_user : bool then sleepInReplay 300 else ret tt
        else ret tt) ;;;
       ret false)
    (fun _ => ret false).

Fixpoint replay_events (events : list StreamEvent) : M unit :=
  match events with
  | [] => ret tt
  | ev :: events' =>
      stop <- replay_event ev ;;
      if stop : bool then ret tt else replay_events events'
  end.

Definition chatReplayStreamFromAPI (threadId userMessage : string)
    (params : Params) : M unit :=
  try_catch
    (events <- stream (api_replay_request threadId) ;; replay_events events)
    (fun _ => chatReplayStream userMessage params).

(** *** [chatStream] *)

Definition chatStream (userMessage : string) (params : Params) : M unit :=
  if static_website_only host || includes "mock" (location_search host)
  then chatReplayStream userMessage params
  else if includes "replay=" (location_search host)
  then
    match extractReplayIdFromSearchParams host (location_search host) with
    | Some (String c r) => chatReplayStreamFromAPI (String c r) userMessage params
    | Some EmptyString | None => chatReplayStream userMessage params
    end
  else chatStream_async userMessage params.

(** *** [checkThreadRunningTask] *)

(** The object the function resolves to: the parsed body, or the literal
    [{ has_running_task: false }]. *)
Inductive RunningTask : Type :=
| ParsedBody (answer : Json)
| Literal (has_running_task : bool).

Definition running_task_request (threadId : string) : Request :=
  {| method := GET;
     url := resolveServiceURL host ("threads/" +:+ threadId +:+ "/running-task");
     searchParams := [];
     headers := [];
     request_body := None |}.

Definition checkThreadRunningTask (threadId : string) : M RunningTask :=
  try_catch
    (response <- fetch (running_task_request threadId) ;;
     if negb (ok response)
     then throw (CheckRunningTaskFailed (statusText response))
     else
       answer <- lift (json response) SyntaxError ;;
       ret (ParsedBody answer))
    (fun _ => ret (Literal false)).

(** *** Vocabulary for stating what the replay loop does *)

Definition terminal_event (ev : StreamEvent) : bool :=
  String.eqb (event ev) "replay_end" || String.eqb (event ev) "error".

(** The events before the first terminal event, and the rest. *)
Fixpoint before_terminal (events : list StreamEvent) : list StreamEvent :=
  match events with
  | [] => []
  | ev :: events' =>
      if terminal_event ev then [] else ev :: before_terminal events'
  end.

Fixpoint first_terminal (events : list StreamEvent) : option StreamEvent :=
  match events with
  | [] => None
  | ev :: events' => if terminal_event ev then Some ev else first_terminal events'
  end.

Definition parses (ev : StreamEvent) : bool :=
  negb (is_null (parse_data (Sse.data ev))).

(** What is yielded for the events that parse. *)
Definition yields_of (events : list StreamEvent) : list Yielded :=
  omap (fun ev => option_map (mkYielded (event ev)) (parse_data (Sse.data ev)))
       events.

(** How the loop ends at the first terminal event, or at the end of the
    stream. *)
Definition ending (terminal : option StreamEvent) : Outcome unit :=
  match terminal with
  | None => Return tt
  | Some ev =>
      if String.eqb (event ev) "replay_end" then Return tt
      else Throw (ErrorEvent (Sse.data ev))
  end.

(** A request that waits for the task to start, or a pause. *)
Definition waiting (params : Params) (task_id : string) (e : Effect) : bool :=
  match e with
  | Slept _ => true
  | Fetched request =>
      match method request with
      | GET =>
          String.eqb (url request) (resolveServiceURL host ("tasks/" +:+ task_id))
          || existsb (fun p => String.eqb (fst p) "continuous"
                               && String.eqb (snd p) "false")
                     (searchParams request)
      | POST => false
      end
  end.

(** From [w] to [w'] the client only waits, and yields nothing. *)
Definition only_waits (params : Params) (task_id : string) (w w' : World) : Prop :=
  exists waits,
    trace w' = trace w ++ waits
    /\ forallb (waiting params task_id) waits = true
    /\ yielded w' = yielded w.

End Client.

Arguments Params : clear implicits.
Arguments TaskConfig : clear implicits.
Arguments Request : clear implicits.
Arguments Effect : clear implicits.
Arguments Yielded : clear implicits.
Arguments Host : clear implicits.
Arguments Net : clear implicits.
Arguments World : clear implicits.
Arguments M : clear implicits.
Arguments RunningTask : clear implicits.
Arguments Return {A} a.
Arguments Throw {A} e.

End ChatApi.

(** ** JSON values and [JSON.parse], for the examples *)

Module Json.
Import JsString.

(** A value [JSON.parse] returns.  A number is kept as it is written; the
    members of an object are in the order of the text. *)
#[warnings="-register-all"]
Inductive Value : Type :=
| JNull
| JBool (b : bool)
| JNumber (text : string)
| JString (s : string)
| JArray (items : list Value)
| JObject (members : list (string * Value)).

Definition is_ws (c : ascii) : bool :=
  Ascii.eqb c " " || Ascii.eqb c (Ascii.ascii_of_nat 9)
  || Ascii.eqb c lf || Ascii.eqb c (Ascii.ascii_of_nat 13).

Fixpoint skip_ws (s : string) : string :=
  match s with
  | String c r => if is_ws c then skip_ws r else s
  | EmptyString => s
  end.

Definition is_digit (c : ascii) : bool :=
  Nat.leb 48 (Ascii.nat_of_ascii c) && Nat.leb (Ascii.nat_of_ascii c) 57.

(** The value of a hexadecimal digit. *)
Definition hex (c : ascii) : option nat :=
  let n := Ascii.nat_of_ascii c in
  if Nat.leb 48 n && Nat.leb n 57 then Some (n - 48)
  else if Nat.leb 65 n && Nat.leb n 70 then Some (n - 55)
  else if Nat.leb 97 n && Nat.leb n 102 then Some (n - 87)
  else None.

(** The characters of the code unit [n], which [string] holds as the bytes
    of its UTF-8 form. *)
Definition unit_chars (n : nat) : string :=
  if Nat.ltb n 128 then String (Ascii.ascii_of_nat n) ""
  else if Nat.ltb n 2048
  then String (Ascii.ascii_of_nat (192 + n / 64))
         (String (Ascii.ascii_of_nat (128 + n mod 64)) "")
  else String (Ascii.ascii_of_nat (224 + n / 4096))
         (String (Ascii.ascii_of_nat (128 + (n / 64) mod 64))
            (String (Ascii.ascii_of_nat (128 + n mod 64)) "")).

(** What a one-letter escape stands for. *)
Definition escape (c : ascii) : option ascii :=
  if Ascii.eqb c (Ascii.ascii_of_nat 34) then Some c
  else if Ascii.eqb c "\" then Some c
  else if Ascii.eqb c "/" then Some c
  else if Ascii.eqb c "b" then Some (Ascii.ascii_of_nat 8)
  else if Ascii.eqb c "f" then Some (Ascii.ascii_of_nat 12)
  else if Ascii.eqb c "n" then Some lf
  else if Ascii.eqb c "r" then Some (Ascii.ascii_of_nat 13)
  else if Ascii.eqb c "t" then Some (Ascii.ascii_of_nat 9)
  else None.

(** A string after its opening quote: its characters, and the text after
    the closing quote. *)
Fixpoint string_body (s : string) : option (string * string) :=
  match s with
  | EmptyString => None
  | String c r =>
      if Ascii.eqb c (Ascii.ascii_of_nat 34) then Some (EmptyString, r)
      else if Ascii.eqb c "\"
      then
        match r with
        | String e r' =>
            if Ascii.eqb e "u"
            then
              match r' with
              | String h1 (String h2 (String h3 (String h4 r''))) =>
                  match hex h1, hex h2, hex h3, hex h4, string_body r'' with
                  | Some a, Some b, Some c', Some d, Some (body, rest) =>
                      Some (unit_chars (((a * 16 + b) * 16 + c') * 16 + d) +:+ body,
                            rest)
                  | _, _, _, _, _ => None
                  end
              | _ => None
              end
            else
              match escape e, string_body r' with
              | Some x, Some (body, rest) => Some (String x body, rest)
              | _, _ => None
              end
        | EmptyString => None
        end
      else if Nat.ltb (Ascii.nat_of_ascii c) 32 then None
      else
        match string_body r with
        | Some (body, rest) => Some (String c body, rest)
        | None => None
        end
  end.

(** The digits a text starts with, and the rest. *)
Fixpoint digits (s : string) : string * string :=
  match s with
  | String c r =>
      if is_digit c then let (d, rest) := digits r in (String c d, rest)
      else (EmptyString, s)
  | EmptyString => (EmptyString, s)
  end.

(** A number at the start of a text: its text and the rest. *)
Definition number (s : string) : option (string * string) :=
  let (sign, s1) :=
    match s with
    | String c r => if Ascii.eqb c "-" then ("-", r) else ("", s)
    | EmptyString => ("", s)
    end in
  let (int, s2) := digits s1 in
  match int with
  | EmptyString => None
  | String d more =>
      if Ascii.eqb d "0" && negb (String.eqb more "") then None
      else
        let frac :=
          match s2 with
          | String c r =>
              if Ascii.eqb c "."
              then match digits r with
                   | (String f fs, rest) => Some ("." +:+ String f fs, rest)
                   | (EmptyString, _) => None
                   end
              else Some ("", s2)
          | EmptyString => Some ("", s2)
          end in
        match frac with
        | None => None
        | Some (ftext, s3) =>
            let exp :=
              match s3 with
              | String c r =>
                  if Ascii.eqb c "e" || Ascii.eqb c "E"
                  then
                    let (esign, r1) :=
                      match r with
                      | String x r' =>
                          if Ascii.eqb x "+" || Ascii.eqb x "-"
                          then (String x "", r') else ("", r)
                      | EmptyString => ("", r)
                      end in
                    match digits r1 with
                    | (String e es, rest) =>
                        Some (String c esign +:+ String e es, rest)
                    | (EmptyString, _) => None
                    end
                  else Some ("", s3)
              | EmptyString => Some ("", s3)
              end in
            match exp with
            | None => None
            | Some (etext, s4) => Some (sign +:+ int +:+ ftext +:+ etext, s4)
            end
        end
  end.

(** What is being read: a value, the rest of an array, or the rest of an
    object. *)
Inductive Goal : Type :=
| AValue
| Elements (seen : list Value)
| Members (seen : list (string * Value)).

(** The value read at the start of a text, and the text after it. *)
Fixpoint read (fuel : nat) (goal : Goal) (s : string) : option (Value * string) :=
  match fuel with
  | 0 => None
  | S fuel' =>
      match goal with
      | AValue =>
          match skip_ws s with
          | EmptyString => None
          | String c r =>
              if Ascii.eqb c "{"
              then match skip_ws r with
                   | String c' r' =>
                       if Ascii.eqb c' "}" then Some (JObject [], r')
                       else read fuel' (Members []) r
                   | EmptyString => None
                   end
              else if Ascii.eqb c "["
              then match skip_ws r with
                   | String c' r' =>
                       if Ascii.eqb c' "]" then Some (JArray [], r')
                       else read fuel' (Elements []) r
                   | EmptyString => None
                   end
              else if Ascii.eqb c (Ascii.ascii_of_nat 34)
              then option_map (fun p => (JString (fst p), snd p)) (string_body r)
              else if startsWith "null" (String c r)
              then Some (JNull, slice_from 4 (String c r))
              else if startsWith "true" (String c r)
              then Some (JBool true, slice_from 4 (String c r))
              else if startsWith "false" (String c r)
              then Some (JBool false, slice_from 5 (String c r))
              else option_map (fun p => (JNumber (fst p), snd p)) (number (String c r))
          end
      | Elements seen =>
          match read fuel' AValue s with
          | Some (v, r) =>
              match skip_ws r with
              | String c r' =>
                  if Ascii.eqb c "," then read fuel' (Elements (v :: seen)) r'
                  else if Ascii.eqb c "]" then Some (JArray (rev (v :: seen)), r')
                  else None
              | EmptyString => None
              end
          | None => None
          end
      | Members seen =>
          match skip_ws s with
          | String c r =>
              if Ascii.eqb c (Ascii.ascii_of_nat 34)
              then
                match string_body r with
                | Some (key, r1) =>
                    match skip_ws r1 with
                    | String c1 r2 =>
                        if Ascii.eqb c1 ":"
                        then
                          match read fuel' AValue r2 with
                          | Some (v, r3) =>
                              match skip_ws r3 with
                              | String c3 r4 =>
                                  if Ascii.eqb c3 ","
                                  then read fuel' (Members ((key, v) :: seen)) r4
                                  else if Ascii.eqb c3 "}"
                                  then Some (JObject (rev ((key, v) :: seen)), r4)
                                  else None
                              | EmptyString => None
                              end
                          | None => None
                          end
                        else None
                    | EmptyString => None
                    end
                | None => None
                end
              else None
          | EmptyString => None
          end
      end
  end.

(** [JSON.parse(text)]: [None] when it throws. *)
Definition parse (text : string) : option Value :=
  match read (2 * String.length text + 2) AValue text with
  | Some (v, rest) =>
      match skip_ws rest with
      | EmptyString => Some v
      | String _ _ => None
      end
  | None => None
  end.

(** [v[name]] for a value that is not [null] and a name that is neither
    [length] nor an index, the own properties of strings and arrays:
    [None] stands for [undefined].  Of two members with one name the later
    one counts. *)
Definition field (name : string) (v : Value) : option Value :=
  match v with
  | JObject members =>
      option_map snd
        (List.find (fun member => String.eqb (fst member) name) (rev members))
  | _ => None
  end.

(** Is the number written as [text] zero?  It is when its digits before
    the exponent are all zeros. *)
Fixpoint is_zero (text : string) : bool :=
  match text with
  | EmptyString => true
  | String c r =>
      if Ascii.eqb c "e" || Ascii.eqb c "E" then true
      else (Ascii.eqb c "0" || Ascii.eqb c "." || Ascii.eqb c "-") && is_zero r
  end.

(** Is the value truthy? *)
Definition truthy (v : option Value) : bool :=
  match v with
  | None | Some JNull => false
  | Some (JBool b) => b
  | Some (JNumber text) => negb (is_zero text)
  | Some (JString s) => negb (String.eqb s "")
  | Some (JArray _) | Some (JObject _) => true
  end.

(** The value as a template string writes it.  A number is written as
    the text has it, which is what JavaScript writes for an integer in
    plain decimal; the items of an array are joined with commas, [null]
    giving the empty text. *)
Fixpoint text_of (v : Value) : string :=
  match v with
  | JNull => "null"
  | JBool b => if b then "true" else "false"
  | JNumber text => text
  | JString s => s
  | JArray items =>
      (fix join (l : list Value) : string :=
         match l with
         | [] => ""
         | x :: l' =>
             match x with JNull => "" | _ => text_of x end
             +:+ match l' with [] => "" | _ :: _ => "," +:+ join l' end
         end) items
  | JObject _ => "[object Object]"
  end.

Definition to_text (v : option Value) : string :=
  match v with
  | None => "undefined"
  | Some value => text_of value
  end.

End Json.

(** ** A page, a server and a few streams to run the client on *)

Module Samples.
Import JsString Sse ChatApi Json.

(** The double quote, and JSON texts built with it. *)
Definition dq : string := String (Ascii.ascii_of_nat 34) "".

Definition object1 (name value : string) : string :=
  "{" +:+ dq +:+ name +:+ dq +:+ ":" +:+ dq +:+ value +:+ dq +:+ "}".

(** The value of the text [object1 name value]. *)
Definition Object1 (name value : string) : Value :=
  JObject [(name, JString value)].

(** A page whose query string is [search].  [JSON.parse] is [Json.parse];
    a property of [null] cannot be read, a property that is absent is
    [undefined]. *)
Definition page (search : string) : Host Value :=
  {| static_website_only := false;
     location_search := search;
     resolveServiceURL := fun path => "http://localhost:8000/api/" +:+ path;
     extractReplayIdFromSearchParams := fun s =>
       match indexOf "replay=" s with
       | Some i => Some (slice_from (i + 7) s)
       | None => None
       end;
     JSON_parse := parse;
     task_id_of := fun j =>
       match j with
       | JNull => None
       | _ => Some (to_text (field "task_id" j))
       end;
     task_status_of := fun j =>
       match field "status" j with
       | Some (JString st) => Some st
       | _ => None
       end;
     finish_reason_of := fun j =>
       match j with
       | JNull => None
       | _ => Some (truthy (field "finish_reason" j))
       end;
     role_is_user := fun j =>
       match j with
       | JNull => None
       | _ => Some (match field "role" j with
                    | Some (JString r) => String.eqb r "user"
                    | _ => false
                    end)
       end |}.

Definition answer (reads : list string) : Response :=
  {| status := 200; statusText := "OK"; body := Some reads |}.

(** A server that creates the task [X], has [research_start] in its
    stream at the first probe, and then streams one message and the end
    of the replay. *)
Definition server : Net unit unit :=
  {| respond := fun n request =>
       match method request with
       | POST => Some (answer [object1 "task_id" "X"])
       | GET =>
           if existsb (fun p => String.eqb (fst p) "continuous"
                                && String.eqb (snd p) "false")
                      (searchParams request)
           then Some (answer [frame "research_start" "{}"])
           else Some (answer [frame "message_chunk" (object1 "id" "m1");
                              frame "replay_end" "{}"])
       end;
     aborted := fun _ => false |}.

Definition params : Params unit unit :=
  {| thread_id := "T"; resources := None; auto_accepted_plan := false;
     max_plan_iterations := 1; max_step_num := 3; max_search_results := None;
     interrupt_feedback := None; enable_deep_thinking := None;
     enable_background_investigation := true; report_style := None;
     mcp_settings := None |}.

Definition start : World Value unit unit :=
  {| trace := []; yielded := []; fastForwardReplaying := false |}.

(** The replay of a recorded file is not run in these examples. *)
Definition no_file_replay (userMessage : string) (p : Params unit unit)
  : M Value unit unit unit := ret tt.

(** A stream with a message whose data is the empty text. *)
Definition stream_with_empty_data : list StreamEvent :=
  [mkStreamEvent "message_chunk" (Some ""); mkStreamEvent "replay_end" (Some "{}")].

(** A stream that ends with an error event. *)
Definition stream_with_error : list StreamEvent :=
  [mkStreamEvent "message_chunk" (Some (object1 "id" "m1"));
   mkStreamEvent "tool_calls" (Some (object1 "id" "c1"));
   mkStreamEvent "error" (Some "boom");
   mkStreamEvent "message_chunk" (Some (object1 "id" "m2"))].

End Samples.

(** ** core/store: the chat history kept in localStorage *)

Module Store.
Import JsString.

(** [array.findIndex(p)]; [None] stands for the result [-1]. *)
Fixpoint findIndex {A : Type} (p : A -> bool) (l : list A) : option nat :=
  match l with
  | [] => None
  | x :: l' => if p x then Some 0 else option_map S (findIndex p l')
  end.

(** The text of a message, a JavaScript string, as its UTF-16 code units:
    [length], [slice] and [includes] count and compare code units.  (Thread
    ids, roles and timestamps are only compared for equality and stay
    [string]s.) *)
Definition Text : Type := list N.

(** The text of a string of ASCII characters. *)
Definition text (s : string) : Text :=
  map (fun c => N.of_nat (nat_of_ascii c)) (list_ascii_of_string s).

(** [s.slice(a, b)] for [0 <= a] and [0 <= b] *)
Definition text_slice (a b : nat) (s : Text) : Text := take (b - a) (drop a s).

(** [s.startsWith(p)] and [s.includes(p)] *)
Fixpoint text_startsWith (p s : Text) : bool :=
  match p, s with
  | [], _ => true
  | _ :: _, [] => false
  | a :: p', b :: s' => N.eqb a b && text_startsWith p' s'
  end.

Fixpoint text_includes (p s : Text) : bool :=
  text_startsWith p s
  || match s with
     | [] => false
     | _ :: s' => text_includes p s'
     end.

(** [s || d] for an optional text [s]: [undefined] and the empty string
    are falsy. *)
Definition or_else (s : option Text) (d : Text) : Text :=
  match s with
  | Some (c :: r) => c :: r
  | Some [] | None => d
  end.

(** The title of a conversation without a user message, five characters
    of the Basic Multilingual Plane (U+672A U+547D U+540D U+5BF9 U+8BDD). *)
Definition untitled : Text := [26410; 21629; 21517; 23545; 35805]%N.

Section History.
(** What a [Message] (core/messages) has besides [role] and [content]. *)
Context {MessageRest : Type}.

Record Message : Type := mkMessage {
  role : string;
  content : option Text;
  rest : MessageRest
}.

Record ChatHistory : Type := mkChatHistory {
  threadId : string;
  title : Text;
  lastMessage : Text;
  timestamp : string;
  messages : list Message
}.

(** The item of localStorage under [CHAT_HISTORY_KEY]: [None] when the
    key is absent, otherwise the list whose JSON text is stored; the item
    is written by [saveChatHistory] only, [localStorage.getItem] returns
    it, and [JSON.parse] reads back what [JSON.stringify] wrote. *)
Definition Storage : Type := option (list ChatHistory).

(** [typeof window !== 'undefined'] *)
Variable isClient : bool.

Definition getChatHistories (st : Storage) : list ChatHistory :=
  if negb isClient then []
  else match st with
       | Some stored => stored
       | None => []
       end.

Definition has_thread (t : string) (h : ChatHistory) : bool :=
  String.eqb (threadId h) t.

(** The entry [chatHistory] built by [saveChatHistory]; [now] is
    [new Date().toISOString()]. *)
Definition chatHistory (now threadId : string) (messages : list Message)
  : ChatHistory :=
  let userMessage := List.find (fun m => String.eqb (role m) "user") messages in
  {| threadId := threadId;
     title := or_else (option_map (text_slice 0 50) (userMessage ≫= content))
                untitled;
     lastMessage :=
       or_else (option_map (text_slice 0 100) (last messages ≫= content)) [];
     timestamp := now;
     messages := messages |}.

(** [saveChatHistory(threadId, messages)].  [written] tells whether
    [localStorage.setItem] returns: when it throws (the quota is exceeded,
    or the storage refuses writes) the [catch] logs the error and the
    stored item stays as it was. *)
Definition saveChatHistory (written : bool) (now threadId : string)
    (messages : list Message) (st : Storage) : Storage :=
  if Nat.eqb (length messages) 0 || negb isClient then st
  else
    let histories := getChatHistories st in
    let existingIndex := findIndex (has_thread threadId) histories in
    let histories' :=
      match existingIndex with
      | Some i => <[i := chatHistory now threadId messages]> histories
      | None => chatHistory now threadId messages :: histories
      end in
    let limitedHistories := take 50 histories' in
    if written then Some limitedHistories else st.

(** A call of [saveChatHistory], and the storage after a sequence of
    calls. *)
Record Call : Type := mkCall {
  call_written : bool;
  call_now : string;
  call_threadId : string;
  call_messages : list Message
}.

Definition run (calls : list Call) (st : Storage) : Storage :=
  fold_left
    (fun st c =>
       saveChatHistory (call_written c) (call_now c) (call_threadId c)
         (call_messages c) st)
    calls st.

(** The invariant of the stored list. *)
Definition bounded_unique (l : list ChatHistory) : Prop :=
  length l <= 50 /\ NoDup (map threadId l).

End History.

Arguments Message : clear implicits.
Arguments ChatHistory : clear implicits.
Arguments Storage : clear implicits.
Arguments Call : clear implicits.

End Store.

(** ** The event log (server side) *)

(** The event log and its offset arithmetic live on the server (the
    replayer's [get_next_stream_id], over Redis streams), in Python code
    that the client's tree does not contain; this module follows their
    specification. *)

Module EventLog.

(** Modelled from the spec: the event ids of the server's event log.  "of
    the form [<ms-timestamp>-<seq>] where [seq] disambiguates
    sub-millisecond appends". *)
Record StreamId : Type := mkStreamId { ms : N; seq : N }.

(** Modelled from the spec: the text of an id of the server's event log,
    ["t-s"] with both numbers in decimal. *)
Definition decimal (n : N) : string :=
  DecimalString.NilEmpty.string_of_uint (N.to_uint n).

(** Modelled from the spec: the id of the server's event log as the string
    ["t-s"]. *)
Definition render (i : StreamId) : string :=
  decimal (ms i) +:+ "-" +:+ decimal (seq i).

(** Modelled from the spec: equality of ids of the server's event log. *)
Definition eqb (a b : StreamId) : bool :=
  N.eqb (ms a) (ms b) && N.eqb (seq a) (seq b).

(** Modelled from the spec: the stream order of the server's event log.
    Ids are ordered by timestamp and then by sequence number, the order of
    appends. *)
Definition ltb (a b : StreamId) : bool :=
  N.ltb (ms a) (ms b) || (N.eqb (ms a) (ms b) && N.ltb (seq a) (seq b)).

(** Modelled from the spec: the stream order of the server's event log, or
    equal. *)
Definition leb (a b : StreamId) : bool := ltb a b || eqb a b.

(** Modelled from the spec: [next_id] of the server's event log.  "Define
    [next_id("t-s") = "t-(s+1)"]". *)
Definition next_id (i : StreamId) : StreamId :=
  {| ms := ms i; seq := seq i + 1 |}.

(** Modelled from the spec: the offset ["0"] of the server's event log, a
    synthetic zero sentinel below every id. *)
Definition zero : StreamId := {| ms := 0; seq := 0 |}.

(** Modelled from the spec: the events of the server's event log: id,
    kind, thread id and a mapping of scalar fields. *)
Record Event : Type := mkEvent {
  id : StreamId;
  event_kind : string;
  thread_id : string;
  data : list (string * string)
}.

(** Modelled from the spec: one stream of the server's event log, its
    events in append order. *)
Definition Stream : Type := list Event.

(** Modelled from the spec: the invariant of a stream of the server's event
    log.  "IDs are strictly increasing within a single stream key". *)
Fixpoint increasing (log : Stream) : bool :=
  match log with
  | [] => true
  | e :: log' => forallb (fun x => ltb (id e) (id x)) log' && increasing log'
  end.

(** Modelled from the spec: [range] of the server's event log, the events
    from [from_id] to [to_id] in order, up to [limit]; [to_id = None] is
    ["+"], unbounded.  The read returns the event at its start offset: "using
    the last delivered event's ID as the next [from_id] ... causes the same
    event to be read again on every poll", which is also what the
    architecture notes tell of the replay that never ended (the id of the
    current event was used as the start of the next read).  With the
    offset ["0"], below every id, all events are returned. *)
Definition range (log : Stream) (from_id : StreamId) (to_id : option StreamId)
    (limit : nat) : list Event :=
  take limit
    (List.filter
       (fun e => leb from_id (id e)
                 && match to_id with
                    | Some t => leb (id e) t
                    | None => true
                    end)
       log).

(** Modelled from the spec: [tail] of the server's event log, the events
    from [from_id] on; the result is what the call returns once the stream
    holds [log] (the wait itself is not modelled).  As for [range], reading
    from the id of the last delivered event reads that event again. *)
Definition tail (log : Stream) (from_id : StreamId) : list Event :=
  List.filter (fun e => leb from_id (id e)) log.

(** An event of thread ["T"] with the id [t-s], for examples. *)
Definition sample (t s : N) : Event :=
  mkEvent (mkStreamId t s) "message_chunk" "T" [].

End EventLog.

(** ** The task lifecycle (server side) *)

(** The Task Manager and the Stream Runner live on the server
    ([async_tasks/task_manager.py], [async_tasks/stream_runner.py]), in
    Python code that the client's tree does not contain; this module
    follows their specification. *)

Module TaskLifecycle.

(** Modelled from the spec: the [TaskStatus] of the server's Task Manager. *)
Inductive TaskStatus : Type := pending | running | completed | failed | cancelled.

(** Modelled from the spec: the terminal states of the server's task state
    machine.  "Terminal states are completed, failed, cancelled." *)
Definition terminal (s : TaskStatus) : bool :=
  match s with
  | completed | failed | cancelled => true
  | pending | running => false
  end.

(** Modelled from the spec: the state graph of the server's task state
    machine.  Its edges are create (pending to pending),
    admit (pending to running), complete (running to completed), error
    (running to failed) and cancel (pending or running to cancelled). *)
Definition edge (a b : TaskStatus) : bool :=
  match a, b with
  | pending, pending
  | pending, running
  | running, completed
  | running, failed
  | pending, cancelled
  | running, cancelled => true
  | _, _ => false
  end.

(** Modelled from the spec: the [TaskInfo] of the server's Task Registry,
    as far as the lifecycle writes it. *)
Record TaskInfo : Type := mkTaskInfo {
  task_id : string;
  thread_id : string;
  status : TaskStatus;
  started_at : option N;
  completed_at : option N;
  error_message : option string
}.

(** Modelled from the spec: what the server's Task Manager and Stream
    Runner do to a task after its creation: admission, workflow completion,
    workflow error and cancellation; [now] is the time of the operation. *)
Inductive Op : Type :=
| Admit (now : N)
| Complete (now : N)
| Fail (now : N) (message : string)
| Cancel (now : N).

(** Modelled from the spec: [create_task] of the server's Task Manager.
    "allocates id, persists [TaskInfo] (status = pending)". *)
Definition create_task (task_id thread_id : string) : TaskInfo :=
  {| task_id := task_id; thread_id := thread_id; status := pending;
     started_at := None; completed_at := None; error_message := None |}.

(** Modelled from the spec: the updates of a task's [TaskInfo] by the
    server's Task Manager and Stream Runner.  A pending task is admitted
    when a slot frees and
    its runner marks it running; the runner of a running task sets
    completed on workflow completion and failed on workflow error;
    cancellation sets cancelled on a task that is pending or running and
    is a no-op on a terminal task; the runner's lifetime ends with the
    task, so no other case changes the task. *)
Definition apply (t : TaskInfo) (op : Op) : TaskInfo :=
  match status t, op with
  | pending, Admit now =>
      {| task_id := task_id t; thread_id := thread_id t; status := running;
         started_at := Some now; completed_at := completed_at t;
         error_message := error_message t |}
  | running, Complete now =>
      {| task_id := task_id t; thread_id := thread_id t; status := completed;
         started_at := started_at t; completed_at := Some now;
         error_message := error_message t |}
  | running, Fail now message =>
      {| task_id := task_id t; thread_id := thread_id t; status := failed;
         started_at := started_at t; completed_at := Some now;
         error_message := Some message |}
  | pending, Cancel now | running, Cancel now =>
      {| task_id := task_id t; thread_id := thread_id t; status := cancelled;
         started_at := started_at t; completed_at := Some now;
         error_message := error_message t |}
  | _, _ => t
  end.

(** Modelled from the spec: the task of the server after a sequence of
    operations. *)
Definition run (t : TaskInfo) (ops : list Op) : TaskInfo := fold_left apply ops t.

(** The status observed at creation and after each operation. *)
Fixpoint observed (t : TaskInfo) (ops : list Op) : list TaskStatus :=
  match ops with
  | [] => [status t]
  | op :: ops' => status t :: observed (apply t op) ops'
  end.

(** Every change from one observation to the next is an edge of the
    graph. *)
Fixpoint is_path (statuses : list TaskStatus) : bool :=
  match statuses with
  | a :: (b :: _) as rest =>
      (match a, b with
       | pending, pending | running, running | completed, completed
       | failed, failed | cancelled, cancelled => true
       | _, _ => edge a b
       end) && is_path rest
  | _ => true
  end.

End TaskLifecycle.

(** ** Vocabulary for further properties of the stream reader *)

Module SseVocabulary.
Import JsString Sse.

(** The name and the data the loop of [parseEvent] holds have no line
    feed. *)
Definition one_line (acc : string * option string) : bool :=
  single_line (fst acc)
  && match snd acc with Some d => single_line d | None => true end.

(** What is acceptable as a yielded event: it is not the empty event (the
    name ["message"] with no data), and neither its name nor its data has a
    line feed. *)
Definition deliverable (ev : StreamEvent) : bool :=
  negb (String.eqb (event ev) "message" && is_null (data ev))
  && one_line (event ev, data ev).

End SseVocabulary.

(** ** Vocabulary for further properties of the chat stream *)

Module ChatApiVocabulary.
Import JsString Sse ChatApi.

Section Client.
Context {Json Resource McpSettings : Type}.
Variable host : Host Json.
Variable net : Net Resource McpSettings.

(** The time a trace spends in pauses, in milliseconds, and the number of
    requests it makes. *)
Definition pause (e : Effect Resource McpSettings) : nat :=
  match e with Slept ms => ms | Fetched _ => 0 end.

Definition slept (effects : list (Effect Resource McpSettings)) : nat :=
  list_sum (map pause effects).

Definition is_request (e : Effect Resource McpSettings) : bool :=
  match e with Fetched _ => true | Slept _ => false end.

Definition requests (effects : list (Effect Resource McpSettings)) : nat :=
  length (List.filter is_request effects).

(** The task id taken from the answer to [POST chat/async], when the
    request is answered, the answer is OK, its body is JSON and the body
    can be destructured.  A body without the property gives [undefined],
    which the requests that follow write as text. *)
Definition created_task_id (userMessage : string)
    (params : Params Resource McpSettings)
    (w : World Json Resource McpSettings) : option string :=
  match respond net (length (trace w)) (async_request host userMessage params) with
  | Some asyncResponse =>
      if ok asyncResponse
      then match json host asyncResponse with
           | Some answer => task_id_of host answer
           | None => None
           end
      else None
  | None => None
  end.

(** A yielded event that is not a terminal event of the stream. *)
Definition not_terminal (y : Yielded Json) : bool :=
  negb (String.eqb (type y) "replay_end") && negb (String.eqb (type y) "error").

(** From [w] to [w']: the effects added pause for at most [ms] and make at
    most [n] requests, and nothing is yielded. *)
Definition waits_within (ms n : nat) (w w' : World Json Resource McpSettings) : Prop :=
  exists added : list (Effect Resource McpSettings),
    trace w' = trace w ++ added
    /\ slept added <= ms
    /\ requests added <= n
    /\ yielded w' = yielded w.

End Client.

End ChatApiVocabulary.

(** ** More servers to run the client on *)

Module MoreSamples.
Import JsString Sse ChatApi Samples.

(** No request is answered. *)
Definition offline : Net unit unit :=
  {| respond := fun _ _ => None; aborted := fun _ => false |}.

(** The server of [Samples], with a user who aborts as soon as the first
    request is answered. *)
Definition impatient : Net unit unit :=
  {| respond := respond server; aborted := fun n => Nat.leb 1 n |}.

(** Servers whose every answer has the body [null], and the body [{}]. *)
Definition null_body : Net unit unit :=
  {| respond := fun _ _ => Some (answer ["null"]); aborted := fun _ => false |}.

Definition empty_body : Net unit unit :=
  {| respond := fun _ _ => Some (answer ["{}"]); aborted := fun _ => false |}.

(** A replay whose end-of-replay event has data that is not JSON, followed
    by a message. *)
Definition stream_with_bad_end : list StreamEvent :=
  [mkStreamEvent "replay_end" (Some "");
   mkStreamEvent "tool_calls" (Some (object1 "id" "c1"))].

End MoreSamples.

(** ** core/api/chat: the replay functions *)

Module ChatReplay.
Import JsString Sse ChatApi.

(** The second argument of [chatReplayStream]. *)
Record ReplayParams : Type := mkReplayParams {
  rp_thread_id : string;
  rp_auto_accepted_plan : bool;
  rp_max_plan_iterations : Z;
  rp_max_step_num : Z;
  rp_max_search_results : option Z;
  rp_interrupt_feedback : option string
}.

(** A JavaScript value found where a boolean is expected: [undefined],
    [null], a boolean, or another value given by what [toString()] makes of
    it. *)
Inductive Flag : Type :=
| Undefined
| Null
| Boolean (b : bool)
| Other (text : string).

Section Client.
Context {Json Resource McpSettings : Type}.
Variable host : Host Json.
Variable net : Net Resource McpSettings.

Abbreviation M := (M Json Resource McpSettings).
Abbreviation Request := (Request Resource McpSettings).

Notation "x <- c ;; k" := (bind c (fun x => k))
  (at level 100, c at next level, right associativity).
Notation "c ;;; k" := (bind c (fun _ => k))
  (at level 100, right associativity).

(** [runningTaskInfo.has_running_task] for a parsed body: [None] when the
    property access throws (the body is [null]). *)
Variable has_running_task_of : Json -> option Flag.

(** [chatReplayStream], the replay of a recorded file. *)
Variable chatReplayStream : string -> ReplayParams -> M unit.

(** One round of the loop that [chatReplayStreamAPI] and
    [chatReplayFromRedis] share word for word: [true] when the loop is
    left. *)
Definition plain_event (ev : StreamEvent) : M bool :=
  try_catch
    (d <- lift (parse_data host (Sse.data ev)) SyntaxError ;;
     if String.eqb (event ev) "replay_end" then ret true
     else if String.eqb (event ev) "error" then ret true
     else yield {| type := event ev; data := d |} ;;; ret false)
    (fun _ => ret false).

Fixpoint plain_events (events : list StreamEvent) : M unit :=
  match events with
  | [] => ret tt
  | ev :: events' =>
      stop <- plain_event ev ;;
      if stop : bool then ret tt else plain_events events'
  end.

Definition api_request (threadId offset : string) : Request :=
  {| method := GET;
     url := resolveServiceURL host "chat/replay";
     searchParams := [("thread_id", threadId); ("offset", offset)];
     headers := [("Cache-Control", "no-cache")];
     request_body := None |}.

(** [chatReplayStreamAPI(threadId, offset = "0", options)]: the [catch]
    throws again. *)
Definition chatReplayStreamAPI (threadId : string) (offset : option string)
  : M unit :=
  try_catch
    (events <- stream net (api_request threadId (default "0" offset)) ;;
     plain_events events)
    (fun error => throw error).

(** [continuous.toString()] for the argument given as [continuous], whose
    default is [true]: [None] when it throws. *)
Definition continuous_text (continuous : Flag) : option string :=
  match continuous with
  | Undefined => Some "true"
  | Null => None
  | Boolean b => Some (if b then "true" else "false")
  | Other text => Some text
  end.

Definition redis_request (threadId offset continuous : string)
    (queryId : option string) : Request :=
  {| method := GET;
     url := resolveServiceURL host "chat/replay";
     searchParams :=
       [("thread_id", threadId); ("offset", offset); ("continuous", continuous)]
       ++ match queryId with
          | Some (String c r) => [("query_id", String c r)]
          | Some EmptyString | None => []
          end;
     headers := [("Cache-Control", "no-cache")];
     request_body := None |}.

(** The parameters of the replay of a recorded file that the replay
    functions fall back to. *)
Definition fallback_params (threadId : string) : ReplayParams :=
  {| rp_thread_id := threadId;
     rp_auto_accepted_plan := false;
     rp_max_plan_iterations := 3;
     rp_max_step_num := 1;
     rp_max_search_results := Some 3%Z;
     rp_interrupt_feedback := None |}.

(** [chatReplayFromRedis(threadId, continuous = true, offset = "0",
    queryId, options)] *)
Definition chatReplayFromRedis (threadId : string) (continuous : Flag)
    (offset queryId : option string) : M unit :=
  try_catch
    (text <- lift (continuous_text continuous) TypeError ;;
     events <- stream net
                 (redis_request threadId (default "0" offset) text queryId) ;;
     plain_events events)
    (fun _ => chatReplayStream "" (fallback_params threadId)).

(** [runningTaskInfo.has_running_task] *)
Definition running_flag (info : RunningTask Json) : option Flag :=
  match info with
  | ParsedBody answer => has_running_task_of answer
  | Literal b => Some (Boolean b)
  end.

(** [chatSmartReplayStream(threadId, offset = "0", queryId, options)] *)
Definition chatSmartReplayStream (threadId : string) (offset queryId : option string)
  : M unit :=
  try_catch
    (runningTaskInfo <- checkThreadRunningTask host net threadId ;;
     continuous <- lift (running_flag runningTaskInfo) TypeError ;;
     chatReplayFromRedis threadId continuous (Some (default "0" offset)) queryId)
    (fun _ => chatReplayStream "" (fallback_params threadId)).

(** The mode [chatSmartReplayStream] asks the replay for, read off the
    answer to the running-task check: [None] when it asks for none. *)
Definition smart_continuous (threadId : string)
    (w : World Json Resource McpSettings) : option string :=
  match respond net (length (trace w)) (running_task_request host threadId) with
  | None => Some "false"
  | Some response =>
      if ok response
      then match json host response with
           | Some answer =>
               match has_running_task_of answer with
               | Some flag => continuous_text flag
               | None => None
               end
           | None => Some "false"
           end
      else Some "false"
  end.

(** The events of a stream up to the first one that ends the shared loop:
    a terminal event whose data parses. *)
Fixpoint before_stop (events : list StreamEvent) : list StreamEvent :=
  match events with
  | [] => []
  | ev :: events' =>
      if parses host ev && terminal_event ev then []
      else ev :: before_stop events'
  end.

(** The world after the events [ys] are yielded. *)
Definition yielding (ys : list (Yielded Json))
    (w : World Json Resource McpSettings) : World Json Resource McpSettings :=
  {| trace := trace w; yielded := yielded w ++ ys;
     fastForwardReplaying := fastForwardReplaying w |}.

End Client.

End ChatReplay.

(** ** More pages and servers for the replay functions *)

Module ReplaySamples.
Import JsString Sse ChatApi ChatReplay Json Samples.

(** [has_running_task] of a body: the property access throws on [null],
    and a missing property is [undefined]. *)
Definition flag_of (json : Value) : option Flag :=
  match json with
  | JNull => None
  | _ =>
      Some match field "has_running_task" json with
           | None => Undefined
           | Some JNull => Null
           | Some (JBool b) => Boolean b
           | Some v => Other (to_text (Some v))
           end
  end.

(** A server that knows of no running task and streams a recorded
    conversation: a message, the end of the replay, and a late message. *)
Definition archive : Net unit unit :=
  {| respond := fun n request =>
       if String.eqb (url request)
            (resolveServiceURL (page "") "threads/T/running-task")
       then Some (answer ["{}"])
       else Some (answer [frame "message_chunk" (object1 "id" "m1");
                          frame "replay_end" "{}";
                          frame "message_chunk" (object1 "id" "m2")]);
     aborted := fun _ => false |}.

(** A server that answers the running-task check and nothing else. *)
Definition check_only : Net unit unit :=
  {| respond := fun n request =>
       if String.eqb (url request)
            (resolveServiceURL (page "") "threads/T/running-task")
       then Some (answer ["{" +:+ dq +:+ "has_running_task" +:+ dq +:+ ":true}"])
       else None;
     aborted := fun _ => false |}.

(** A server whose every answer has the body [null]. *)
Definition null_answers : Net unit unit :=
  {| respond := fun _ _ => Some (answer ["null"]); aborted := fun _ => false |}.

(** The events of the stream of [archive]. *)
Definition archive_events : list StreamEvent :=
  [mkStreamEvent "message_chunk" (Some (object1 "id" "m1"));
   mkStreamEvent "replay_end" (Some "{}");
   mkStreamEvent "message_chunk" (Some (object1 "id" "m2"))].

(** A stream that ends with an error event whose data is JSON. *)
Definition stream_with_json_error : list StreamEvent :=
  [mkStreamEvent "message_chunk" (Some (object1 "id" "m1"));
   mkStreamEvent "tool_calls" (Some (object1 "id" "c1"));
   mkStreamEvent "error" (Some (object1 "message" "boom"));
   mkStreamEvent "message_chunk" (Some (object1 "id" "m2"))].

(** A replay of a recorded file that yields its first event and then
    fails. *)
Definition broken_file_replay (userMessage : string) (p : ReplayParams)
  : M Json.Value unit unit unit :=
  bind (yield (mkYielded "message_chunk" (Object1 "id" "f1")))
       (fun _ => throw TypeError).

(** A replay of a recorded file that yields one event. *)
Definition short_file_replay (userMessage : string) (p : ReplayParams)
  : M Json.Value unit unit unit :=
  yield (mkYielded "message_chunk" (Object1 "id" "f1")).

End ReplaySamples.

(** ** The frames of a replay, as the architecture notes show them *)

Module WireSamples.
Import JsString Sse ChatApi Json Samples.

(** The data lines of the five frames that the notes give as the answer to
    [GET chat/replay] for a recorded conversation (the scenario of the
    replay of a history), character for character. *)
Definition research_start_data : string :=
  "{" +:+ dq +:+ "agent" +:+ dq +:+ ": " +:+ dq +:+ "researcher" +:+ dq +:+
  ", " +:+ dq +:+ "content" +:+ dq +:+ ": " +:+ dq +:+ "开始量子计算调研..." +:+
  dq +:+ ", " +:+ dq +:+ "research_id" +:+ dq +:+ ": " +:+ dq +:+
  "query-uuid" +:+ dq +:+ "}".

Definition tool_calls_data : string :=
  "{" +:+ dq +:+ "agent" +:+ dq +:+ ": " +:+ dq +:+ "researcher" +:+ dq +:+
  ", " +:+ dq +:+ "tool_calls" +:+ dq +:+ ": [{" +:+ dq +:+ "function" +:+
  dq +:+ ": {" +:+ dq +:+ "name" +:+ dq +:+ ": " +:+ dq +:+ "web_search" +:+
  dq +:+ "}}]}".

Definition tool_call_result_data : string :=
  "{" +:+ dq +:+ "agent" +:+ dq +:+ ": " +:+ dq +:+ "researcher" +:+ dq +:+
  ", " +:+ dq +:+ "tool_call_id" +:+ dq +:+ ": " +:+ dq +:+ "call_001" +:+
  dq +:+ ", " +:+ dq +:+ "content" +:+ dq +:+ ": " +:+ dq +:+
  "找到25篇量子计算相关论文" +:+ dq +:+ "}".

Definition message_chunk_data : string :=
  "{" +:+ dq +:+ "agent" +:+ dq +:+ ": " +:+ dq +:+ "reporter" +:+ dq +:+
  ", " +:+ dq +:+ "role" +:+ dq +:+ ": " +:+ dq +:+ "assistant" +:+ dq +:+
  ", " +:+ dq +:+ "content" +:+ dq +:+ ": " +:+ dq +:+
  "## 量子计算发展现状报告\n\n基于调研结果..." +:+ dq +:+ "}".

Definition replay_end_data : string :=
  "{" +:+ dq +:+ "thread_id" +:+ dq +:+ ": " +:+ dq +:+
  "chat_20250115_001" +:+ dq +:+ ", " +:+ dq +:+ "mode" +:+ dq +:+ ": " +:+
  dq +:+ "static" +:+ dq +:+ ", " +:+ dq +:+ "total_events" +:+ dq +:+
  ": 45}".

(** The frames, with the event lines as the notes have them (the line of
    the second frame ends with two blanks). *)
Definition notes_replay : list (string * string) :=
  [("research_start", research_start_data);
   ("tool_calls  ", tool_calls_data);
   ("tool_call_result", tool_call_result_data);
   ("message_chunk", message_chunk_data);
   ("replay_end", replay_end_data)].

(** A server that answers every request with these frames. *)
Definition notes_server : Net unit unit :=
  {| respond := fun _ _ => Some (answer [wire notes_replay]);
     aborted := fun _ => false |}.

(** The payload of the [replay_end] that the replay service adds at the
    end of a replay that is not continuous, [{mode: "static",
    total_events: n}], here for [n = 2]. *)
Definition synthetic_replay_end : string :=
  "{" +:+ dq +:+ "mode" +:+ dq +:+ ": " +:+ dq +:+ "static" +:+ dq +:+ ", "
  +:+ dq +:+ "total_events" +:+ dq +:+ ": 2}".

(** Those of the four common fields that a payload carries. *)
Definition common_fields (payload : Value) : list string :=
  List.filter (fun name => negb (is_null (field name payload)))
              ["id"; "thread_id"; "agent"; "role"].

End WireSamples.

(** ** core/store: reading the history *)

Module StoreHistory.
Import JsString Store.

Section History.
Context {MessageRest : Type}.

(** [typeof window !== 'undefined'] *)
Variable isClient : bool.

(** [getChatHistoryByThreadId(threadId)]; [None] stands for [null]. *)
Definition getChatHistoryByThreadId (threadId : string)
    (st : Storage MessageRest) : option (ChatHistory MessageRest) :=
  if negb isClient then None
  else List.find (has_thread threadId) (getChatHistories isClient st).

(** An entry of the list [getAllChatHistories] returns. *)
Record ChatHistoryItem : Type := mkChatHistoryItem {
  id : string;
  item_title : Text;
  item_lastMessage : Text;
  item_timestamp : string
}.

(** [new Date(timestamp).toLocaleString()] *)
Variable toLocaleString : string -> string.

Definition getAllChatHistories (st : Storage MessageRest) : list ChatHistoryItem :=
  map (fun h => {| id := threadId h;
                   item_title := title h;
                   item_lastMessage := lastMessage h;
                   item_timestamp := toLocaleString (timestamp h) |})
      (getChatHistories isClient st).

End History.

End StoreHistory.

(** ** core/store: is there research content in a thread? *)

Module ResearchContent.
Import JsString ChatApi.

Section Check.
Context {Json : Type}.

(** [event.data.agent] and [event.data.content] for the data of an event:
    [None] when the property access throws (the data is [null]), and
    inside it [None] for a property that is absent.  A content that is
    present is a string, as core/api/types has it. *)
Variable agent_of : Json -> option (option string).
Variable content_of : Json -> option (option string).

(** The local variables of the function. *)
Record Flags : Type := mkFlags {
  hasToolCalls : bool;
  hasReportContent : bool;
  hasResearchActivities : bool;
  eventCount : nat
}.

Definition initial : Flags :=
  {| hasToolCalls := false; hasReportContent := false;
     hasResearchActivities := false; eventCount := 0 |}.

Definition marker : string := "开始研究调查".

Definition is_agent (name : string) (agent : option string) : bool :=
  match agent with Some a => String.eqb a name | None => false end.

(** [s && !s.includes(marker)] for a content [s] *)
Definition real_content (content : option string) : bool :=
  match content with
  | Some (String c r) => negb (includes marker (String c r))
  | Some EmptyString | None => false
  end.

(** The three tests of one round of the loop, after [eventCount++]: [None]
    when one of them throws. *)
Definition look (ev : Yielded Json) (f : Flags) : option Flags :=
  let f0 := {| hasToolCalls := hasToolCalls f;
               hasReportContent := hasReportContent f;
               hasResearchActivities := hasResearchActivities f;
               eventCount := S (eventCount f) |} in
  let f1 :=
    if String.eqb (type ev) "tool_calls" || String.eqb (type ev) "tool_call_result"
    then {| hasToolCalls := true;
            hasReportContent := hasReportContent f0;
            hasResearchActivities := hasResearchActivities f0;
            eventCount := eventCount f0 |}
    else f0 in
  if String.eqb (type ev) "message_chunk"
  then
    match agent_of (data ev) with
    | None => None
    | Some agent =>
        let f2 :=
          if is_agent "reporter" agent
          then {| hasToolCalls := hasToolCalls f1;
                  hasReportContent := true;
                  hasResearchActivities := hasResearchActivities f1;
                  eventCount := eventCount f1 |}
          else f1 in
        if is_agent "researcher" agent || is_agent "coder" agent
        then
          match content_of (data ev) with
          | None => None
          | Some content =>
              Some (if real_content content
                    then {| hasToolCalls := hasToolCalls f2;
                            hasReportContent := hasReportContent f2;
                            hasResearchActivities := true;
                            eventCount := eventCount f2 |}
                    else f2)
          end
        else Some f2
    end
  else Some f1.

Definition found (f : Flags) : bool :=
  hasToolCalls f || hasReportContent f || hasResearchActivities f.

(** How the [for await] loop ends: by [return true], by [break] or at the
    end of the events, or by an error. *)
Inductive LoopEnd : Type :=
| Returned (value : bool)
| Done (f : Flags)
| Threw.

Fixpoint for_await (events : list (Yielded Json)) (f : Flags) : LoopEnd :=
  match events with
  | [] => Done f
  | ev :: events' =>
      match look ev f with
      | None => Threw
      | Some f' =>
          if found f' then Returned true
          else if Nat.ltb 100 (eventCount f') then Done f'
          else for_await events' f'
      end
  end.

(** [checkForRealResearchContent(threadId)], given the events
    [chatSmartReplayStream(threadId, "0")] yields, in order, until it
    returns or throws. *)
Definition checkForRealResearchContent (events : list (Yielded Json)) : bool :=
  match for_await events initial with
  | Returned value => value
  | Done f => found f
  | Threw => false
  end.

(** What one event shows by itself: [None] when looking at it throws. *)
Definition evidence (ev : Yielded Json) : option bool :=
  option_map found (look ev initial).

Definition shows_nothing (ev : Yielded Json) : bool :=
  match evidence ev with Some false => true | _ => false end.

Definition shows_research (ev : Yielded Json) : bool :=
  match evidence ev with Some true => true | _ => false end.

End Check.

End ResearchContent.

(** ** A JavaScript [Map] with string keys *)

Module JsMap.

Section Map.
Context {V : Type}.

(** The entries in the order of insertion; a key has one entry. *)
Definition Map : Type := list (string * V).

Definition has_key (k : string) (entry : string * V) : bool :=
  String.eqb (fst entry) k.

(** [m.get(k)] *)
Definition get (k : string) (m : Map) : option V :=
  option_map snd (List.find (has_key k) m).

(** [new Map(m).set(k, v)]: the entry of a key that is present is
    replaced where it is, a new key is added at the end. *)
Fixpoint set (k : string) (v : V) (m : Map) : Map :=
  match m with
  | [] => [(k, v)]
  | entry :: m' =>
      if has_key k entry then (k, v) :: m' else entry :: set k v m'
  end.

(** [Array.from(m.values())] and [Array.from(m.keys())] *)
Definition values (m : Map) : list V := map snd m.

Definition keys (m : Map) : list string := map fst m.

End Map.

Arguments Map : clear implicits.

End JsMap.

(** ** core/store: the store of messages and research *)

Module ResearchStore.
Import JsString.

(** What a [Message] (core/messages) has besides [role] and [content], as
    far as the store reads it; [toolCalls] holds the ids of the tool
    calls. *)
Record MessageRest : Type := mkMessageRest {
  id : string;
  threadId : string;
  agent : option string;
  isStreaming : option bool;
  finishReason : option string;
  toolCalls : option (list string)
}.

Abbreviation Message := (Store.Message MessageRest).

Definition message_id (m : Message) : string := id (Store.rest m).
Definition message_threadId (m : Message) : string := threadId (Store.rest m).
Definition message_agent (m : Message) : option string := agent (Store.rest m).

(** [l.includes(x)] for an array of strings *)
Definition array_includes (x : string) (l : list string) : bool :=
  existsb (String.eqb x) l.

(** Is the value truthy?  [null], [undefined] and the empty string are
    not. *)
Definition truthy (s : option string) : bool :=
  match s with
  | Some (String _ _) => true
  | Some EmptyString | None => false
  end.

Definition is_agent (name : string) (m : Message) : bool :=
  match message_agent m with Some a => String.eqb a name | None => false end.

(** The state of [useStore], without its functions. *)
Record State : Type := mkState {
  responding : bool;
  state_threadId : option string;
  messageIds : list string;
  messages : JsMap.Map Message;
  researchIds : list string;
  researchPlanIds : JsMap.Map string;
  researchReportIds : JsMap.Map string;
  researchActivityIds : JsMap.Map (list string);
  ongoingResearchId : option string;
  openResearchId : option string
}.

(** The module: the store, the variable [CURRENT_THREAD_ID], and the two
    items of localStorage, the history and the current thread id. *)
Record Env : Type := mkEnv {
  store : State;
  CURRENT_THREAD_ID : string;
  history : Store.Storage MessageRest;
  thread_id_item : option string
}.

Definition with_store (s : State) (env : Env) : Env :=
  {| store := s; CURRENT_THREAD_ID := CURRENT_THREAD_ID env;
     history := history env; thread_id_item := thread_id_item env |}.

Definition with_history (h : Store.Storage MessageRest) (env : Env) : Env :=
  {| store := store env; CURRENT_THREAD_ID := CURRENT_THREAD_ID env;
     history := h; thread_id_item := thread_id_item env |}.

(** *** The functions of the store *)

(** The state of a thread that has no message. *)
Definition empty_state (threadId : string) : State :=
  {| responding := false;
     state_threadId := Some threadId;
     messageIds := [];
     messages := [];
     researchIds := [];
     researchPlanIds := [];
     researchReportIds := [];
     researchActivityIds := [];
     ongoingResearchId := None;
     openResearchId := None |}.

(** [set({ messageIds, messages })] *)
Definition set_messages (ids : list string) (ms : JsMap.Map Message) (s : State)
  : State :=
  {| responding := responding s;
     state_threadId := state_threadId s;
     messageIds := ids;
     messages := ms;
     researchIds := researchIds s;
     researchPlanIds := researchPlanIds s;
     researchReportIds := researchReportIds s;
     researchActivityIds := researchActivityIds s;
     ongoingResearchId := ongoingResearchId s;
     openResearchId := openResearchId s |}.

(** The [set] of [appendMessage], [updateMessage] and [updateMessages] of
    the store; what they schedule is [autosave] below. *)
Definition store_appendMessage (message : Message) (s : State) : State :=
  set_messages (messageIds s ++ [message_id message])
               (JsMap.set (message_id message) message (messages s)) s.

Definition store_updateMessage (message : Message) (s : State) : State :=
  set_messages (messageIds s)
               (JsMap.set (message_id message) message (messages s)) s.

Definition store_updateMessages (ms : list Message) (s : State) : State :=
  set_messages (messageIds s)
               (fold_left (fun newMessages m => JsMap.set (message_id m) m newMessages)
                          ms (messages s)) s.

Definition store_openResearch (researchId : option string) (s : State) : State :=
  {| responding := responding s;
     state_threadId := state_threadId s;
     messageIds := messageIds s;
     messages := messages s;
     researchIds := researchIds s;
     researchPlanIds := researchPlanIds s;
     researchReportIds := researchReportIds s;
     researchActivityIds := researchActivityIds s;
     ongoingResearchId := ongoingResearchId s;
     openResearchId := researchId |}.

Definition store_closeResearch (s : State) : State := store_openResearch None s.

(** [setResponding(value)] *)
Definition setResponding (value : bool) (s : State) : State :=
  {| responding := value;
     state_threadId := state_threadId s;
     messageIds := messageIds s;
     messages := messages s;
     researchIds := researchIds s;
     researchPlanIds := researchPlanIds s;
     researchReportIds := researchReportIds s;
     researchActivityIds := researchActivityIds s;
     ongoingResearchId := ongoingResearchId s;
     openResearchId := openResearchId s |}.

Definition setOngoingResearch (researchId : option string) (s : State) : State :=
  {| responding := responding s;
     state_threadId := state_threadId s;
     messageIds := messageIds s;
     messages := messages s;
     researchIds := researchIds s;
     researchPlanIds := researchPlanIds s;
     researchReportIds := researchReportIds s;
     researchActivityIds := researchActivityIds s;
     ongoingResearchId := researchId;
     openResearchId := openResearchId s |}.

(** [Array.from(state.messages.values()).filter(m => m.threadId ===
    threadId)], where [threadId] may be [undefined]. *)
Definition messages_of (threadId : option string) (s : State) : list Message :=
  List.filter
    (fun m => match threadId with
              | Some t => String.eqb (message_threadId m) t
              | None => false
              end)
    (JsMap.values (messages s)).

Section Client.

(** [typeof window !== 'undefined'] *)
Variable isClient : bool.

(** [localStorage.setItem(CURRENT_THREAD_ID_KEY, id)] inside its [try]:
    [id_written] tells whether the write returns; when it throws the item
    stays as it was. *)
Definition set_thread_id_item (id_written : bool) (id : string)
    (item : option string) : option string :=
  if id_written then Some id else item.

(** The thread id the module starts with: [newId] is what [nanoid()]
    returns, [item] the stored thread id, [id_read] whether
    [localStorage.getItem] returns it. *)
Definition initial_thread_id (id_read id_written : bool) (newId : string)
    (item : option string) : string * option string :=
  if negb isClient then (newId, item)
  else if id_read && truthy item then (default "" item, item)
  else (newId, set_thread_id_item id_written newId item).

Definition initial (id_read id_written : bool) (newId : string)
    (stored : Store.Storage MessageRest) (item : option string) : Env :=
  {| store := empty_state (fst (initial_thread_id id_read id_written newId item));
     CURRENT_THREAD_ID := fst (initial_thread_id id_read id_written newId item);
     history := stored;
     thread_id_item := snd (initial_thread_id id_read id_written newId item) |}.

(** What the store saves, one or two seconds after a message is appended
    or updated; [now] is the time then, [written] whether the write of the
    history returns. *)
Definition autosave (written : bool) (now : string) (env : Env) : Env :=
  let currentState := store env in
  let currentMessages := messages_of (state_threadId currentState) currentState in
  if Nat.ltb 0 (length currentMessages)
  then with_history
         (Store.saveChatHistory isClient written now
            (default "" (state_threadId currentState)) currentMessages (history env))
         env
  else env.

(** [resetThread()]; [newId] is what [nanoid()] returns, [written] and
    [id_written] tell whether the writes of the history and of the thread
    id return. *)
Definition resetThread (written id_written : bool) (now newId : string)
    (env : Env) : Env :=
  let saved := autosave written now env in
  {| store := empty_state newId;
     CURRENT_THREAD_ID := newId;
     history := history saved;
     thread_id_item :=
       if isClient then set_thread_id_item id_written newId (thread_id_item saved)
       else thread_id_item saved |}.

(** [saveCurrentChat()] *)
Definition saveCurrentChat (written : bool) (now : string) (env : Env)
  : bool * Env :=
  let currentState := store env in
  let currentMessages := messages_of (state_threadId currentState) currentState in
  if Nat.ltb 0 (length currentMessages) && truthy (state_threadId currentState)
  then (true,
        with_history
          (Store.saveChatHistory isClient written now
             (default "" (state_threadId currentState)) currentMessages (history env))
          env)
  else (false, env).

(** *** The functions of the module *)

Definition existsMessage (id : string) (s : State) : bool :=
  array_includes id (messageIds s).

Definition getMessage (id : string) (s : State) : option Message :=
  JsMap.get id (messages s).

Definition findMessageByToolCallId (toolCallId : string) (s : State)
  : option Message :=
  List.find
    (fun message =>
       match toolCalls (Store.rest message) with
       | Some calls => array_includes toolCallId calls
       | None => false
       end)
    (rev (JsMap.values (messages s))).

(** What [useMessageIds] selects: the listed ids whose message is of the
    thread of the store. *)
Definition useMessageIds (s : State) : list string :=
  List.filter
    (fun messageId =>
       match JsMap.get messageId (messages s) with
       | Some message =>
           match state_threadId s with
           | Some t => String.eqb (message_threadId message) t
           | None => false
           end
       | None => false
       end)
    (messageIds s).

Definition is_interrupt (message : Message) : bool :=
  match finishReason (Store.rest message) with
  | Some reason => String.eqb reason "interrupt"
  | None => false
  end.

(** What [useLastInterruptMessage] selects; [None] stands for [null]. *)
Definition useLastInterruptMessage (s : State) : option Message :=
  let currentThreadMessageIds := useMessageIds s in
  if Nat.leb 2 (length currentThreadMessageIds)
  then
    match last currentThreadMessageIds ≫= (fun id => JsMap.get id (messages s)) with
    | Some lastMessage => if is_interrupt lastMessage then Some lastMessage else None
    | None => None
    end
  else None.

(** What [useLastFeedbackMessageId] selects; [None] stands for [null]. *)
Definition useLastFeedbackMessageId (s : State) : option string :=
  let currentThreadMessageIds := useMessageIds s in
  if Nat.leb 2 (length currentThreadMessageIds)
  then
    match last currentThreadMessageIds ≫= (fun id => JsMap.get id (messages s)) with
    | Some lastMessage =>
        if is_interrupt lastMessage
        then currentThreadMessageIds !! (length currentThreadMessageIds - 2)
        else None
    | None => None
    end
  else None.

(** The plan message [appendResearch] looks for: the last listed message
    of the planner. *)
Fixpoint find_plan (reversedMessageIds : list string) (s : State) : option Message :=
  match reversedMessageIds with
  | [] => None
  | messageId :: ids =>
      match getMessage messageId s with
      | Some message =>
          if is_agent "planner" message then Some message else find_plan ids s
      | None => find_plan ids s
      end
  end.

Definition appendResearch (researchId : string) (s : State) : State :=
  if array_includes researchId (researchIds s) then s
  else
    let planMessage := find_plan (rev (messageIds s)) s in
    let messageIds' :=
      match planMessage with
      | Some plan => [message_id plan; researchId]
      | None => [researchId]
      end in
    {| responding := responding s;
       state_threadId := state_threadId s;
       messageIds := messageIds s;
       messages := messages s;
       researchIds := researchIds s ++ [researchId];
       researchPlanIds :=
         match planMessage with
         | Some plan => JsMap.set researchId (message_id plan) (researchPlanIds s)
         | None => researchPlanIds s
         end;
       researchReportIds := researchReportIds s;
       researchActivityIds := JsMap.set researchId messageIds' (researchActivityIds s);
       ongoingResearchId := Some researchId;
       openResearchId := openResearchId s |}.

Definition set_activity (activity : JsMap.Map (list string)) (s : State) : State :=
  {| responding := responding s;
     state_threadId := state_threadId s;
     messageIds := messageIds s;
     messages := messages s;
     researchIds := researchIds s;
     researchPlanIds := researchPlanIds s;
     researchReportIds := researchReportIds s;
     researchActivityIds := activity;
     ongoingResearchId := ongoingResearchId s;
     openResearchId := openResearchId s |}.

Definition set_report (reports : JsMap.Map string) (s : State) : State :=
  {| responding := responding s;
     state_threadId := state_threadId s;
     messageIds := messageIds s;
     messages := messages s;
     researchIds := researchIds s;
     researchPlanIds := researchPlanIds s;
     researchReportIds := reports;
     researchActivityIds := researchActivityIds s;
     ongoingResearchId := ongoingResearchId s;
     openResearchId := openResearchId s |}.

(** [appendResearchActivity(message)]: [None] when it throws, which it does
    when the ongoing research has no list of activities. *)
Definition appendResearchActivity (message : Message) (s : State) : option State :=
  if truthy (ongoingResearchId s)
  then
    let researchId := default "" (ongoingResearchId s) in
    match JsMap.get researchId (researchActivityIds s) with
    | None => None
    | Some current =>
        let s1 :=
          if negb (array_includes (message_id message) current)
          then set_activity
                 (JsMap.set researchId (current ++ [message_id message])
                            (researchActivityIds s)) s
          else s in
        Some (if is_agent "reporter" message
              then set_report
                     (JsMap.set researchId (message_id message) (researchReportIds s1))
                     s1
              else s1)
    end
  else Some s.

(** The research that has the message among its activities, if any. *)
Definition existingResearchForMessage (message : Message) (s : State)
  : option string :=
  List.find
    (fun researchId =>
       match JsMap.get researchId (researchActivityIds s) with
       | Some activityIds => array_includes (message_id message) activityIds
       | None => false
       end)
    (researchIds s).

(** [appendMessage(message)] of the module: [None] when it throws. *)
Definition appendMessage (message : Message) (env : Env) : option Env :=
  let s0 := store env in
  let s1 :=
    if String.eqb (message_threadId message) (CURRENT_THREAD_ID env)
    then store_appendMessage message s0
    else s0 in
  if is_agent "coder" message || is_agent "reporter" message
     || is_agent "researcher" message
  then
    let currentOngoingId := ongoingResearchId s1 in
    let s2 :=
      if negb (truthy currentOngoingId) && is_agent "researcher" message
      then
        if negb (truthy (existingResearchForMessage message s1))
        then store_openResearch (Some (message_id message))
               (appendResearch (message_id message) s1)
        else s1
      else s1 in
    option_map (fun s3 => with_store s3 env) (appendResearchActivity message s2)
  else Some (with_store s1 env).

(** [updateMessage(message)] of the module; what it may schedule is
    [delayed_clear] below, with the ongoing research it has seen. *)
Definition updateMessage (message : Message) (env : Env) : Env :=
  let s0 := store env in
  let currentOngoingId := ongoingResearchId s0 in
  let s1 :=
    if truthy currentOngoingId && is_agent "reporter" message
       && negb (default false (isStreaming (Store.rest message)))
    then setOngoingResearch None s0
    else s0 in
  with_store (store_updateMessage message s1) env.

(** Does [updateMessage(message)] schedule [delayed_clear]? *)
Definition schedules_clear (message : Message) (env : Env) : bool :=
  truthy (ongoingResearchId (store env))
  && match finishReason (Store.rest message) with
     | Some reason => String.eqb reason "stop" || String.eqb reason "completed"
     | None => false
     end.

Definition delayed_clear (currentOngoingId : option string) (env : Env) : Env :=
  match ongoingResearchId (store env), currentOngoingId with
  | Some stillOngoing, Some seen =>
      if String.eqb stillOngoing seen
      then with_store (setOngoingResearch None (store env)) env
      else env
  | _, _ => env
  end.

(** [resetOngoingResearch()] *)
Definition resetOngoingResearch (env : Env) : bool * Env :=
  if truthy (ongoingResearchId (store env))
  then (true, with_store (setOngoingResearch None (store env)) env)
  else (false, env).

(** The module after steps 3 and 4 of [switchToHistoryChat]: the thread
    switched to, the store cleared, and the messages of the saved
    conversation restored. *)
Definition switched (id_written : bool) (threadId : string)
    (historyData : Store.ChatHistory MessageRest)
    (saved : Store.Storage MessageRest) (env : Env) : Env :=
  {| store :=
       set_messages
         (map message_id (Store.messages historyData))
         (fold_left (fun messageMap m => JsMap.set (message_id m) m messageMap)
                    (Store.messages historyData) [])
         (empty_state threadId);
     CURRENT_THREAD_ID := threadId;
     history := saved;
     thread_id_item :=
       if isClient then set_thread_id_item id_written threadId (thread_id_item env)
       else thread_id_item env |}.

(** What [switchToHistoryChat(threadId)] does before it returns; the check
    of the research status that it schedules writes to the store through
    [restoreOngoingResearch], [createReplayedMessage],
    [restoreCompletedResearch] below and the store's [updateMessage] and
    [setOngoingResearch]. *)
Definition switchToHistoryChat (written id_written : bool) (now threadId : string)
    (env : Env) : bool * Env :=
  let currentMessages :=
    messages_of (Some (CURRENT_THREAD_ID env)) (store env) in
  let saved :=
    if Nat.ltb 0 (length currentMessages)
    then Store.saveChatHistory isClient written now (CURRENT_THREAD_ID env)
           currentMessages (history env)
    else history env in
  match StoreHistory.getChatHistoryByThreadId isClient threadId saved with
  | None => (false, with_history saved env)
  | Some historyData => (true, switched id_written threadId historyData saved env)
  end.

(** *** The research check that [switchToHistoryChat] schedules *)

(** The check runs a tenth of a second after the switch and waits for the
    server and for the events of a replay; each definition below is one of
    its writes to the store, done without a wait in between.  [threadId]
    is the thread the switch went to, which need not be the thread of the
    store any more. *)

(** The text ["🔍 正在进行研究调查: "] that the message of an ongoing
    research starts with. *)
Definition ongoing_prefix : Store.Text :=
  [55357; 56589; 32; 27491; 22312; 36827; 34892; 30740; 31350; 35843; 26597;
   58; 32]%N.

Definition researchMessage (threadId research_id : string) (topic : Store.Text)
  : Message :=
  {| Store.role := "assistant";
     Store.content := Some (ongoing_prefix ++ topic);
     Store.rest := {| id := research_id; threadId := threadId;
                      agent := Some "researcher"; isStreaming := Some true;
                      finishReason := None; toolCalls := None |} |}.

(** For an ongoing research: its message is created unless the id has a
    message, then [appendResearch(research_id); openResearch(research_id);
    setOngoingResearch(research_id)]. *)
Definition restoreOngoingResearch (threadId research_id : string)
    (topic : Store.Text) (s : State) : State :=
  let s1 :=
    match JsMap.get research_id (messages s) with
    | Some existingMessage => s
    | None => store_appendMessage (researchMessage threadId research_id topic) s
    end in
  setOngoingResearch (Some research_id)
    (store_openResearch (Some research_id) (appendResearch research_id s1)).

(** The message a replay creates for an event whose id has no message
    yet. *)
Definition createReplayedMessage (message : Message) (s : State) : State :=
  match JsMap.get (message_id message) (messages s) with
  | Some existing => s
  | None => store_appendMessage message s
  end.

(** [values.find(msg => msg.agent === "researcher" &&
    msg.content.includes(topic))]: [None] when it throws, which it does at
    a message of the researcher without content; otherwise the message
    found, if any. *)
Fixpoint find_research (topic : Store.Text) (values : list Message)
  : option (option Message) :=
  match values with
  | [] => Some None
  | msg :: values' =>
      if is_agent "researcher" msg
      then match Store.content msg with
           | None => None
           | Some content =>
               if Store.text_includes topic content then Some (Some msg)
               else find_research topic values'
           end
      else find_research topic values'
  end.

(** [l.indexOf(x)] for an array of strings *)
Fixpoint array_indexOf (x : string) (l : list string) : Z :=
  match l with
  | [] => -1
  | y :: l' =>
      if String.eqb y x then 0
      else let i := array_indexOf x l' in if (i <? 0)%Z then (-1)%Z else (i + 1)%Z
  end.

(** [l.sort((a, b) => index(a) - index(b))]; the sort is stable. *)
Fixpoint insert_by {A : Type} (index : A -> Z) (a : A) (sorted : list A) : list A :=
  match sorted with
  | [] => [a]
  | b :: sorted' =>
      if (index a <=? index b)%Z then a :: b :: sorted'
      else b :: insert_by index a sorted'
  end.

Definition sort_by {A : Type} (index : A -> Z) (l : list A) : list A :=
  fold_right (insert_by index) [] l.

Definition research_related (msg : Message) : bool :=
  is_agent "researcher" msg || is_agent "planner" msg
  || is_agent "reporter" msg || is_agent "coder" msg
  || match toolCalls (Store.rest msg) with
     | Some calls => Nat.ltb 0 (length calls)
     | None => false
     end.

(** For a completed research whose replay created a message: the research
    of the message found is recorded with the messages of the thread that
    belong to a research as activities, and opened.  An exception of the
    search is caught and logged. *)
Definition restoreCompletedResearch (threadId : string) (topic : Store.Text)
    (s : State) : State :=
  match find_research topic (JsMap.values (messages s)) with
  | None | Some None => s
  | Some (Some found) =>
      let allMessages :=
        sort_by (fun msg => array_indexOf (message_id msg) (messageIds s))
          (List.filter (fun msg => String.eqb (message_threadId msg) threadId)
                       (JsMap.values (messages s))) in
      let researchRelatedMessages := List.filter research_related allMessages in
      let activityIds := map message_id researchRelatedMessages in
      let planMessage := List.find (is_agent "planner") researchRelatedMessages in
      let reportMessage := List.find (is_agent "reporter") researchRelatedMessages in
      if negb (array_includes (message_id found) (researchIds s))
      then
        {| responding := responding s;
           state_threadId := state_threadId s;
           messageIds := messageIds s;
           messages := messages s;
           researchIds := researchIds s ++ [message_id found];
           researchPlanIds :=
             match planMessage with
             | Some plan =>
                 JsMap.set (message_id found) (message_id plan) (researchPlanIds s)
             | None => researchPlanIds s
             end;
           researchReportIds :=
             match reportMessage with
             | Some report =>
                 JsMap.set (message_id found) (message_id report)
                   (researchReportIds s)
             | None => researchReportIds s
             end;
           researchActivityIds :=
             JsMap.set (message_id found) activityIds (researchActivityIds s);
           ongoingResearchId := ongoingResearchId s;
           openResearchId := Some (message_id found) |}
      else s
  end.

(** What the page, the stream and the timers do to the module, one call
    or one write at a time.  Messages have ids that are strings, as the
    type [Message] declares.  The writes of [listenToPodcast] are not
    among them. *)
Inductive Op : Type :=
| SetResponding (value : bool)
| AppendMessage (message : Message)
| UpdateMessage (message : Message)
| DelayedClear (currentOngoingId : option string)
| StoreUpdateMessage (message : Message)
| StoreUpdateMessages (ms : list Message)
| Autosave (written : bool) (now : string)
| OpenResearch (researchId : option string)
| CloseResearch
| ClearOngoingResearch
| ResetOngoingResearch
| ResetThread (written id_written : bool) (now newId : string)
| SaveCurrentChat (written : bool) (now : string)
| SwitchToHistoryChat (written id_written : bool) (now threadId : string)
| RestoreOngoingResearch (threadId research_id : string) (topic : Store.Text)
| CreateReplayedMessage (message : Message)
| RestoreCompletedResearch (threadId : string) (topic : Store.Text).

(** One call: [None] when it throws. *)
Definition step (op : Op) (env : Env) : option Env :=
  match op with
  | SetResponding value => Some (with_store (setResponding value (store env)) env)
  | AppendMessage message => appendMessage message env
  | UpdateMessage message => Some (updateMessage message env)
  | DelayedClear seen => Some (delayed_clear seen env)
  | StoreUpdateMessage message =>
      Some (with_store (store_updateMessage message (store env)) env)
  | StoreUpdateMessages ms =>
      Some (with_store (store_updateMessages ms (store env)) env)
  | Autosave written now => Some (autosave written now env)
  | OpenResearch researchId =>
      Some (with_store (store_openResearch researchId (store env)) env)
  | CloseResearch => Some (with_store (store_closeResearch (store env)) env)
  | ClearOngoingResearch =>
      Some (with_store (setOngoingResearch None (store env)) env)
  | ResetOngoingResearch => Some (snd (resetOngoingResearch env))
  | ResetThread written id_written now newId =>
      Some (resetThread written id_written now newId env)
  | SaveCurrentChat written now => Some (snd (saveCurrentChat written now env))
  | SwitchToHistoryChat written id_written now threadId =>
      Some (snd (switchToHistoryChat written id_written now threadId env))
  | RestoreOngoingResearch threadId research_id topic =>
      Some (with_store
              (restoreOngoingResearch threadId research_id topic (store env)) env)
  | CreateReplayedMessage message =>
      Some (with_store (createReplayedMessage message (store env)) env)
  | RestoreCompletedResearch threadId topic =>
      Some (with_store (restoreCompletedResearch threadId topic (store env)) env)
  end.

Fixpoint run (ops : list Op) (env : Env) : option Env :=
  match ops with
  | [] => Some env
  | op :: ops' =>
      match step op env with
      | Some env' => run ops' env'
      | None => None
      end
  end.

(** *** What holds of the store *)

(** Every listed message id has a message, every message is under its
    own id, and no id has two messages. *)
Definition messages_listed (s : State) : Prop :=
  Forall (fun id => is_null (getMessage id s) = false) (messageIds s)
  /\ Forall (fun entry => fst entry = message_id (snd entry)) (messages s)
  /\ NoDup (JsMap.keys (messages s)).

(** The researches are listed once, each has a list of activities, plans,
    reports and activities belong to listed researches, and so does the
    ongoing research. *)
Definition research_recorded (s : State) : Prop :=
  NoDup (researchIds s)
  /\ Forall (fun researchId =>
               is_null (JsMap.get researchId (researchActivityIds s)) = false)
            (researchIds s)
  /\ Forall (fun researchId => array_includes researchId (researchIds s) = true)
            (JsMap.keys (researchPlanIds s) ++ JsMap.keys (researchReportIds s)
             ++ JsMap.keys (researchActivityIds s))
  /\ (truthy (ongoingResearchId s) = true ->
      array_includes (default "" (ongoingResearchId s)) (researchIds s) = true).

Definition well_formed (env : Env) : Prop :=
  state_threadId (store env) = Some (CURRENT_THREAD_ID env)
  /\ messages_listed (store env)
  /\ research_recorded (store env).

End Client.

End ResearchStore.

(** ** Messages and modules to run the store on *)

Module StoreSamples.
Import JsString ResearchStore.

Definition message (id threadId : string) (agent : option string)
    (role content : string) : Message :=
  {| Store.role := role;
     Store.content := Some (Store.text content);
     Store.rest := {| id := id; threadId := threadId; agent := agent;
                      isStreaming := None; finishReason := None;
                      toolCalls := None |} |}.

(** A question in the thread [T] and an answer of the researcher. *)
Definition question : Message := message "m1" "T" None "user" "hello".

Definition finding : Message :=
  message "m2" "T" (Some "researcher") "assistant" "found".

(** A page that starts with nothing stored and gets the thread id [T]. *)
Definition fresh : Env := initial true true true "T" None None.

(** The same page with the question asked, and a conversation of the
    thread [U] in the history. *)
Definition old_question : Message := message "u1" "U" None "user" "old".

Definition chatting : Env :=
  with_history (Store.saveChatHistory true true "2024" "U" [old_question] None)
    (with_store (store_appendMessage question (store fresh)) fresh).

(** A message of the researcher in another thread, as a replay may
    create it from an event that names that thread. *)
Definition stray : Message :=
  message "s1" "V" (Some "researcher") "assistant" "found".

(** The same page after [setOngoingResearch("r")] was called on the
    store. *)
Definition dangling : Env :=
  with_store (setOngoingResearch (Some "r") (store fresh)) fresh.

End StoreSamples.

(** ** core/api/chat: the replay of a recorded file *)

Module RecordedReplay.
Import JsString Sse ChatApi.

(** The carriage return. *)
Definition cr : ascii := Ascii.ascii_of_nat 13.

(** [text.replace(/\r\n/g, "\n")] *)
Fixpoint normalize (text : string) : string :=
  match text with
  | EmptyString => EmptyString
  | String a rest =>
      match rest with
      | String b rest' =>
          if Ascii.eqb a cr && Ascii.eqb b lf
          then String lf (normalize rest')
          else String a (normalize rest)
      | EmptyString => String a EmptyString
      end
  end.

(** [s.split(sep)] for a separator that is not empty: the pieces between
    the occurrences of the separator found from left to right.  [skip]
    counts the characters of an occurrence still to pass. *)
Fixpoint split_from (sep : string) (skip : nat) (s : string) : list string :=
  match s with
  | EmptyString => [EmptyString]
  | String a s' =>
      match skip with
      | S skip' => split_from sep skip' s'
      | 0 =>
          if startsWith sep s
          then EmptyString :: split_from sep (String.length sep - 1) s'
          else match split_from sep 0 s' with
               | piece :: pieces => String a piece :: pieces
               | [] => [String a EmptyString]
               end
      end
  end.

Definition split (sep s : string) : list string := split_from sep 0 s.

(** What the replay does, in order: a pause, or an event yielded, whose
    type is [None] when it is [undefined]. *)
Inductive Action {Json : Type} : Type :=
| Sleep (ms : nat)
| Yield (type : option string) (data : Json).
Arguments Action : clear implicits.

(** Why the replay throws: [fetch] rejected, the file was not served, or a
    chunk has no second line. *)
Inductive Failure : Type :=
| Rejected
| FailedToFetchReplay (statusText : string)
| TypeError.

Section Replay.
Context {Json : Type}.
Variable host : Host Json.

(** [new URLSearchParams(search)] as the list of its entries. *)
Variable URLSearchParams : string -> list (string * string).

(** The answer to [fetch(url)]: [None] when it rejects. *)
Variable serve : string -> option Response.

(** [urlParams.get(name)], which is [None] exactly when
    [urlParams.has(name)] is false. *)
Definition urlParams_get (name : string) (urlParams : list (string * string))
  : option string :=
  option_map snd (List.find (fun entry => String.eqb (fst entry) name) urlParams).

(** The file to replay, and whether [fastForwardReplaying] is set. *)
Definition replayFilePath (interrupt_feedback : option string) : string * bool :=
  let urlParams := URLSearchParams (location_search host) in
  match urlParams_get "mock" urlParams with
  | Some mock =>
      (match mock with
       | String _ _ => "/mock/" +:+ mock +:+ ".txt"
       | EmptyString =>
           match interrupt_feedback with
           | Some feedback =>
               if String.eqb feedback "accepted" then "/mock/final-answer.txt"
               else if String.eqb feedback "edit_plan" then "/mock/re-plan.txt"
               else "/mock/first-plan.txt"
           | None => "/mock/first-plan.txt"
           end
       end,
       true)
  | None =>
      (match extractReplayIdFromSearchParams host (location_search host) with
       | Some (String c r) => "/replay/" +:+ String c r +:+ ".txt"
       | Some EmptyString | None => "/replay/eiffel-tower-vs-tallest-building.txt"
       end,
       false)
  end.

(** [fetchReplay(url)] with the cache [replayCache]: the text or the
    failure, the cache afterwards, and the requests made. *)
Definition fetchReplay (url : string) (replayCache : JsMap.Map string)
  : (string + Failure) * JsMap.Map string * list string :=
  match JsMap.get url replayCache with
  | Some text => (inl text, replayCache, [])
  | None =>
      match serve url with
      | None => (inr Rejected, replayCache, [url])
      | Some res =>
          if negb (ok res)
          then (inr (FailedToFetchReplay (statusText res)), replayCache, [url])
          else (inl (text res), JsMap.set url (text res) replayCache, [url])
      end
  end.

(** [sleepInReplay(ms)] *)
Definition sleepInReplay (fastForwardReplaying : bool) (ms : nat) : Action Json :=
  if fastForwardReplaying then Sleep 0 else Sleep ms.

(** The three destructurings at the head of the loop: the event and the
    data, each [None] when [undefined]; [None] when the third throws, the
    chunk having no second line. *)
Definition fields (chunk : string) : option (option string * option string) :=
  match split_on lf chunk with
  | eventRaw :: dataRaw :: _ =>
      Some (split "event: " eventRaw !! 1, split "data: " dataRaw !! 1)
  | _ => None
  end.

Definition has_type (name : string) (event : option string) : bool :=
  match event with Some e => String.eqb e name | None => false end.

(** The [try] of the loop, whose [catch] only logs. *)
Definition replay_event (fastForwardReplaying : bool)
    (event data : option string) : list (Action Json) :=
  match data ≫= JSON_parse host with
  | None => []
  | Some d =>
      let before :=
        if has_type "message_chunk" event
        then match finish_reason_of host d with
             | Some finished =>
                 Some (if finished then []
                       else [sleepInReplay fastForwardReplaying 50])
             | None => None
             end
        else if has_type "tool_call_result" event
        then Some [sleepInReplay fastForwardReplaying 500]
        else Some [] in
      match before with
      | None => []
      | Some pauses =>
          pauses ++ [Yield event d]
          ++ (if has_type "tool_call_result" event
              then [sleepInReplay fastForwardReplaying 800]
              else if has_type "message_chunk" event
              then match role_is_user host d with
                   | Some true => [sleepInReplay fastForwardReplaying 500]
                   | Some false | None => []
                   end
              else [])
      end
  end.

(** The loop over the chunks: what it does, and whether it throws. *)
Fixpoint replay_chunks (fastForwardReplaying : bool) (chunks : list string)
  : list (Action Json) * option Failure :=
  match chunks with
  | [] => ([], None)
  | chunk :: chunks' =>
      match fields chunk with
      | None => ([], Some TypeError)
      | Some (event, data) =>
          let rest := replay_chunks fastForwardReplaying chunks' in
          (replay_event fastForwardReplaying event data ++ fst rest, snd rest)
      end
  end.

(** How a call of [chatReplayStream] ends. *)
Record Replayed : Type := mkReplayed {
  requests : list string;
  actions : list (Action Json);
  failure : option Failure;
  replayCache : JsMap.Map string;
  fastForwardReplaying : bool
}.

(** [chatReplayStream(userMessage, params, options)], started with the
    cache [cache] and the variable [fastForwardReplaying] at [fast], which
    nothing else changes while it runs. *)
Definition chatReplayStream (userMessage : string)
    (interrupt_feedback : option string)
    (cache : JsMap.Map string) (fast : bool) : Replayed :=
  let path := replayFilePath interrupt_feedback in
  let fast' := snd path || fast in
  match fetchReplay (fst path) cache with
  | (inr error, cache', made) =>
      {| requests := made; actions := []; failure := Some error;
         replayCache := cache'; fastForwardReplaying := fast' |}
  | (inl text, cache', made) =>
      let chunks := split (LF +:+ LF) (normalize text) in
      {| requests := made;
         actions := fst (replay_chunks fast' chunks);
         failure := snd (replay_chunks fast' chunks);
         replayCache := cache';
         fastForwardReplaying := fast' |}
  end.

End Replay.

End RecordedReplay.

(** ** A recording to replay *)

Module RecordingSamples.
Import JsString Sse ChatApi Samples RecordedReplay.

(** [URLSearchParams] for the query strings of the examples: none has a
    parameter. *)
Definition no_params (search : string) : list (string * string) := [].

(** A recording of one message, ending with a blank line. *)
Definition recording : string :=
  "event: message_chunk" +:+ LF +:+ "data: " +:+ object1 "id" "m1" +:+ LF +:+ LF.

(** A server that has the recording under every name. *)
Definition recordings (url : string) : option Response :=
  Some (answer [recording]).

End RecordingSamples.

(** * Properties *)

(** ** Strings *)

Module JsStringFacts.
Import JsString.

Lemma append_assoc (a b c : string) : (a +:+ b) +:+ c = a +:+ (b +:+ c).
Proof. induction a as [|x a IH]; cbn; [reflexivity | f_equal; exact IH]. Qed.

Lemma append_nil_r (a : string) : a +:+ "" = a.
Proof. induction a as [|x a IH]; cbn; [reflexivity | f_equal; exact IH]. Qed.

Lemma length_append (a b : string) :
  String.length (a +:+ b) = String.length a + String.length b.
Proof. induction a as [|x a IH]; cbn; [reflexivity | f_equal; exact IH]. Qed.

Lemma startsWith_append (p s : string) : startsWith p (p +:+ s) = true.
Proof.
  induction p as [|x p IH]; simpl; [reflexivity|].
  now rewrite Ascii.eqb_refl.
Qed.

Lemma startsWith_split (p s : string) :
  startsWith p s = true -> s = p +:+ slice_from (String.length p) s.
Proof.
  revert s; induction p as [|x p IH]; intros [|y s]; simpl; try easy.
  intros H. apply andb_true_iff in H as [Hxy Hp].
  apply Ascii.eqb_eq in Hxy. subst y. f_equal. now apply IH.
Qed.

Lemma startsWith_length (p s : string) :
  startsWith p s = true -> String.length p <= String.length s.
Proof.
  revert s; induction p as [|x p IH]; intros [|y s]; simpl; try easy; try lia.
  intros H. apply andb_true_iff in H as [_ Hp]. apply IH in Hp. lia.
Qed.

Lemma startsWith_extend (p s t : string) :
  startsWith p s = true -> startsWith p (s +:+ t) = true.
Proof.
  revert s; induction p as [|x p IH]; intros [|y s]; simpl; try easy.
  intros H. apply andb_true_iff in H as [-> Hp]. simpl. now apply IH.
Qed.

Lemma startsWith_extend_false (p s t : string) :
  startsWith p s = false -> String.length p <= String.length s ->
  startsWith p (s +:+ t) = false.
Proof.
  revert s; induction p as [|x p IH]; intros [|y s]; simpl; try easy; try lia.
  intros H Hlen. apply andb_false_iff in H as [->|Hp]; [reflexivity|].
  rewrite IH; [apply andb_false_r | assumption | lia].
Qed.

Lemma indexOf_bound (p s : string) (i : nat) :
  indexOf p s = Some i -> i + String.length p <= String.length s.
Proof.
  revert i; induction s as [|y s IH]; intros i; simpl.
  - destruct (startsWith p "") eqn:E; [|discriminate].
    intros [= <-]. apply startsWith_length in E. simpl in *. lia.
  - destruct (startsWith p (String y s)) eqn:E.
    + intros [= <-]. apply startsWith_length in E. simpl in *. lia.
    + destruct (indexOf p s) as [j|]; simpl; [|discriminate].
      intros [= <-]. specialize (IH j eq_refl). lia.
Qed.

Lemma indexOf_extend (p s t : string) (i : nat) :
  indexOf p s = Some i -> indexOf p (s +:+ t) = Some i.
Proof.
  revert i; induction s as [|y s IH]; intros i; simpl.
  - destruct (startsWith p "") eqn:E; [|discriminate].
    intros [= <-]. destruct p; [|discriminate].
    destruct t; reflexivity.
  - destruct (startsWith p (String y s)) eqn:E.
    + intros [= <-]. change (String y (s +:+ t)) with (String y s +:+ t).
      now rewrite (startsWith_extend _ _ t E).
    + destruct (indexOf p s) as [j|] eqn:Ej; simpl; [|discriminate].
      intros [= <-].
      change (String y (s +:+ t)) with (String y s +:+ t).
      rewrite startsWith_extend_false; [| assumption |].
      * change (String y s +:+ t) with (String y (s +:+ t)).
        now rewrite (IH j eq_refl).
      * apply indexOf_bound in Ej. simpl. lia.
Qed.

Lemma indexOf_at (p s : string) (i : nat) :
  indexOf p s = Some i -> startsWith p (slice_from i s) = true.
Proof.
  revert i; induction s as [|y s IH]; intros i; simpl.
  - destruct (startsWith p "") eqn:E; [|discriminate].
    intros [= <-]. exact E.
  - destruct (startsWith p (String y s)) eqn:E.
    + intros [= <-]. exact E.
    + destruct (indexOf p s) as [j|]; simpl; [|discriminate].
      intros [= <-]. simpl. now apply IH.
Qed.

Lemma slice_to_from (n : nat) (s : string) :
  s = slice_to n s +:+ slice_from n s.
Proof.
  revert s; induction n as [|n IH]; intros [|y s]; simpl; try reflexivity.
  f_equal. apply IH.
Qed.

Lemma length_slice_to (n : nat) (s : string) :
  n <= String.length s -> String.length (slice_to n s) = n.
Proof.
  revert s; induction n as [|n IH]; intros [|y s]; simpl; try lia.
  intros H. rewrite IH; lia.
Qed.

Lemma length_slice_from (n : nat) (s : string) :
  String.length (slice_from n s) = String.length s - n.
Proof.
  revert s; induction n as [|n IH]; intros [|y s]; simpl; try lia. apply IH.
Qed.

Lemma slice_from_add (n m : nat) (s : string) :
  slice_from (n + m) s = slice_from m (slice_from n s).
Proof.
  revert s; induction n as [|n IH]; intros [|y s]; simpl; try reflexivity.
  - now destruct m.
  - apply IH.
Qed.

Lemma slice_to_append (n : nat) (s t : string) :
  n <= String.length s -> slice_to n (s +:+ t) = slice_to n s.
Proof.
  revert s; induction n as [|n IH]; intros [|y s]; simpl; try lia; try reflexivity.
  intros H. f_equal. apply IH. lia.
Qed.

Lemma slice_from_append (n : nat) (s t : string) :
  n <= String.length s -> slice_from n (s +:+ t) = slice_from n s +:+ t.
Proof.
  revert s; induction n as [|n IH]; intros [|y s]; simpl; try lia; try reflexivity.
  intros H. apply IH. lia.
Qed.

Lemma slice_from_length_append (s t : string) :
  slice_from (String.length s) (s +:+ t) = t.
Proof. induction s as [|y s IH]; simpl; [now destruct t | exact IH]. Qed.

Lemma slice_to_length_append (s t : string) :
  slice_to (String.length s) (s +:+ t) = s.
Proof. induction s as [|y s IH]; simpl; [now destruct t | now rewrite IH]. Qed.

Lemma slice_0 (n : nat) (s : string) : slice 0 n s = slice_to n s.
Proof. unfold slice. rewrite Nat.sub_0_r. reflexivity. Qed.

End JsStringFacts.

(** ** core/sse *)

Module SseFacts.
Import JsString JsStringFacts Sse.

(** *** Lines and fields *)

Lemma nolf_cons (x : ascii) (a : string) :
  has_char lf (String x a) = false -> Ascii.eqb x lf = false /\ has_char lf a = false.
Proof. simpl. intros H. now apply orb_false_iff in H. Qed.

Lemma split_on_single (a : string) :
  has_char lf a = false -> split_on lf a = [a].
Proof.
  induction a as [|x a IH]; [reflexivity|].
  intros H. apply nolf_cons in H as [Hx Ha]. simpl.
  rewrite Hx, (IH Ha). reflexivity.
Qed.

Lemma split_on_line (a t : string) :
  has_char lf a = false -> split_on lf (a +:+ LF +:+ t) = a :: split_on lf t.
Proof.
  induction a as [|x a IH]; intros H.
  - simpl. reflexivity.
  - apply nolf_cons in H as [Hx Ha]. simpl. rewrite Hx.
    simpl in IH. rewrite (IH Ha). reflexivity.
Qed.

Lemma separator_after_key (key r : string) :
  has_char ":" key = false ->
  indexOf ": " (key +:+ ": " +:+ r) = Some (String.length key).
Proof.
  induction key as [|x key IH]; intros H.
  - reflexivity.
  - simpl in H. apply orb_false_iff in H as [Hx Hk].
    simpl. rewrite Ascii.eqb_sym, Hx. simpl.
    simpl in IH. rewrite (IH Hk). reflexivity.
Qed.

(** The key test of [parse_line] is the test "the line starts with
    [key: ]". *)
Lemma field_value_indexOf (key line : string) :
  has_char ":" key = false ->
  field_value key line =
    match indexOf ": " line with
    | Some pos =>
        if String.eqb (slice 0 pos line) key
        then Some (slice_from (pos + 2) line) else None
    | None => None
    end.
Proof.
  intros Hkey. unfold field_value.
  destruct (startsWith (key +:+ ": ") line) eqn:E.
  - apply startsWith_split in E. rewrite append_assoc in E.
    generalize dependent (slice_from (String.length (key +:+ ": ")) line).
    intros r ->. rewrite (separator_after_key _ _ Hkey).
    now rewrite slice_0, slice_to_length_append, String.eqb_refl.
  - destruct (indexOf ": " line) as [pos|] eqn:Ei; [|reflexivity].
    destruct (String.eqb (slice 0 pos line) key) eqn:K; [|reflexivity].
    exfalso. apply String.eqb_eq in K. rewrite slice_0 in K.
    pose proof (indexOf_at _ _ _ Ei) as Hat.
    apply startsWith_split in Hat.
    pose proof (slice_to_from pos line) as Hline.
    rewrite K, Hat in Hline.
    rewrite Hline, <- append_assoc, startsWith_append in E. discriminate.
Qed.

Lemma parse_line_fields (acc : string * option string) (line : string) :
  parse_line acc line =
    match field_value "event" line with
    | Some v => (v, snd acc)
    | None =>
        match field_value "data" line with
        | Some v => (fst acc, Some v)
        | None => acc
        end
    end.
Proof.
  rewrite !field_value_indexOf by reflexivity. unfold parse_line.
  destruct (indexOf ": " line) as [pos|]; [|reflexivity].
  destruct (String.eqb (slice 0 pos line) "event"); [reflexivity|].
  destruct (String.eqb (slice 0 pos line) "data"); reflexivity.
Qed.

Lemma field_event_not_data (line ve vd : string) :
  field_value "event" line = Some ve -> field_value "data" line = Some vd -> False.
Proof.
  unfold field_value. destruct line as [|c line]; [discriminate|].
  cbn [String.append startsWith].
  destruct (Ascii.eqb "e" c) eqn:He; [|discriminate].
  destruct (Ascii.eqb "d" c) eqn:Hd; [|discriminate].
  apply Ascii.eqb_eq in He, Hd. congruence.
Qed.

Lemma parse_fold_fields (lines : list string) (acc : string * option string) :
  fold_left parse_line lines acc =
    (default (fst acc) (last (omap (field_value "event") lines)),
     match last (omap (field_value "data") lines) with
     | Some v => Some v
     | None => snd acc
     end).
Proof.
  revert acc; induction lines as [|line lines IH]; intros [e d].
  - reflexivity.
  - cbn [fold_left omap list_omap]. rewrite IH, parse_line_fields.
    destruct (field_value "event" line) as [ve|] eqn:Ee;
      destruct (field_value "data" line) as [vd|] eqn:Ed; cbn [fst snd];
      try (now destruct (field_event_not_data _ _ _ Ee Ed));
      rewrite ?last_cons;
      repeat match goal with |- context [last ?l] => destruct (last l) end;
      reflexivity.
Qed.

(** What the loop of [parseEvent] ends with: the value of the last event
    line (["message"] without one) and of the last data line. *)
Lemma parse_lines_fields (chunk : string) :
  parse_lines chunk =
    (default "message" (last (field_values "event" chunk)),
     last (field_values "data" chunk)).
Proof.
  unfold parse_lines, field_values. rewrite parse_fold_fields. cbn [fst snd].
  now destruct (last (omap (field_value "data") (split_on lf chunk))).
Qed.

Lemma parse_line_ignored (acc : string * option string) (line : string) :
  has_separator line = false -> parse_line acc line = acc.
Proof.
  unfold has_separator, parse_line.
  destruct (indexOf ": " line); [discriminate | reflexivity].
Qed.

Lemma parse_fold_ignored (lines : list string) (acc : string * option string) :
  fold_left parse_line lines acc =
  fold_left parse_line (List.filter has_separator lines) acc.
Proof.
  revert acc; induction lines as [|line lines IH]; intros acc; [reflexivity|].
  cbn [fold_left List.filter].
  destruct (has_separator line) eqn:E; cbn [fold_left].
  - apply IH.
  - rewrite (parse_line_ignored _ _ E). apply IH.
Qed.

Lemma parseEvent_frame_chunk (kind json : string) :
  single_line kind = true -> single_line json = true ->
  parseEvent (frame_chunk kind json) = Some (mkStreamEvent kind (Some json)).
Proof.
  unfold single_line. intros Hk Hj.
  apply negb_true_iff in Hk, Hj.
  unfold parseEvent, parse_lines, frame_chunk.
  rewrite <- append_assoc.
  rewrite split_on_line by (simpl; exact Hk).
  rewrite split_on_single by (simpl; exact Hj).
  cbn [fold_left]. rewrite !parse_line_fields.
  unfold field_value. simpl.
  now rewrite andb_false_r.
Qed.

Lemma parseEvent_data_only (json : string) :
  single_line json = true ->
  parseEvent ("data: " +:+ json) = Some (mkStreamEvent "message" (Some json)).
Proof.
  unfold single_line. intros Hj. apply negb_true_iff in Hj.
  unfold parseEvent, parse_lines.
  rewrite split_on_single by (simpl; exact Hj).
  cbn [fold_left]. rewrite parse_line_fields. reflexivity.
Qed.

(** *** The buffer loop *)

Lemma indexOf_blank_nil : indexOf (LF +:+ LF) "" = None.
Proof. reflexivity. Qed.

Lemma drain_fuel (f g : nat) (b : string) :
  String.length b <= f -> String.length b <= g -> drain f b = drain g b.
Proof.
  revert g b; induction f as [|f IH]; intros [|g] b Hf Hg; try reflexivity.
  - destruct b; [reflexivity | simpl in Hf; lia].
  - destruct b; [reflexivity | simpl in Hg; lia].
  - cbn [drain]. destruct (indexOf (LF +:+ LF) b) as [i|] eqn:Ei; [|reflexivity].
    apply indexOf_bound in Ei. cbn [String.length String.append LF] in Ei.
    rewrite (IH g); [reflexivity | |]; rewrite length_slice_from; lia.
Qed.

(** One round of the inner loop. *)
Lemma drain_buffer_step (b : string) :
  drain_buffer b =
    match indexOf (LF +:+ LF) b with
    | None => ([], b)
    | Some index =>
        let '(evs, rest) := drain_buffer (slice_from (index + 2) b) in
        match parseEvent (slice 0 index b) with
        | Some ev => (ev :: evs, rest)
        | None => (evs, rest)
        end
    end.
Proof.
  unfold drain_buffer. destruct (indexOf (LF +:+ LF) b) as [i|] eqn:Ei.
  - pose proof (indexOf_bound _ _ _ Ei) as Hb.
    cbn [String.length String.append LF] in Hb.
    destruct (String.length b) as [|n] eqn:Hn; [lia|].
    cbn [drain]. rewrite Ei.
    rewrite (drain_fuel n (String.length (slice_from (i + 2) b)));
      [reflexivity | | lia].
    rewrite length_slice_from. lia.
  - destruct (String.length b); cbn [drain]; [reflexivity | now rewrite Ei].
Qed.

(** Text that arrives later does not change the chunks already cut. *)
Lemma drain_buffer_append (b v : string) :
  drain_buffer (b +:+ v) =
    let '(evs, rest) := drain_buffer b in
    let '(evs', rest') := drain_buffer (rest +:+ v) in
    (evs ++ evs', rest').
Proof.
  remember (String.length b) as n eqn:Hn.
  revert b Hn; induction n as [n IH] using lt_wf_ind; intros b Hn.
  rewrite (drain_buffer_step b).
  destruct (indexOf (LF +:+ LF) b) as [i|] eqn:Ei.
  - pose proof (indexOf_bound _ _ _ Ei) as Hb.
    cbn [String.length String.append LF] in Hb.
    rewrite (drain_buffer_step (b +:+ v)), (indexOf_extend _ _ v _ Ei).
    rewrite slice_from_append by lia.
    rewrite !slice_0, slice_to_append by lia.
    rewrite (IH (String.length (slice_from (i + 2) b)));
      [| rewrite length_slice_from; lia | reflexivity].
    destruct (drain_buffer (slice_from (i + 2) b)) as [evs rest].
    destruct (parseEvent (slice_to i b)); cbn iota;
      now destruct (drain_buffer (rest +:+ v)) as [evs' rest'].
  - now destruct (drain_buffer (b +:+ v)).
Qed.

Lemma drain_buffer_rest (b : string) :
  indexOf (LF +:+ LF) (snd (drain_buffer b)) = None.
Proof.
  remember (String.length b) as n eqn:Hn.
  revert b Hn; induction n as [n IH] using lt_wf_ind; intros b Hn.
  rewrite drain_buffer_step.
  destruct (indexOf (LF +:+ LF) b) as [i|] eqn:Ei; [|exact Ei].
  pose proof (indexOf_bound _ _ _ Ei) as Hb.
  cbn [String.length String.append LF] in Hb.
  specialize (IH (String.length (slice_from (i + 2) b))).
  rewrite length_slice_from in IH.
  specialize (IH ltac:(lia) (slice_from (i + 2) b)).
  rewrite length_slice_from in IH. specialize (IH eq_refl).
  destruct (drain_buffer (slice_from (i + 2) b)) as [evs rest].
  now destruct (parseEvent (slice 0 i b)).
Qed.

(** The events yielded depend on the text received, not on how the
    transport cut it into reads. *)
Lemma read_loop_received (reads : list string) (b : string) :
  indexOf (LF +:+ LF) b = None ->
  read_loop b reads = fst (drain_buffer (b +:+ received reads)).
Proof.
  revert b; induction reads as [|v reads IH]; intros b Hb.
  - cbn [read_loop received fold_right]. rewrite append_nil_r.
    now rewrite drain_buffer_step, Hb.
  - cbn [read_loop received fold_right]. fold (received reads).
    rewrite <- append_assoc, (drain_buffer_append (b +:+ v) (received reads)).
    pose proof (drain_buffer_rest (b +:+ v)) as Hrest.
    destruct (drain_buffer (b +:+ v)) as [evs rest].
    rewrite (IH rest Hrest).
    now destruct (drain_buffer (rest +:+ received reads)).
Qed.

(** *** Frames of the wire format *)

Lemma indexOf_blank_skip (a t : string) :
  has_char lf a = false ->
  indexOf (LF +:+ LF) (a +:+ t) =
  option_map (Nat.add (String.length a)) (indexOf (LF +:+ LF) t).
Proof.
  induction a as [|x a IH]; intros H.
  - cbn. now destruct (indexOf _ t).
  - apply nolf_cons in H as [Hx Ha].
    cbn [String.append indexOf LF startsWith].
    fold LF. rewrite Ascii.eqb_sym, Hx. cbn [andb].
    cbn [String.append LF] in IH. rewrite (IH Ha).
    now destruct (indexOf _ t).
Qed.

Lemma indexOf_blank_frame (kind json rest : string) :
  single_line kind = true -> single_line json = true ->
  indexOf (LF +:+ LF) (frame kind json +:+ rest) =
  Some (String.length (frame_chunk kind json)).
Proof.
  unfold single_line. intros Hk Hj. apply negb_true_iff in Hk, Hj.
  unfold frame, frame_chunk.
  replace ((("event: " +:+ kind +:+ LF +:+ "data: " +:+ json) +:+ LF +:+ LF) +:+ rest)
    with (("event: " +:+ kind) +:+ LF +:+ ("data: " +:+ json) +:+ (LF +:+ LF) +:+ rest)
    by (rewrite !append_assoc; reflexivity).
  rewrite indexOf_blank_skip by (simpl; exact Hk).
  replace (indexOf (LF +:+ LF) (LF +:+ ("data: " +:+ json) +:+ (LF +:+ LF) +:+ rest))
    with (option_map S (indexOf (LF +:+ LF) (("data: " +:+ json) +:+ (LF +:+ LF) +:+ rest)))
    by reflexivity.
  rewrite indexOf_blank_skip by (simpl; exact Hj).
  replace (indexOf (LF +:+ LF) ((LF +:+ LF) +:+ rest)) with (Some 0) by reflexivity.
  cbn [option_map]. f_equal.
  replace ("event: " +:+ kind +:+ LF +:+ "data: " +:+ json)
    with (("event: " +:+ kind) +:+ LF +:+ ("data: " +:+ json))
    by (rewrite !append_assoc; reflexivity).
  rewrite !length_append. cbn [String.length LF]. lia.
Qed.

Lemma drain_buffer_frame (kind json rest : string) :
  single_line kind = true -> single_line json = true ->
  drain_buffer (frame kind json +:+ rest) =
    let '(evs, rest') := drain_buffer rest in
    (mkStreamEvent kind (Some json) :: evs, rest').
Proof.
  intros Hk Hj. rewrite drain_buffer_step, (indexOf_blank_frame _ _ _ Hk Hj).
  unfold frame. rewrite !append_assoc.
  rewrite slice_0, slice_to_length_append, slice_from_add, slice_from_length_append.
  change (slice_from 2 (LF +:+ LF +:+ rest)) with rest.
  now rewrite (parseEvent_frame_chunk _ _ Hk Hj).
Qed.

Lemma drain_buffer_wire (frames : list (string * string)) :
  forallb well_formed frames = true ->
  drain_buffer (wire frames) = (map event_of frames, "").
Proof.
  induction frames as [|[k j] frames IH]; intros H.
  - reflexivity.
  - cbn [forallb] in H. apply andb_true_iff in H as [Hf Hfs].
    apply andb_true_iff in Hf as [Hk Hj]. cbn [fst snd] in Hk, Hj.
    cbn [wire fold_right fst snd]. fold (wire frames).
    rewrite (drain_buffer_frame _ _ _ Hk Hj), (IH Hfs). reflexivity.
Qed.

(** *** The wire format is read back frame by frame *)

(** C4. When the text received is a sequence of frames
    [event: <kind>\ndata: <json>\n\n] (kind and JSON text each on one
    line), then however the transport cut that text into reads,
    [fetchStream] yields exactly one event per frame, in the order of the
    frames, and [parseEvent] maps the chunk of each frame to the event
    whose [event] is the kind and whose [data] is the JSON text. *)
Theorem fetchStream_wire_frames
    (response : Response) (frames : list (string * string)) (reads : list string) :
  status response = 200 ->
  body response = Some reads ->
  forallb well_formed frames = true ->
  received reads = wire frames ->
  fetchStream response = Yields (map event_of frames)
  /\ map (fun f => parseEvent (frame_chunk (fst f) (snd f))) frames
     = map (fun f => Some (mkStreamEvent (fst f) (Some (snd f)))) frames.
Proof.
  intros Hst Hbody Hwf Hrx. split.
  - unfold fetchStream. rewrite Hst, Hbody. cbn [Nat.eqb negb].
    rewrite read_loop_received by reflexivity.
    cbn [String.append]. now rewrite Hrx, drain_buffer_wire.
  - apply map_ext_in. intros [k j] Hin. cbn [fst snd].
    rewrite forallb_forall in Hwf. specialize (Hwf _ Hin).
    apply andb_true_iff in Hwf as [Hk Hj].
    now apply parseEvent_frame_chunk.
Qed.

(** Two frames, cut by the transport in the middle of a line and in the
    middle of a blank line. *)
Lemma fetchStream_wire_frames_witness :
  forallb well_formed [("message_chunk", "{}"); ("replay_end", "{}")] = true
  /\ received ["event: message_chu"; "nk" +:+ LF +:+ "data: {}" +:+ LF;
               LF +:+ "event: replay_end" +:+ LF +:+ "data: {}" +:+ LF +:+ LF]
     = wire [("message_chunk", "{}"); ("replay_end", "{}")]
  /\ fetchStream
       (mkResponse 200 "OK"
          (Some ["event: message_chu"; "nk" +:+ LF +:+ "data: {}" +:+ LF;
                 LF +:+ "event: replay_end" +:+ LF +:+ "data: {}" +:+ LF +:+ LF]))
     = Yields [mkStreamEvent "message_chunk" (Some "{}");
               mkStreamEvent "replay_end" (Some "{}")].
Proof.
  split; [reflexivity|]. split; [reflexivity|].
  apply (fetchStream_wire_frames
           (mkResponse 200 "OK"
              (Some ["event: message_chu"; "nk" +:+ LF +:+ "data: {}" +:+ LF;
                     LF +:+ "event: replay_end" +:+ LF +:+ "data: {}" +:+ LF +:+ LF]))
           [("message_chunk", "{}"); ("replay_end", "{}")]
           ["event: message_chu"; "nk" +:+ LF +:+ "data: {}" +:+ LF;
            LF +:+ "event: replay_end" +:+ LF +:+ "data: {}" +:+ LF +:+ LF]);
    reflexivity.
Defined.

(** *** When [parseEvent] returns nothing *)

(** C9, as stated, fails on a chunk whose only line names the event
    ["message"]: an event line is present and there is no data line, yet
    [parseEvent] returns [undefined]. *)
Lemma parseEvent_explicit_message :
  has_field "event" "event: message" = true
  /\ has_field "data" "event: message" = false
  /\ parseEvent "event: message" = None.
Proof. repeat split. Qed.

(** C9, amended.  [parseEvent] returns [undefined] exactly when the event
    name it ends with is ["message"] (there is no event line, or the last
    event line names ["message"]) and the chunk has no data line.  Lines
    without the separator [": "] are ignored: the loop over all lines ends
    as the loop over the lines that have one.  A chunk that is a single
    data line is returned with the event kind ["message"]. *)
Theorem parseEvent_undefined_iff (chunk json : string) :
  single_line json = true ->
  (parseEvent chunk = None <->
     (has_field "event" chunk = false
      \/ last (field_values "event" chunk) = Some "message")
     /\ has_field "data" chunk = false)
  /\ parse_lines chunk
     = fold_left parse_line (List.filter has_separator (split_on lf chunk))
         ("message", None)
  /\ parseEvent ("data: " +:+ json) = Some (mkStreamEvent "message" (Some json)).
Proof.
  intros Hj. split; [| split].
  - unfold parseEvent, has_field. rewrite parse_lines_fields.
    destruct (field_values "data" chunk) as [|d ds] eqn:Ed.
    + cbn [last head is_null negb].
      destruct (field_values "event" chunk) as [|e es] eqn:Ee.
      * cbn. split; [intros _ | reflexivity]. split; [now left | reflexivity].
      * cbn [head is_null negb].
        destruct (last (e :: es)) as [name|] eqn:El.
        -- cbn [default]. change (id name) with name. rewrite andb_true_r.
           destruct (String.eqb name "message") eqn:En.
           ++ apply String.eqb_eq in En. subst name.
              split; [intros _ | reflexivity]. split; [now right | reflexivity].
           ++ split; [discriminate|]. intros [[H|H] _]; [discriminate|].
              injection H as ->. now rewrite String.eqb_refl in En.
        -- now rewrite last_cons in El; destruct (last es).
    + cbn [head is_null negb].
      destruct (last (d :: ds)) as [v|] eqn:El.
      * rewrite andb_false_r. split; [discriminate | now intros [_ H]].
      * now rewrite last_cons in El; destruct (last ds).
  - unfold parse_lines. apply parse_fold_ignored.
  - now apply parseEvent_data_only.
Qed.

Lemma parseEvent_undefined_iff_witness :
  single_line "{}" = true
  /\ ((parseEvent "event: message" = None <->
        (has_field "event" "event: message" = false
         \/ last (field_values "event" "event: message") = Some "message")
        /\ has_field "data" "event: message" = false)
      /\ parse_lines "event: message"
         = fold_left parse_line
             (List.filter has_separator (split_on lf "event: message"))
             ("message", None)
      /\ parseEvent ("data: " +:+ "{}") = Some (mkStreamEvent "message" (Some "{}"))).
Proof.
  split; [reflexivity|].
  apply (parseEvent_undefined_iff "event: message" "{}"). reflexivity.
Defined.

End SseFacts.

(** ** core/api/types.ts *)

Module TypesFacts.
Import Types.

Section Events.
Context {unknown Option : Type}.
Abbreviation ChatEvent := (ChatEvent unknown Option).

Lemma generic_keys_common (d : GenericData) (more : list string) :
  In "id" (generic_keys d ++ more) /\ In "thread_id" (generic_keys d ++ more)
  /\ In "agent" (generic_keys d ++ more) /\ In "role" (generic_keys d ++ more).
Proof. unfold generic_keys. cbn. tauto. Qed.

(** Whatever its kind, the [data] object of a [ChatEvent] is declared
    with the four properties [id], [thread_id], [agent] and [role]. *)
Lemma data_keys_common (e : ChatEvent) :
  In "id" (data_keys e) /\ In "thread_id" (data_keys e)
  /\ In "agent" (data_keys e) /\ In "role" (data_keys e).
Proof. destruct e; cbn [data_keys]; apply generic_keys_common. Qed.

Lemma type_not_research_start (e : ChatEvent) :
  String.eqb (type e) "research_start" = false.
Proof. now destruct e. Qed.

(** C2, amended.  The wire vocabulary has exactly the nine kinds; every
    [ChatEvent] has one of them; and each of the nine other than
    [research_start] is the kind of some [ChatEvent], while
    [research_start] is the kind of none. *)
Theorem ChatEvent_kinds (e : ChatEvent) (kind : string) :
  In kind canonical_event_kinds ->
  kind <> "research_start" ->
  canonical_event_kinds =
    ["message_chunk"; "tool_calls"; "tool_call_chunks"; "tool_call_result";
     "interrupt"; "research_start"; "research_end"; "error"; "replay_end"]
  /\ In (type e) canonical_event_kinds
  /\ (exists e' : ChatEvent, type e' = kind)
  /\ type e <> "research_start".
Proof.
  intros Hin Hne. split; [reflexivity|]. split; [|split].
  - destruct e; cbn; tauto.
  - cbn in Hin.
    repeat match type of Hin with _ \/ _ => destruct Hin as [<-|Hin] end;
      try contradiction;
      first [ now exists (MessageChunkEvent some_data None None)
            | now exists (ToolCallsEvent some_data [] [])
            | now exists (ToolCallChunksEvent some_data [])
            | now exists (ToolCallResultEvent some_data "" None)
            | now exists (InterruptEvent some_data [])
            | now exists (ReplayEndEvent some_data None)
            | now exists (ErrorEvent some_data "")
            | now exists (ResearchEndEvent some_data "") ].
  - now destruct e.
Qed.

End Events.

Lemma ChatEvent_kinds_witness :
  In "error" canonical_event_kinds /\ "error" <> "research_start"
  /\ (exists e' : ChatEvent unit unit, type e' = "error").
Proof.
  split; [cbn; tauto|]. split; [discriminate|].
  apply (ChatEvent_kinds (ErrorEvent some_data "boom") "error");
    [cbn; tauto | discriminate].
Defined.

(** C2, as stated, fails at the kind [research_start]: it belongs to the
    wire vocabulary and no member of the [ChatEvent] union carries it. *)
Lemma research_start_not_a_ChatEvent :
  In "research_start" canonical_event_kinds
  /\ inhabitant (unknown := unit) (Option := unit) "research_start" = None
  /\ (forall e : ChatEvent unit unit, String.eqb (type e) "research_start" = false).
Proof. split; [cbn; tauto | split; [reflexivity | apply type_not_research_start]]. Qed.

End TypesFacts.

(** ** core/store *)

Module StoreFacts.
Import Store.

Lemma findIndex_Some {A : Type} (p : A -> bool) (l : list A) (i : nat) :
  findIndex p l = Some i -> exists x, l !! i = Some x /\ p x = true.
Proof.
  revert i; induction l as [|y l IH]; intros i; cbn [findIndex]; [discriminate|].
  destruct (p y) eqn:Hp.
  - intros [= <-]. now exists y.
  - destruct (findIndex p l) as [j|]; [|discriminate].
    intros [= <-]. apply (IH j eq_refl).
Qed.

Lemma findIndex_None {A : Type} (p : A -> bool) (l : list A) :
  findIndex p l = None -> Forall (fun x => p x = false) l.
Proof.
  induction l as [|y l IH]; cbn [findIndex]; [constructor|].
  destruct (p y) eqn:Hp; [discriminate|].
  destruct (findIndex p l); [discriminate|].
  intros _. constructor; [exact Hp | now apply IH].
Qed.

Section History.
Context {MessageRest : Type}.
Abbreviation ChatHistory := (ChatHistory MessageRest).
Abbreviation Message := (Message MessageRest).

Lemma threadId_chatHistory (now t : string) (ms : list Message) :
  threadId (chatHistory now t ms) = t.
Proof. reflexivity. Qed.

Lemma replace_keeps_threads (l : list ChatHistory) (i : nat) (h : ChatHistory) :
  findIndex (has_thread (threadId h)) l = Some i ->
  map threadId (<[i := h]> l) = map threadId l.
Proof.
  intros Hi. apply findIndex_Some in Hi as (x & Hx & Heq).
  apply String.eqb_eq in Heq.
  change (map threadId (<[i := h]> l)) with (threadId <$> <[i := h]> l).
  rewrite list_fmap_insert. apply list_insert_id.
  rewrite list_lookup_fmap, Hx. cbn. now rewrite Heq.
Qed.

Lemma unseen_thread (l : list ChatHistory) (t : string) :
  findIndex (has_thread t) l = None -> ~ In t (map threadId l).
Proof.
  intros Hn Hin. apply findIndex_None in Hn.
  apply in_map_iff in Hin as (h & <- & Hh).
  rewrite Forall_forall in Hn. apply list_elem_of_In in Hh.
  specialize (Hn h Hh). unfold has_thread in Hn.
  now rewrite String.eqb_refl in Hn.
Qed.

Lemma bounded_unique_take (l : list ChatHistory) :
  NoDup (map threadId l) -> bounded_unique (take 50 l).
Proof.
  intros Hnd. split.
  - rewrite length_take. lia.
  - change (map threadId (take 50 l)) with (threadId <$> take 50 l).
    rewrite fmap_take. eapply sublist_NoDup; [exact Hnd | apply sublist_take].
Qed.

(** One call keeps the invariant, whatever [isClient] is and whether the
    write returns or not. *)
Lemma saveChatHistory_keeps (isClient written : bool) (now t : string)
    (ms : list Message) (st : Storage MessageRest) :
  bounded_unique (getChatHistories true st) ->
  bounded_unique
    (getChatHistories true (saveChatHistory isClient written now t ms st)).
Proof.
  intros Hinv. unfold saveChatHistory.
  destruct (Nat.eqb (length ms) 0 || negb isClient) eqn:E; [exact Hinv|].
  destruct written; [|exact Hinv].
  apply orb_false_iff in E as [_ Hc]. apply negb_false_iff in Hc. subst isClient.
  cbn [getChatHistories negb] in *. apply bounded_unique_take.
  destruct Hinv as [_ Hnd].
  set (l := match st with Some stored => stored | None => [] end) in *.
  destruct (findIndex (has_thread t) l) as [i|] eqn:Ei.
  - now rewrite replace_keeps_threads.
  - cbn [map]. apply NoDup_cons. split; [|exact Hnd].
    rewrite list_elem_of_In. now apply unseen_thread.
Qed.

Lemma run_keeps (isClient : bool) (calls : list (Call MessageRest))
    (st : Storage MessageRest) :
  bounded_unique (getChatHistories true st) ->
  bounded_unique (getChatHistories true (run isClient calls st)).
Proof.
  revert st; induction calls as [|c calls IH]; intros st Hinv; [exact Hinv|].
  cbn [run fold_left]. apply IH. now apply saveChatHistory_keeps.
Qed.

Lemma saveChatHistory_not_client (written : bool) (now t : string)
    (ms : list Message) (st : Storage MessageRest) :
  saveChatHistory false written now t ms st = st.
Proof. unfold saveChatHistory. now rewrite orb_true_r. Qed.

(** C10, amended.  Take the storage after any sequence of earlier calls,
    starting with nothing stored.  After a call, the stored list has at most 50
    entries and at most one entry for a thread id.  A call with an empty
    message list leaves the storage as it is.  A call with a non-empty
    message list, in the browser and when the write to localStorage
    returns, replaces the entry of the thread where it is, nothing else
    changed, or, if the thread has none, puts the new entry first,
    followed by the entries that were there (the first 49 of them); outside
    the browser, and when the write throws, it leaves the storage as it
    is. *)
Theorem saveChatHistory_bounded_unique
    (isClient written : bool) (calls : list (Call MessageRest))
    (now t : string) (ms : list Message) :
  let st := run isClient calls None in
  let old := getChatHistories true st in
  let st' := saveChatHistory isClient written now t ms st in
  let new := getChatHistories true st' in
  length new <= 50
  /\ NoDup (map threadId new)
  /\ match ms with
     | [] => st' = st
     | _ :: _ =>
         if isClient && written
         then match findIndex (has_thread t) old with
              | Some i => new = <[i := chatHistory now t ms]> old
              | None => new = chatHistory now t ms :: take 49 old
              end
         else st' = st
     end.
Proof.
  intros st old st' new.
  assert (Hold : bounded_unique old).
  { apply run_keeps. split; [cbn; lia | constructor]. }
  pose proof (saveChatHistory_keeps isClient written now t ms st Hold) as [Hlen Hnd].
  split; [exact Hlen|]. split; [exact Hnd|].
  destruct ms as [|m ms]; [reflexivity|].
  subst new st'. unfold saveChatHistory. cbn [length Nat.eqb orb].
  destruct isClient; cbn [negb andb]; [|reflexivity].
  destruct written; [|reflexivity].
  fold old. cbn [getChatHistories negb].
  destruct (findIndex (has_thread t) old) as [i|]; [|reflexivity].
  apply take_ge. rewrite length_insert. apply Hold.
Qed.

End History.

(** The title is cut after 50 code units, whatever the characters are,
    and a conversation without a user message gets the default title. *)
Lemma chatHistory_title :
  length (title (chatHistory "2025" "T"
                   [mkMessage "user" (Some (repeat 26410%N 60)) tt])) = 50
  /\ title (chatHistory "2025" "T" [mkMessage "assistant" (Some (text "hi")) tt])
     = untitled
  /\ lastMessage (chatHistory "2025" "T"
                    [mkMessage "assistant" (Some (text "hi")) tt])
     = text "hi".
Proof. repeat split. Qed.

(** C10, as stated, fails in the browser on a first conversation whose
    write throws: the call has a non-empty message list and the thread is
    not stored, and nothing is stored after it; the same call stores the
    conversation when its write returns. *)
Lemma saveChatHistory_write_throws :
  saveChatHistory true false "2025" "T"
    [mkMessage "user" (Some (text "hello")) tt] None = None
  /\ getChatHistories true
       (saveChatHistory true false "2025" "T"
          [mkMessage "user" (Some (text "hello")) tt] None) = []
  /\ getChatHistories true
       (saveChatHistory true true "2025" "T"
          [mkMessage "user" (Some (text "hello")) tt] None)
     = [chatHistory "2025" "T" [mkMessage "user" (Some (text "hello")) tt]].
Proof. repeat split. Qed.

End StoreFacts.

(** ** The event log *)

Module EventLogFacts.
Import EventLog.

Ltac to_arith :=
  unfold leb, ltb, eqb, next_id in *; cbn [ms seq] in *;
  repeat match goal with
         | H : _ && _ = true |- _ => apply andb_true_iff in H as [? ?]
         | H : _ || _ = true |- _ => apply orb_true_iff in H as [?|?]
         | H : N.ltb _ _ = true |- _ => apply N.ltb_lt in H
         | H : N.eqb _ _ = true |- _ => apply N.eqb_eq in H
         end.

Lemma ltb_intro (a b : StreamId) :
  (ms a < ms b \/ (ms a = ms b /\ seq a < seq b))%N -> ltb a b = true.
Proof.
  intros [H|[H1 H2]]; unfold ltb; apply orb_true_iff.
  - left. now apply N.ltb_lt.
  - right. apply andb_true_iff. split; [now apply N.eqb_eq | now apply N.ltb_lt].
Qed.

Lemma ltb_false_intro (a b : StreamId) :
  (ms b < ms a \/ (ms a = ms b /\ seq b <= seq a))%N -> ltb a b = false.
Proof.
  intros H. destruct (ltb a b) eqn:E; [|reflexivity]. to_arith; lia.
Qed.

Lemma next_id_greater (i : StreamId) : ltb i (next_id i) = true.
Proof. apply ltb_intro. right. cbn. lia. Qed.

Lemma next_id_least (i x : StreamId) :
  ltb i x = true -> leb (next_id i) x = true.
Proof.
  intros H. unfold leb. apply orb_true_iff.
  destruct (N.eq_dec (ms i) (ms x)) as [Hm|Hm].
  - destruct (N.eq_dec (seq i + 1)%N (seq x)) as [Hs|Hs].
    + right. unfold eqb, next_id. cbn. apply andb_true_iff.
      split; now apply N.eqb_eq.
    + left. apply ltb_intro. cbn. right. to_arith; lia.
  - left. apply ltb_intro. cbn. left. to_arith; lia.
Qed.

Lemma not_reached (i x : StreamId) :
  leb x i = true -> leb (next_id i) x = false.
Proof.
  intros H. destruct (leb (next_id i) x) eqn:E; [|reflexivity].
  exfalso. to_arith; cbn in *; lia.
Qed.

Lemma increasing_split (pre post : Stream) (e : Event) :
  increasing (pre ++ e :: post) = true ->
  Forall (fun x => leb (id x) (id e) = true) (pre ++ [e])
  /\ Forall (fun x => ltb (id e) (id x) = true) post.
Proof.
  induction pre as [|p pre IH]; cbn [app increasing]; intros H;
    apply andb_true_iff in H as [Hall Hinc].
  - split.
    + constructor; [|constructor]. unfold leb, eqb.
      rewrite !N.eqb_refl. apply orb_true_r.
    + apply Forall_forall. intros x Hx. rewrite forallb_forall in Hall.
      apply Hall. now apply list_elem_of_In.
  - destruct (IH Hinc) as [Hpre Hpost]. split; [|exact Hpost].
    constructor; [|exact Hpre].
    rewrite forallb_forall in Hall. unfold leb.
    rewrite (Hall e); [reflexivity|]. apply in_or_app. right. now left.
Qed.

Lemma filter_none {A : Type} (p : A -> bool) (l : list A) :
  Forall (fun x => p x = false) l -> List.filter p l = [].
Proof.
  induction 1 as [|x l Hx _ IH]; [reflexivity|]. cbn. now rewrite Hx.
Qed.

Lemma filter_agree {A : Type} (p q : A -> bool) (l : list A) :
  Forall (fun x => p x = q x) l -> List.filter p l = List.filter q l.
Proof.
  induction 1 as [|x l Hx _ IH]; [reflexivity|]. cbn. now rewrite Hx, IH.
Qed.

(** A read started at [next_id] of the last delivered event [e] returns
    the events after [e], all of them and nothing else. *)
Lemma tail_from_next (pre post : Stream) (e : Event) :
  increasing (pre ++ e :: post) = true ->
  tail (pre ++ e :: post) (next_id (id e)) = post.
Proof.
  intros H. apply increasing_split in H as [Hpre Hpost]. unfold tail.
  replace (pre ++ e :: post) with ((pre ++ [e]) ++ post)
    by (rewrite <- app_assoc; reflexivity).
  rewrite List.filter_app, (filter_none _ (pre ++ [e])).
  - cbn [app]. clear Hpre. induction Hpost as [|x post Hx _ IH]; [reflexivity|].
    cbn [List.filter]. now rewrite (next_id_least _ _ Hx), IH.
  - eapply Forall_impl; [exact Hpre|]. intros x Hx. now apply not_reached.
Qed.

Lemma filter_both {A : Type} (p q : A -> bool) (l : list A) :
  List.filter (fun x => p x && q x) l = List.filter q (List.filter p l).
Proof.
  induction l as [|x l IH]; [reflexivity|]. cbn [List.filter].
  destruct (p x); cbn [andb List.filter]; [|exact IH].
  destruct (q x); now rewrite IH.
Qed.

(** [range] is [tail], cut at [to_id] and at the limit. *)
Lemma range_of_tail (log : Stream) (from_id : StreamId) (to_id : option StreamId)
    (limit : nat) :
  range log from_id to_id limit
  = take limit
      (List.filter
         (fun x => match to_id with Some t => leb (id x) t | None => true end)
         (tail log from_id)).
Proof. unfold range, tail. now rewrite filter_both. Qed.

(** A read started at the id of the last delivered event returns that
    event again. *)
Lemma tail_from_last_redelivers (pre post : Stream) (e : Event) :
  In e (tail (pre ++ e :: post) (id e)).
Proof.
  unfold tail. apply List.filter_In. split.
  - apply in_or_app. right. now left.
  - unfold leb, eqb. rewrite !N.eqb_refl. apply orb_true_r.
Qed.

(** C1.  For the id [t-s], [next_id] is [t-(s+1)], strictly greater than
    [t-s] in stream order.  In a stream with increasing ids, a [tail] or
    [range] read that starts from [next_id] of the last delivered event [e]
    returns none of the events up to [e] and every event after [e], in
    order ([range] those up to its end offset, and as many as its limit
    allows): the event is never delivered again and no later event is
    skipped. *)
Theorem next_id_resume (pre post : Stream) (e : Event)
    (to_id : option StreamId) (limit : nat) :
  increasing (pre ++ e :: post) = true ->
  render (next_id (id e))
  = decimal (ms (id e)) +:+ "-" +:+ decimal (seq (id e) + 1)
  /\ ltb (id e) (next_id (id e)) = true
  /\ tail (pre ++ e :: post) (next_id (id e)) = post
  /\ range (pre ++ e :: post) (next_id (id e)) None limit = take limit post
  /\ range (pre ++ e :: post) (next_id (id e)) to_id limit
     = range post zero to_id limit.
Proof.
  intros H. split; [reflexivity|]. split; [apply next_id_greater|].
  split; [now apply tail_from_next|].
  rewrite !range_of_tail, tail_from_next by exact H. split.
  - f_equal. clear H. induction post as [|x post IH]; [reflexivity|].
    cbn [List.filter]. now rewrite IH.
  - do 2 f_equal. unfold tail. symmetry. clear H.
    induction post as [|x post IH]; [reflexivity|].
    cbn [List.filter].
    assert (Hzero : leb zero (id x) = true).
    { unfold leb, ltb, eqb, zero. cbn [ms seq].
      destruct (ms (id x)) as [|m]; [|reflexivity].
      destruct (seq (id x)); reflexivity. }
    now rewrite Hzero, IH.
Qed.

Lemma next_id_resume_witness :
  increasing ([sample 4 7] ++ sample 5 0 :: [sample 5 1; sample 5 2; sample 6 0]) = true
  /\ render (next_id (id (sample 5 0))) = "5-1"
  /\ tail ([sample 4 7] ++ sample 5 0 :: [sample 5 1; sample 5 2; sample 6 0])
       (next_id (id (sample 5 0)))
     = [sample 5 1; sample 5 2; sample 6 0]
  /\ tail ([sample 4 7] ++ sample 5 0 :: [sample 5 1; sample 5 2; sample 6 0])
       (id (sample 5 0))
     = [sample 5 0; sample 5 1; sample 5 2; sample 6 0].
Proof.
  split; [reflexivity|].
  destruct (next_id_resume [sample 4 7] [sample 5 1; sample 5 2; sample 6 0]
              (sample 5 0) None 10 eq_refl) as (Hr & _ & Ht & _).
  split; [exact Hr|]. split; [exact Ht | reflexivity].
Defined.

End EventLogFacts.

(** ** The task lifecycle *)

Module TaskLifecycleFacts.
Import TaskLifecycle.

Lemma apply_terminal (t : TaskInfo) (op : Op) :
  terminal (status t) = true -> apply t op = t.
Proof. unfold apply. now destruct (status t), op. Qed.

Lemma run_terminal (t : TaskInfo) (ops : list Op) :
  terminal (status t) = true -> run t ops = t.
Proof.
  intros H. induction ops as [|op ops IH]; [reflexivity|].
  cbn [run fold_left]. rewrite (apply_terminal _ _ H). exact IH.
Qed.

Lemma run_app (t : TaskInfo) (ops later : list Op) :
  run t (ops ++ later) = run (run t ops) later.
Proof. apply fold_left_app. Qed.

Lemma apply_step (t : TaskInfo) (op : Op) :
  status (apply t op) = status t \/ edge (status t) (status (apply t op)) = true.
Proof.
  unfold apply. destruct (status t) eqn:E, op; cbn [status edge];
    first [now left | now right].
Qed.

Lemma observed_is_path (t : TaskInfo) (ops : list Op) :
  is_path (observed t ops) = true.
Proof.
  revert t; induction ops as [|op ops IH]; intros t; [reflexivity|].
  cbn [observed]. specialize (IH (apply t op)).
  destruct ops as [|op' ops]; cbn [observed is_path] in *;
    (apply andb_true_iff; split; [|exact IH]);
    destruct (apply_step t op) as [-> | H];
    first [ now destruct (status t)
          | rewrite H; now destruct (status t), (status (apply t op)) ].
Qed.

(** The timestamp of the end is there exactly in the terminal states. *)
Lemma completed_at_iff_terminal (task thread : string) (ops : list Op) :
  terminal (status (run (create_task task thread) ops))
  = negb (JsString.is_null (completed_at (run (create_task task thread) ops))).
Proof.
  generalize (eq_refl : terminal (status (create_task task thread))
                        = negb (JsString.is_null (completed_at (create_task task thread)))).
  generalize (create_task task thread) as t.
  induction ops as [|op ops IH]; intros t Ht; [exact Ht|].
  cbn [run fold_left]. apply IH. unfold apply.
  destruct (status t) eqn:E, op; cbn [status completed_at terminal JsString.is_null negb];
    first [reflexivity | exact Ht | rewrite E; exact Ht].
Qed.

(** C6. For a task, from its creation on and whatever operations [any]
    follow: the statuses observed form a path in the state graph (the
    first one is pending, and each change is an edge: pending to running
    or cancelled, running to completed, failed or cancelled).  And once
    the status is terminal (after [ops]), no later operation changes
    it. *)
Theorem status_path_and_frozen (task thread : string) (any ops later : list Op) :
  terminal (status (run (create_task task thread) ops)) = true ->
  head (observed (create_task task thread) any) = Some pending
  /\ is_path (observed (create_task task thread) any) = true
  /\ status (run (create_task task thread) (ops ++ later))
     = status (run (create_task task thread) ops).
Proof.
  intros Hterm. split; [now destruct any|].
  split; [apply observed_is_path|].
  now rewrite run_app, (run_terminal _ later Hterm).
Qed.

Lemma status_path_and_frozen_witness :
  terminal (status (run (create_task "X" "T") [Admit 1; Cancel 2])) = true
  /\ is_path (observed (create_task "X" "T") [Admit 1; Fail 2 "boom"; Cancel 3]) = true
  /\ observed (create_task "X" "T") [Admit 1; Fail 2 "boom"; Cancel 3]
     = [pending; running; failed; failed]
  /\ status (run (create_task "X" "T") ([Admit 1; Cancel 2] ++ [Complete 3; Admit 4]))
     = cancelled.
Proof.
  split; [reflexivity|].
  destruct (status_path_and_frozen "X" "T" [Admit 1; Fail 2 "boom"; Cancel 3]
              [Admit 1; Cancel 2] [Complete 3; Admit 4] eq_refl) as (_ & Hp & Hf).
  split; [exact Hp|]. split; [reflexivity|]. now rewrite Hf.
Defined.

End TaskLifecycleFacts.

(** ** core/api/chat *)

Module ChatApiFacts.
Import JsString Sse ChatApi.

Section Client.
Context {Json Resource McpSettings : Type}.
Variable host : Host Json.
Variable net : Net Resource McpSettings.
Variable chatReplayStream :
  string -> Params Resource McpSettings -> M Json Resource McpSettings unit.

Abbreviation World := (World Json Resource McpSettings).
Abbreviation Params := (Params Resource McpSettings).

Lemma world_eta (w : World) :
  {| trace := trace w; yielded := yielded w ++ [];
     fastForwardReplaying := fastForwardReplaying w |} = w.
Proof. destruct w. cbn. now rewrite app_nil_r. Qed.

(** *** The replay loop *)

(** The loop yields the events before the first terminal event one by
    one, as long as their data parse, and ends as the terminal event
    says. *)
Lemma consume_before_terminal (events : list StreamEvent) (w : World) :
  forallb (parses host) (before_terminal events) = true ->
  consume host events w =
    (ending (first_terminal events),
     {| trace := trace w;
        yielded := yielded w ++ yields_of host (before_terminal events);
        fastForwardReplaying := fastForwardReplaying w |}).
Proof.
  revert w; induction events as [|ev events IH]; intros w Hparse.
  - cbn. now rewrite world_eta.
  - cbn [consume before_terminal first_terminal]. unfold terminal_event in *.
    destruct (String.eqb (event ev) "replay_end") eqn:Eend; cbn [orb].
    + cbn [ending]. rewrite Eend. cbn. now rewrite world_eta.
    + destruct (String.eqb (event ev) "error") eqn:Eerr.
      * cbn [ending]. rewrite Eend. cbn. now rewrite world_eta.
      * cbn [before_terminal forallb] in Hparse.
        unfold terminal_event in Hparse. rewrite Eend, Eerr in Hparse.
        cbn [orb forallb] in Hparse.
        apply andb_true_iff in Hparse as [Hev Hrest].
        unfold parses in Hev.
        destruct (parse_data host (Sse.data ev)) as [d|] eqn:Ed; [|discriminate].
        unfold bind, lift, ret, yield. cbn [yields_of omap list_omap].
        rewrite (IH _ Hrest). cbn [trace yielded fastForwardReplaying].
        fold (yields_of host (before_terminal events)).
        rewrite Ed. cbn [option_map]. now rewrite <- app_assoc.
Qed.

Lemma yields_of_all (events : list StreamEvent) :
  forallb (parses host) events = true ->
  map type (yields_of host events) = map event events.
Proof.
  induction events as [|ev events IH]; [reflexivity|].
  cbn [forallb]. intros H. apply andb_true_iff in H as [Hev Hrest].
  unfold parses in Hev. cbn [yields_of omap list_omap].
  destruct (parse_data host (Sse.data ev)) as [d|]; [|discriminate].
  cbn. f_equal. now apply IH.
Qed.

(** C3, amended.  Take a sequence of events in which the data of every
    event before the first terminal event is valid JSON.  The loop
    yields all the events before the first terminal event, in order,
    each with its kind as [type]; it yields neither the terminal event
    nor anything after it; on [replay_end] (or at the end of the
    stream) it returns normally, and on [error] it throws an error
    carrying that event's data. *)
Theorem consume_until_terminal (events : list StreamEvent) (w : World) :
  forallb (parses host) (before_terminal events) = true ->
  fst (consume host events w) = ending (first_terminal events)
  /\ yielded (snd (consume host events w))
     = yielded w ++ yields_of host (before_terminal events)
  /\ map type (yields_of host (before_terminal events))
     = map event (before_terminal events)
  /\ trace (snd (consume host events w)) = trace w.
Proof.
  intros H. rewrite (consume_before_terminal _ _ H). cbn.
  repeat split. now apply yields_of_all.
Qed.

(** *** [checkThreadRunningTask] *)

(** C8. [checkThreadRunningTask] never throws.  When [fetch] rejects,
    when the response is not OK, and when its body is not JSON, it
    returns the object [{ has_running_task: false }]; otherwise it
    returns the parsed body as it is. *)
Theorem checkThreadRunningTask_returns (threadId : string) (w : World) :
  checkThreadRunningTask host net threadId w =
    (Return
       match respond net (length (trace w)) (running_task_request host threadId) with
       | None => Literal false
       | Some response =>
           if ok response
           then match json host response with
                | Some answer => ParsedBody answer
                | None => Literal false
                end
           else Literal false
       end,
     log (Fetched (running_task_request host threadId)) w).
Proof.
  unfold checkThreadRunningTask, try_catch, bind, fetch.
  destruct (respond net _ _) as [response|]; [|reflexivity].
  destruct (ok response); cbn [negb]; [|reflexivity].
  unfold lift. now destruct (json host response).
Qed.

(** *** [chatStream]: what is requested, and in which order *)

Lemma waiting_quick_check (params : Params) (task_id : string) :
  waiting host params task_id (Fetched (quick_check_request host params task_id))
  = true.
Proof. cbn. apply orb_true_r. Qed.

Lemma waiting_status (params : Params) (task_id : string) :
  waiting host params task_id (Fetched (status_request host task_id)) = true.
Proof. cbn. now rewrite String.eqb_refl. Qed.

(** A round of the first loop makes one request and yields nothing. *)
Lemma quick_check_world (params : Params) (task_id : string) (w : World) :
  exists b, quick_check host net params task_id w
            = (Return b, log (Fetched (quick_check_request host params task_id)) w).
Proof.
  unfold quick_check, try_catch, bind, fetch, ret.
  destruct (respond net _ _) as [r|]; [|now exists false].
  destruct (ok r); eauto.
Qed.

Lemma status_check_world (task_id : string) (w : World) :
  exists b, status_check host net task_id w
            = (Return b, log (Fetched (status_request host task_id)) w).
Proof.
  unfold status_check, try_catch, bind, fetch, ret, lift.
  destruct (respond net _ _) as [r|]; [|now exists false].
  destruct (ok r); [|eauto].
  destruct (json host r) as [j|]; cbn; [|eauto].
  destruct (task_status_of host j); cbn; eauto.
Qed.

Lemma only_waits_refl (params : Params) (task_id : string) (w : World) :
  only_waits host params task_id w w.
Proof. exists []. now rewrite app_nil_r. Qed.

Lemma only_waits_step (params : Params) (task_id : string) (e : Effect Resource McpSettings)
    (w w' : World) :
  waiting host params task_id e = true ->
  only_waits host params task_id (log e w) w' ->
  only_waits host params task_id w w'.
Proof.
  intros He (waits & Ht & Hw & Hy). exists (e :: waits).
  cbn [log trace yielded] in *. rewrite Ht, <- app_assoc. cbn [forallb].
  now rewrite He, Hw.
Qed.

Lemma quick_checks_wait (attempts : nat) (params : Params) (task_id : string)
    (w w' : World) (b : bool) :
  quick_checks host net attempts params task_id w = (Return b, w') ->
  only_waits host params task_id w w'.
Proof.
  revert w; induction attempts as [|n IH]; intros w; cbn [quick_checks].
  - intros [= _ <-]. apply only_waits_refl.
  - unfold bind at 1. unfold signal_aborted.
    destruct (aborted net _); [discriminate|].
    unfold bind at 1.
    destruct (quick_check_world params task_id w) as [started ->].
    destruct started.
    + intros [= _ <-].
      eapply only_waits_step; [apply waiting_quick_check | apply only_waits_refl].
    + unfold bind, sleep. intros H. apply IH in H.
      eapply only_waits_step; [apply waiting_quick_check|].
      now apply (only_waits_step _ _ (Slept 500)).
Qed.

Lemma status_checks_wait (attempts : nat) (params : Params) (task_id : string)
    (w w' : World) (b : bool) :
  status_checks host net attempts task_id w = (Return b, w') ->
  only_waits host params task_id w w'.
Proof.
  revert w; induction attempts as [|n IH]; intros w; cbn [status_checks].
  - intros [= _ <-]. apply only_waits_refl.
  - unfold bind at 1. unfold signal_aborted.
    destruct (aborted net _); [discriminate|].
    unfold bind at 1.
    destruct (status_check_world task_id w) as [started ->].
    destruct started.
    + intros [= _ <-].
      eapply only_waits_step; [apply waiting_status | apply only_waits_refl].
    + unfold bind, sleep. intros H. apply IH in H.
      eapply only_waits_step; [apply waiting_status|].
      now apply (only_waits_step _ _ (Slept 1000)).
Qed.

Lemma only_waits_trans (params : Params) (task_id : string) (w1 w2 w3 : World) :
  only_waits host params task_id w1 w2 ->
  only_waits host params task_id w2 w3 ->
  only_waits host params task_id w1 w3.
Proof.
  intros (a & Ha & Hwa & Hya) (b & Hb & Hwb & Hyb). exists (a ++ b).
  rewrite Hb, Ha, <- app_assoc, forallb_app, Hwa, Hwb, Hyb, Hya. now repeat split.
Qed.

Lemma consume_trace (events : list StreamEvent) (w w' : World) (o : Outcome unit) :
  consume host events w = (o, w') -> trace w' = trace w.
Proof.
  revert w; induction events as [|ev events IH]; intros w; cbn [consume].
  - now intros [= _ <-].
  - destruct (String.eqb (event ev) "replay_end"); [now intros [= _ <-]|].
    destruct (String.eqb (event ev) "error"); [now intros [= _ <-]|].
    unfold bind, lift, yield.
    destruct (parse_data host (Sse.data ev)); cbn; [|now intros [= _ <-]].
    intros H. now apply IH in H.
Qed.

(** The asynchronous path, when it returns: the task is created first,
    its id is read from the answer, and the replay stream is opened
    last. *)
Lemma chatStream_async_trace (userMessage : string) (params : Params)
    (w w' : World) :
  chatStream_async host net userMessage params w = (Return tt, w') ->
  exists asyncResponse answer task_id waits,
    respond net (length (trace w)) (async_request host userMessage params)
    = Some asyncResponse
    /\ ok asyncResponse = true
    /\ json host asyncResponse = Some answer
    /\ task_id_of host answer = Some task_id
    /\ forallb (waiting host params task_id) waits = true
    /\ trace w' = trace w
                  ++ [Fetched (async_request host userMessage params)]
                  ++ waits
                  ++ [Fetched (replay_request host params task_id)].
Proof.
  unfold chatStream_async. unfold bind at 1. unfold fetch at 1.
  destruct (respond net _ _) as [asyncResponse|] eqn:Er; [|discriminate].
  destruct (ok asyncResponse) eqn:Eok; cbn [negb]; [|discriminate].
  unfold bind at 1. unfold lift at 1.
  destruct (json host asyncResponse) as [answer|] eqn:Ej; [|discriminate].
  unfold ret at 1. unfold bind at 1. unfold lift at 1.
  destruct (task_id_of host answer) as [task_id|] eqn:Et; [|discriminate].
  unfold ret at 1. unfold bind at 1.
  set (w1 := log _ w).
  destruct (quick_checks host net 8 params task_id w1) as [[started|e] w2] eqn:Eq;
    [|discriminate].
  apply quick_checks_wait in Eq.
  unfold bind at 1.
  assert (Hwait : forall o w3,
             (if started then ret true else status_checks host net 10 task_id) w2
             = (o, w3) ->
             match o with
             | Return _ => only_waits host params task_id w1 w3
             | Throw _ => True
             end).
  { intros o w3. destruct started.
    - intros [= <- <-]. exact Eq.
    - destruct o; [|trivial]. intros H.
      apply (status_checks_wait _ params) in H.
      now apply (only_waits_trans _ _ _ _ _ Eq). }
  destruct ((if started then ret true else status_checks host net 10 task_id) w2)
    as [[started'|e] w3] eqn:Es; [|discriminate].
  specialize (Hwait _ _ eq_refl). cbn in Hwait.
  destruct Hwait as (waits & Htr & Hw & _).
  unfold bind at 1. unfold stream. unfold bind at 1. unfold fetch at 1.
  destruct (respond net _ (replay_request host params task_id)); [|discriminate].
  destruct (fetchStream r) as [evs| |]; [|discriminate|discriminate].
  unfold ret at 1. intros Hc. apply consume_trace in Hc.
  exists asyncResponse, answer, task_id, waits.
  repeat split; try assumption.
  rewrite Hc. cbn [log trace]. rewrite Htr. subst w1. cbn [log trace].
  now rewrite <- !app_assoc.
Qed.

(** C7, amended.  Take an invocation of [chatStream] on the live path
    (the site is not static and the page's query string has neither
    [mock] nor [replay=]) that returns.  The first thing the client does
    is [POST chat/async] with the task config (the user message and the
    parameters).  The task id is read from the answer to that request.
    Then the client only waits (pauses, probes of the replay with
    [continuous=false], reads of the task status), and last it opens
    [GET chat/replay] with [thread_id] the request's thread id,
    [query_id] the task id returned, [continuous] ["true"] and [offset]
    ["0"]. *)
Theorem chatStream_posts_then_replays (userMessage : string) (params : Params)
    (w w' : World) :
  static_website_only host = false ->
  includes "mock" (location_search host) = false ->
  includes "replay=" (location_search host) = false ->
  chatStream host net chatReplayStream userMessage params w = (Return tt, w') ->
  exists asyncResponse answer task_id waits,
    respond net (length (trace w)) (async_request host userMessage params)
    = Some asyncResponse
    /\ json host asyncResponse = Some answer
    /\ task_id_of host answer = Some task_id
    /\ forallb (waiting host params task_id) waits = true
    /\ trace w' =
         trace w
         ++ [Fetched
               {| method := POST;
                  url := resolveServiceURL host "chat/async";
                  searchParams := [];
                  headers := [("Content-Type", "application/json")];
                  request_body :=
                    request_body (async_request host userMessage params) |}]
         ++ waits
         ++ [Fetched
               {| method := GET;
                  url := resolveServiceURL host "chat/replay";
                  searchParams :=
                    [("thread_id", thread_id params); ("query_id", task_id);
                     ("continuous", "true"); ("offset", "0")];
                  headers := [("Cache-Control", "no-cache")];
                  request_body := None |}]
    /\ option_map cfg_thread_id (request_body (async_request host userMessage params))
       = Some (thread_id params)
    /\ option_map cfg_messages (request_body (async_request host userMessage params))
       = Some [("user", userMessage)].
Proof.
  intros Hstatic Hmock Hreplay. unfold chatStream.
  rewrite Hstatic, Hmock, Hreplay. cbn [orb]. intros H.
  apply chatStream_async_trace in H
    as (asyncResponse & answer & task_id & waits & Hr & _ & Hj & Ht & Hw & Htr).
  exists asyncResponse, answer, task_id, waits. repeat split; assumption.
Qed.

End Client.

(** *** Runs on a sample page and server *)

Import Samples.

(** C3, as stated, fails on a stream whose first event has data that is
    not JSON (here the empty text): that event comes before the first
    terminal event, a [replay_end]; the loop yields nothing and throws
    the [SyntaxError] of [JSON.parse] instead of returning. *)
Lemma consume_throws_on_bad_data :
  before_terminal stream_with_empty_data = [mkStreamEvent "message_chunk" (Some "")]
  /\ first_terminal stream_with_empty_data = Some (mkStreamEvent "replay_end" (Some "{}"))
  /\ consume (page "") stream_with_empty_data start = (Throw SyntaxError, start).
Proof. repeat split. Qed.

Lemma consume_until_terminal_witness :
  forallb (parses (page "")) (before_terminal stream_with_error) = true
  /\ fst (consume (page "") stream_with_error start) = Throw (ErrorEvent (Some "boom"))
  /\ yielded (snd (consume (page "") stream_with_error start))
     = [mkYielded "message_chunk" (Object1 "id" "m1");
        mkYielded "tool_calls" (Object1 "id" "c1")].
Proof.
  split; [reflexivity|].
  destruct (consume_until_terminal (page "") stream_with_error start eq_refl)
    as (Ho & Hy & _).
  split; [exact Ho | exact Hy].
Defined.

(** C7, as stated, fails on a page opened with [?replay=abc]: nothing is
    mocked (the site is not static and the query string has no [mock]),
    the invocation returns, and the client never posts to [chat/async]:
    its only request is [GET chat/replay] with the replay id as
    [thread_id], and without [query_id] and [continuous] (followed by the
    pause before the message it replays). *)
Lemma chatStream_replay_never_posts :
  static_website_only (page "?replay=abc") = false
  /\ includes "mock" (location_search (page "?replay=abc")) = false
  /\ fst (chatStream (page "?replay=abc") server no_file_replay "hi" params start)
     = Return tt
  /\ trace (snd (chatStream (page "?replay=abc") server no_file_replay "hi" params start))
     = [Fetched
          {| method := GET;
             url := "http://localhost:8000/api/chat/replay";
             searchParams := [("thread_id", "abc"); ("offset", "0")];
             headers := [("Cache-Control", "no-cache")];
             request_body := None |};
        Slept 50].
Proof. repeat split. Qed.

Lemma chatStream_posts_then_replays_witness :
  static_website_only (page "") = false
  /\ includes "mock" (location_search (page "")) = false
  /\ includes "replay=" (location_search (page "")) = false
  /\ chatStream (page "") server no_file_replay "hi" params start
     = (Return tt,
        snd (chatStream (page "") server no_file_replay "hi" params start))
  /\ exists task_id waits,
       task_id = "X"
       /\ trace (snd (chatStream (page "") server no_file_replay "hi" params start))
          = [] ++ [Fetched (async_request (page "") "hi" params)]
               ++ waits
               ++ [Fetched (replay_request (page "") params task_id)].
Proof.
  split; [reflexivity|]. split; [reflexivity|]. split; [reflexivity|].
  split; [reflexivity|].
  destruct (chatStream_posts_then_replays (page "") server no_file_replay "hi" params
              start _ eq_refl eq_refl eq_refl eq_refl)
    as (r & a & task_id & waits & Hr & Hj & Ht & _ & Htr & _).
  exists task_id, waits. split; [|exact Htr].
  cbv in Hr. injection Hr as <-.
  cbv in Hj. injection Hj as <-.
  cbv in Ht. now injection Ht as <-.
Defined.

End ChatApiFacts.

(** ** The common fields of an event: declared, not checked *)

Module CommonFieldsFacts.
Import JsString Sse ChatApi.

Section Client.
Context {Json Resource McpSettings unknown Option : Type}.
Variable host : Host Json.

(** C5, amended.  The type [ChatEvent] declares [id], [thread_id], [agent]
    and [role] as properties of the [data] object of each of its members,
    none of which has the kind [research_start].  The client does not
    check them: for an event that is not terminal, what the replay loop
    yields has the kind of the event, whatever it is, and for [data] the
    value [JSON.parse] gives for the payload, whatever properties it
    has. *)
Theorem common_fields_declared_not_checked
    (e : Types.ChatEvent unknown Option) (ev : StreamEvent) (d : Json)
    (w : World Json Resource McpSettings) :
  parse_data host (Sse.data ev) = Some d ->
  terminal_event ev = false ->
  (In "id" (Types.data_keys e) /\ In "thread_id" (Types.data_keys e)
   /\ In "agent" (Types.data_keys e) /\ In "role" (Types.data_keys e))
  /\ String.eqb (Types.type e) "research_start" = false
  /\ fst (consume host [ev] w) = Return tt
  /\ yielded (snd (consume host [ev] w))
     = yielded w ++ [{| type := event ev; data := d |}].
Proof.
  intros Hd Hterminal.
  split; [apply TypesFacts.data_keys_common|].
  split; [apply TypesFacts.type_not_research_start|].
  unfold terminal_event in Hterminal.
  apply orb_false_iff in Hterminal as [Hend Herror].
  cbn [consume]. rewrite Hend, Herror. unfold bind, lift. rewrite Hd.
  split; reflexivity.
Qed.

End Client.

Import Json Samples WireSamples.

Lemma common_fields_declared_not_checked_witness :
  parse_data (page "") (Some research_start_data)
  = Some (JObject [("agent", JString "researcher");
                   ("content", JString "开始量子计算调研...");
                   ("research_id", JString "query-uuid")])
  /\ terminal_event (mkStreamEvent "research_start" (Some research_start_data))
     = false
  /\ map (fun y => (type y, common_fields (data y)))
         (yielded
            (snd (consume (page "")
                    [mkStreamEvent "research_start" (Some research_start_data)]
                    start)))
     = [("research_start", ["agent"])].
Proof.
  split; [reflexivity|]. split; [reflexivity|].
  destruct (common_fields_declared_not_checked (page "")
              (Types.ErrorEvent (unknown := unit) (Option := unit)
                 Types.some_data "boom")
              (mkStreamEvent "research_start" (Some research_start_data))
              _ start eq_refl eq_refl) as (_ & _ & _ & Hy).
  rewrite Hy. reflexivity.
Defined.

(** C5, as stated, fails on the frames the notes show for a replay.  The
    stream reader delivers the five frames; the client yields the first
    four to its caller, a [research_start] among them; none of their
    payloads carries [id] or [thread_id], only the last of the four
    carries [role], and the payload of [replay_end] carries [thread_id]
    alone.  The payload the replay service adds at the end of a static
    replay carries none of the four. *)
Lemma notes_replay_lacks_common_fields :
  fetchStream (answer [wire notes_replay]) = Yields (map event_of notes_replay)
  /\ map (fun y => (type y, common_fields (data y)))
         (yielded
            (snd (chatStream (page "?replay=chat_20250115_001") notes_server
                    no_file_replay "" params start)))
     = [("research_start", ["agent"]);
        ("tool_calls  ", ["agent"]);
        ("tool_call_result", ["agent"]);
        ("message_chunk", ["agent"; "role"])]
  /\ option_map common_fields (parse replay_end_data) = Some ["thread_id"]
  /\ option_map common_fields (parse synthetic_replay_end) = Some [].
Proof. repeat split; vm_compute; reflexivity. Qed.

End CommonFieldsFacts.

(** ** core/sse: further properties of the stream reader *)

Module SseCoverage.
Import JsString JsStringFacts Sse SseFacts SseVocabulary.

(** *** How the text is cut into reads does not matter *)

Lemma received_single (text : string) : received [text] = text.
Proof. cbn. apply append_nil_r. Qed.

(** X1. The events [fetchStream] yields, or the error it throws, are those
    it would give had the whole body arrived in a single read: the cutting
    of the body into reads by the transport is not observable. *)
Theorem fetchStream_any_chunking (st : nat) (reason : string) (reads : list string) :
  fetchStream (mkResponse st reason (Some reads))
  = fetchStream (mkResponse st reason (Some [received reads])).
Proof.
  unfold fetchStream. cbn [status body].
  destruct (negb (Nat.eqb st 200)); [reflexivity|].
  rewrite !read_loop_received by reflexivity.
  now rewrite received_single.
Qed.

(** *** A frame that is not terminated is never delivered *)

Lemma drain_buffer_wire_partial (frames : list (string * string)) (partial : string) :
  forallb well_formed frames = true ->
  includes (LF +:+ LF) partial = false ->
  drain_buffer (wire frames +:+ partial) = (map event_of frames, partial).
Proof.
  intros Hwf Hpart. induction frames as [|[k j] frames IH].
  - cbn [wire fold_right map String.append]. rewrite drain_buffer_step.
    unfold includes in Hpart.
    now destruct (indexOf (LF +:+ LF) partial).
  - cbn [forallb] in Hwf. apply andb_true_iff in Hwf as [Hf Hfs].
    apply andb_true_iff in Hf as [Hk Hj]. cbn [fst snd] in Hk, Hj.
    cbn [wire fold_right fst snd]. fold (wire frames).
    rewrite append_assoc, (drain_buffer_frame _ _ _ Hk Hj), (IH Hfs).
    reflexivity.
Qed.

(** X2. When the body is a sequence of complete frames followed by text
    without a blank line (a frame cut short when the stream ended),
    [fetchStream] yields the events of the complete frames and nothing for
    the rest: what remains in the buffer at the end of the stream is
    dropped. *)
Theorem fetchStream_drops_unterminated
    (response : Response) (frames : list (string * string))
    (partial : string) (reads : list string) :
  status response = 200 ->
  body response = Some reads ->
  forallb well_formed frames = true ->
  includes (LF +:+ LF) partial = false ->
  received reads = wire frames +:+ partial ->
  fetchStream response = Yields (map event_of frames).
Proof.
  intros Hst Hbody Hwf Hpart Hrx. unfold fetchStream.
  rewrite Hst, Hbody. cbn [Nat.eqb negb].
  rewrite read_loop_received by reflexivity. cbn [String.append].
  now rewrite Hrx, drain_buffer_wire_partial.
Qed.

Lemma fetchStream_drops_unterminated_witness :
  forallb well_formed [("message_chunk", "{}")] = true
  /\ includes (LF +:+ LF) ("event: replay_end" +:+ LF +:+ "data: {}" +:+ LF) = false
  /\ fetchStream
       (mkResponse 200 "OK"
          (Some ["event: message_chunk" +:+ LF +:+ "data: {}" +:+ LF +:+ LF;
                 "event: replay_end" +:+ LF +:+ "data: {}" +:+ LF]))
     = Yields [mkStreamEvent "message_chunk" (Some "{}")].
Proof.
  split; [reflexivity|]. split; [reflexivity|].
  apply (fetchStream_drops_unterminated
           (mkResponse 200 "OK"
              (Some ["event: message_chunk" +:+ LF +:+ "data: {}" +:+ LF +:+ LF;
                     "event: replay_end" +:+ LF +:+ "data: {}" +:+ LF]))
           [("message_chunk", "{}")]
           ("event: replay_end" +:+ LF +:+ "data: {}" +:+ LF)
           ["event: message_chunk" +:+ LF +:+ "data: {}" +:+ LF +:+ LF;
            "event: replay_end" +:+ LF +:+ "data: {}" +:+ LF]);
    reflexivity.
Defined.

(** *** Repeated fields *)

(** X3. When a chunk has several [event: ] lines or several [data: ]
    lines, [parseEvent] takes the value of the last line of each kind: the
    values of data lines are not joined.  The event is named ["message"]
    when there is no event line. *)
Theorem parseEvent_last_field_wins (chunk : string) :
  parseEvent chunk =
    match last (field_values "data" chunk) with
    | Some d =>
        Some {| event := default "message" (last (field_values "event" chunk));
                data := Some d |}
    | None =>
        if String.eqb (default "message" (last (field_values "event" chunk))) "message"
        then None
        else Some {| event := default "message" (last (field_values "event" chunk));
                     data := None |}
    end.
Proof.
  unfold parseEvent. rewrite parse_lines_fields.
  destruct (last (field_values "data" chunk)); cbn [is_null].
  - now rewrite andb_false_r.
  - now rewrite andb_true_r.
Qed.

(** *** What is never yielded *)

(** An event that has a name of its own or some data. *)
Lemma parseEvent_not_empty (chunk : string) (ev : StreamEvent) :
  parseEvent chunk = Some ev ->
  String.eqb (event ev) "message" && is_null (data ev) = false.
Proof.
  unfold parseEvent. destruct (parse_lines chunk) as [e d].
  destruct (String.eqb e "message" && is_null d) eqn:E; [discriminate|].
  now intros [= <-].
Qed.

Lemma has_char_slice_from (c : ascii) (n : nat) (s : string) :
  has_char c s = false -> has_char c (slice_from n s) = false.
Proof.
  revert s; induction n as [|n IH]; intros [|a s]; cbn [slice_from has_char];
    try easy.
  intros H. apply orb_false_iff in H as [_ H]. now apply IH.
Qed.

Lemma split_on_pieces (c : ascii) (s : string) :
  Forall (fun piece => has_char c piece = false) (split_on c s).
Proof.
  induction s as [|a s IH]; cbn [split_on].
  - now repeat constructor.
  - destruct (Ascii.eqb a c) eqn:E.
    + constructor; [reflexivity | exact IH].
    + destruct (split_on c s) as [|piece pieces].
      * repeat constructor. cbn. now rewrite E.
      * inversion IH as [|? ? Hp Hps]; subst. constructor; [|exact Hps].
        cbn. now rewrite E, Hp.
Qed.

Lemma parse_line_one_line (acc : string * option string) (line : string) :
  has_char lf line = false -> one_line acc = true ->
  one_line (parse_line acc line) = true.
Proof.
  intros Hline Hacc. unfold parse_line.
  destruct (indexOf ": " line) as [pos|]; [|exact Hacc].
  unfold one_line in *. apply andb_true_iff in Hacc as [He Hd].
  pose proof (has_char_slice_from lf (pos + 2) line Hline) as Hv.
  destruct (String.eqb (slice 0 pos line) "event").
  - cbn [fst snd]. unfold single_line at 1. now rewrite Hv.
  - destruct (String.eqb (slice 0 pos line) "data").
    + cbn [fst snd]. unfold single_line at 2. now rewrite Hv, He.
    + now rewrite He, Hd.
Qed.

Lemma parse_fold_one_line (lines : list string) (acc : string * option string) :
  Forall (fun line => has_char lf line = false) lines ->
  one_line acc = true ->
  one_line (fold_left parse_line lines acc) = true.
Proof.
  intros Hlines; revert acc.
  induction Hlines as [|line lines Hl _ IH]; intros acc Hacc; [exact Hacc|].
  cbn [fold_left]. apply IH. now apply parse_line_one_line.
Qed.

Lemma parseEvent_deliverable (chunk : string) (ev : StreamEvent) :
  parseEvent chunk = Some ev -> deliverable ev = true.
Proof.
  intros H. unfold deliverable. rewrite (parseEvent_not_empty _ _ H). cbn [negb andb].
  unfold parseEvent in H.
  pose proof (parse_fold_one_line (split_on lf chunk) ("message", None)
                (split_on_pieces lf chunk) eq_refl) as Hone.
  fold (parse_lines chunk) in Hone.
  destruct (parse_lines chunk) as [e d].
  destruct (String.eqb e "message" && is_null d); [discriminate|].
  injection H as <-. exact Hone.
Qed.

Lemma drain_deliverable (fuel : nat) (buffer : string) :
  forallb deliverable (fst (drain fuel buffer)) = true.
Proof.
  revert buffer; induction fuel as [|fuel IH]; intros buffer; [reflexivity|].
  cbn [drain]. destruct (indexOf (LF +:+ LF) buffer) as [i|]; [|reflexivity].
  specialize (IH (slice_from (i + 2) buffer)).
  destruct (drain fuel (slice_from (i + 2) buffer)) as [evs rest].
  destruct (parseEvent (slice 0 i buffer)) as [ev|] eqn:E; [|exact IH].
  cbn [fst forallb] in *. now rewrite (parseEvent_deliverable _ _ E).
Qed.

Lemma read_loop_deliverable (reads : list string) (buffer : string) :
  forallb deliverable (read_loop buffer reads) = true.
Proof.
  revert buffer; induction reads as [|value reads IH]; intros buffer; [reflexivity|].
  cbn [read_loop]. unfold drain_buffer.
  pose proof (drain_deliverable (String.length (buffer +:+ value)) (buffer +:+ value)) as H.
  destruct (drain _ (buffer +:+ value)) as [evs rest].
  cbn [fst] in H. now rewrite forallb_app, H, IH.
Qed.

(** X4. What [fetchStream] does with a response is decided by the status
    first and the body second.  When the status is not 200 it throws
    "Failed to fetch" with that status, with or without a body.  When the
    status is 200 and there is no body to read it throws "not readable".
    When the status is 200 and the body is read to its end, it yields the
    events cut from the text received: none of them is the empty event
    (the default name ["message"] with [null] data), and neither the name
    nor the data of a yielded event contains a line feed, so a value
    written over several lines never comes back whole. *)
Theorem fetchStream_yields_deliverable (response : Response) :
  match Nat.eqb (status response) 200, body response with
  | false, _ => fetchStream response = FailedToFetch (status response)
  | true, None => fetchStream response = BodyNotReadable
  | true, Some reads =>
      fetchStream response = Yields (fst (drain_buffer (received reads)))
      /\ forallb deliverable (fst (drain_buffer (received reads))) = true
  end.
Proof.
  unfold fetchStream.
  destruct (Nat.eqb (status response) 200) eqn:E; cbn [negb]; [|reflexivity].
  destruct (body response) as [reads|]; [|reflexivity].
  pose proof (read_loop_received reads "" eq_refl) as Hall.
  change ("" +:+ received reads) with (received reads) in Hall.
  rewrite <- Hall. split; [reflexivity|]. apply read_loop_deliverable.
Qed.

(** A frame in two reads with a 200 status is delivered; the same body
    with the status 404, and no body at all with the status 404, are
    failures to fetch; no body with the status 200 is not readable. *)
Lemma fetchStream_outcomes :
  fetchStream (mkResponse 200 "OK" (Some ["event: a" +:+ LF +:+ "da"; "ta: 1" +:+ LF +:+ LF]))
  = Yields [mkStreamEvent "a" (Some "1")]
  /\ fetchStream (mkResponse 404 "Not Found" (Some ["event: a" +:+ LF +:+ "da"; "ta: 1" +:+ LF +:+ LF]))
     = FailedToFetch 404
  /\ fetchStream (mkResponse 404 "Not Found" None) = FailedToFetch 404
  /\ fetchStream (mkResponse 200 "OK" None) = BodyNotReadable.
Proof. repeat split; reflexivity. Qed.

End SseCoverage.

(** ** core/api/chat: further properties of the live path *)

Module ChatApiCoverage.
Import JsString Sse ChatApi ChatApiFacts ChatApiVocabulary.

Section Client.
Context {Json Resource McpSettings : Type}.
Variable host : Host Json.
Variable net : Net Resource McpSettings.

Abbreviation World := (World Json Resource McpSettings).
Abbreviation Params := (Params Resource McpSettings).
Abbreviation Effect := (Effect Resource McpSettings).

Lemma slept_app (a b : list Effect) : slept (a ++ b) = slept a + slept b.
Proof. unfold slept. now rewrite map_app, list_sum_app. Qed.

Lemma requests_app (a b : list Effect) : requests (a ++ b) = requests a + requests b.
Proof. unfold requests. now rewrite List.filter_app, length_app. Qed.

Lemma waits_within_refl (w : World) : waits_within 0 0 w w.
Proof. exists []. rewrite app_nil_r. cbn. repeat split; lia. Qed.

Lemma waits_within_trans (ms1 n1 ms2 n2 : nat) (w1 w2 w3 : World) :
  waits_within ms1 n1 w1 w2 -> waits_within ms2 n2 w2 w3 ->
  waits_within (ms1 + ms2) (n1 + n2) w1 w3.
Proof.
  intros (a & Ha & Hsa & Hra & Hya) (b & Hb & Hsb & Hrb & Hyb). exists (a ++ b).
  rewrite Hb, Ha, <- app_assoc, slept_app, requests_app, Hyb, Hya.
  repeat split; lia.
Qed.

Lemma waits_within_weaken (ms n ms' n' : nat) (w w' : World) :
  waits_within ms n w w' -> ms <= ms' -> n <= n' -> waits_within ms' n' w w'.
Proof.
  intros (a & Ha & Hs & Hr & Hy) Hms Hn. exists a. repeat split; try assumption; lia.
Qed.

Lemma waits_within_log (e : Effect) (w : World) :
  waits_within (pause e) (if is_request e then 1 else 0) w (log e w).
Proof.
  exists [e]. cbn [log trace yielded]. unfold slept, requests.
  cbn [map list_sum List.filter]. destruct (is_request e); cbn; repeat split; lia.
Qed.

Lemma quick_checks_within (attempts : nat) (params : Params) (task_id : string)
    (w w' : World) (o : Outcome bool) :
  quick_checks host net attempts params task_id w = (o, w') ->
  waits_within (500 * attempts) attempts w w'.
Proof.
  revert w; induction attempts as [|n IH]; intros w; cbn [quick_checks].
  - intros [= _ <-]. apply waits_within_refl.
  - unfold bind at 1. unfold signal_aborted.
    destruct (aborted net _).
    + intros [= _ <-].
      eapply waits_within_weaken; [apply waits_within_refl | lia | lia].
    + unfold bind at 1.
      destruct (quick_check_world host net params task_id w) as [started ->].
      pose proof (waits_within_log (Fetched (quick_check_request host params task_id)) w)
        as H1. cbn [pause is_request] in H1.
      destruct started.
      * intros [= _ <-]. eapply waits_within_weaken; [exact H1 | lia | lia].
      * unfold bind, sleep. intros H. apply IH in H.
        pose proof (waits_within_log (Slept 500)
                      (log (Fetched (quick_check_request host params task_id)) w)) as H2.
        cbn [pause is_request] in H2.
        eapply waits_within_weaken;
          [exact (waits_within_trans _ _ _ _ _ _ _
                    (waits_within_trans _ _ _ _ _ _ _ H1 H2) H) | lia | lia].
Qed.

Lemma status_checks_within (attempts : nat) (task_id : string)
    (w w' : World) (o : Outcome bool) :
  status_checks host net attempts task_id w = (o, w') ->
  waits_within (1000 * attempts) attempts w w'.
Proof.
  revert w; induction attempts as [|n IH]; intros w; cbn [status_checks].
  - intros [= _ <-]. apply waits_within_refl.
  - unfold bind at 1. unfold signal_aborted.
    destruct (aborted net _).
    + intros [= _ <-].
      eapply waits_within_weaken; [apply waits_within_refl | lia | lia].
    + unfold bind at 1.
      destruct (status_check_world host net task_id w) as [started ->].
      pose proof (waits_within_log (Fetched (status_request host task_id)) w) as H1.
      cbn [pause is_request] in H1.
      destruct started.
      * intros [= _ <-]. eapply waits_within_weaken; [exact H1 | lia | lia].
      * unfold bind, sleep. intros H. apply IH in H.
        pose proof (waits_within_log (Slept 1000)
                      (log (Fetched (status_request host task_id)) w)) as H2.
        cbn [pause is_request] in H2.
        eapply waits_within_weaken;
          [exact (waits_within_trans _ _ _ _ _ _ _
                    (waits_within_trans _ _ _ _ _ _ _ H1 H2) H) | lia | lia].
Qed.

(** The replay loop adds no effect, and what it yields is never a terminal
    event. *)
Lemma consume_yields (events : list StreamEvent) (w w' : World) (o : Outcome unit) :
  consume host events w = (o, w') ->
  trace w' = trace w
  /\ exists ys, yielded w' = yielded w ++ ys /\ forallb not_terminal ys = true.
Proof.
  revert w; induction events as [|ev events IH]; intros w; cbn [consume].
  - intros [= _ <-]. split; [reflexivity|]. exists []. now rewrite app_nil_r.
  - destruct (String.eqb (event ev) "replay_end") eqn:Eend.
    { intros [= _ <-]. split; [reflexivity|]. exists []. now rewrite app_nil_r. }
    destruct (String.eqb (event ev) "error") eqn:Eerr.
    { intros [= _ <-]. split; [reflexivity|]. exists []. now rewrite app_nil_r. }
    unfold bind, lift, yield.
    destruct (parse_data host (Sse.data ev)) as [d|]; cbn.
    + intros H. apply IH in H as (Ht & ys & Hy & Hn). cbn [trace yielded] in *.
      split; [exact Ht|]. exists ({| type := event ev; data := d |} :: ys).
      rewrite Hy, <- app_assoc. split; [reflexivity|].
      cbn [forallb]. unfold not_terminal at 1. cbn [type].
      now rewrite Eend, Eerr, Hn.
    + intros [= _ <-]. split; [reflexivity|]. exists []. now rewrite app_nil_r.
Qed.

(** The whole asynchronous path, however it ends. *)
Lemma chatStream_async_bounds (userMessage : string) (params : Params)
    (w w' : World) (o : Outcome unit) :
  chatStream_async host net userMessage params w = (o, w') ->
  exists (added : list Effect) (ys : list (Yielded Json)),
    trace w' = trace w ++ added
    /\ slept added <= 8 * 500 + 10 * 1000
    /\ requests added <= 20
    /\ yielded w' = yielded w ++ ys
    /\ forallb not_terminal ys = true.
Proof.
  assert (Hdone : forall (w1 w2 : World) ms n,
             waits_within ms n w w1 -> trace w2 = trace w1 ->
             ms <= 8 * 500 + 10 * 1000 -> n <= 20 ->
             (exists ys, yielded w2 = yielded w1 ++ ys /\ forallb not_terminal ys = true) ->
             exists added ys,
               trace w2 = trace w ++ added /\ slept added <= 8 * 500 + 10 * 1000
               /\ requests added <= 20 /\ yielded w2 = yielded w ++ ys
               /\ forallb not_terminal ys = true).
  { intros w1 w2 ms n (a & Ha & Hs & Hr & Hy) Ht Hms Hn (ys & Hys & Hnt).
    exists a, ys. rewrite Ht, Ha, Hys, Hy. repeat split; try assumption; lia. }
  assert (Hstop : forall (w1 : World) ms n,
             waits_within ms n w w1 -> ms <= 8 * 500 + 10 * 1000 -> n <= 20 ->
             exists added ys,
               trace w1 = trace w ++ added /\ slept added <= 8 * 500 + 10 * 1000
               /\ requests added <= 20 /\ yielded w1 = yielded w ++ ys
               /\ forallb not_terminal ys = true).
  { intros w1 ms n H Hms Hn. apply (Hdone w1 w1 ms n H eq_refl Hms Hn).
    exists []. now rewrite app_nil_r. }
  pose proof (waits_within_log (Fetched (async_request host userMessage params)) w) as H0.
  cbn [pause is_request] in H0.
  unfold chatStream_async. unfold bind at 1. unfold fetch at 1.
  destruct (respond net _ _) as [asyncResponse|];
    [|intros [= _ <-]; apply (Hstop _ _ _ H0); lia].
  destruct (ok asyncResponse); cbn [negb];
    [|intros [= _ <-]; apply (Hstop _ _ _ H0); lia].
  unfold bind at 1. unfold lift at 1.
  destruct (json host asyncResponse) as [answer|];
    [|intros [= _ <-]; apply (Hstop _ _ _ H0); lia].
  unfold ret at 1. unfold bind at 1. unfold lift at 1.
  destruct (task_id_of host answer) as [task_id|];
    [|intros [= _ <-]; apply (Hstop _ _ _ H0); lia].
  unfold ret at 1. unfold bind at 1.
  set (w1 := log _ w) in *.
  destruct (quick_checks host net 8 params task_id w1) as [o1 w2] eqn:Eq.
  apply quick_checks_within in Eq.
  pose proof (waits_within_trans _ _ _ _ _ _ _ H0 Eq) as H1.
  destruct o1 as [started|e]; [|intros [= _ <-]; apply (Hstop _ _ _ H1); lia].
  unfold bind at 1.
  assert (H2 : forall o2 w3,
             (if started then ret true else status_checks host net 10 task_id) w2
             = (o2, w3) -> waits_within (8 * 500 + 10 * 1000) 19 w w3).
  { intros o2 w3. destruct started.
    - intros [= _ <-]. eapply waits_within_weaken; [exact H1 | lia | lia].
    - intros H. apply status_checks_within in H.
      eapply waits_within_weaken;
        [exact (waits_within_trans _ _ _ _ _ _ _ H1 H) | lia | lia]. }
  destruct ((if started then ret true else status_checks host net 10 task_id) w2)
    as [o2 w3] eqn:Es.
  specialize (H2 _ _ eq_refl).
  destruct o2 as [started'|e]; [|intros [= _ <-]; apply (Hstop _ _ _ H2); lia].
  unfold bind at 1. unfold stream. unfold bind at 1. unfold fetch at 1.
  pose proof (waits_within_log (Fetched (replay_request host params task_id)) w3) as H3.
  cbn [pause is_request] in H3.
  pose proof (waits_within_trans _ _ _ _ _ _ _ H2 H3) as H4.
  destruct (respond net _ (replay_request host params task_id));
    [|intros [= _ <-]; apply (Hstop _ _ _ H4); lia].
  destruct (fetchStream r) as [evs| |];
    try (intros [= _ <-]; apply (Hstop _ _ _ H4); lia).
  unfold ret at 1. intros Hc. apply consume_yields in Hc as [Ht Hys].
  apply (Hdone _ _ _ _ H4 Ht); [lia | lia | exact Hys].
Qed.

(** X5. However [chatStream] ends on the live path, it has paused for at
    most 14 seconds in all (8 pauses of 500 ms and 10 of 1000 ms) and has
    made at most 20 requests: the wait for the task to start is bounded. *)
Theorem chatStream_async_wait_bounded (userMessage : string) (params : Params)
    (w : World) :
  exists added : list Effect,
    trace (snd (chatStream_async host net userMessage params w)) = trace w ++ added
    /\ slept added <= 8 * 500 + 10 * 1000
    /\ requests added <= 20.
Proof.
  destruct (chatStream_async host net userMessage params w) as [o w'] eqn:E.
  apply chatStream_async_bounds in E as (added & ys & Ht & Hs & Hr & _).
  now exists added.
Qed.

(** X6. However [chatStream] ends on the live path, it has yielded no
    event of type [replay_end] or [error]: the terminal events of the
    stream are consumed by the client and never reach the caller. *)
Theorem chatStream_async_never_yields_terminal (userMessage : string)
    (params : Params) (w : World) :
  exists ys : list (Yielded Json),
    yielded (snd (chatStream_async host net userMessage params w)) = yielded w ++ ys
    /\ forallb not_terminal ys = true.
Proof.
  destruct (chatStream_async host net userMessage params w) as [o w'] eqn:E.
  apply chatStream_async_bounds in E as (added & ys & _ & _ & _ & Hy & Hn).
  now exists ys.
Qed.

(** X7. When the creation of the task fails at [POST chat/async] (the
    request is rejected, the answer is not OK, its body is not JSON, or
    the body is a value that cannot be destructured, as [null]),
    [chatStream] throws after that one request: it makes no other request
    and yields nothing.  A body that is an object without [task_id] is no
    such failure: the task id is then [undefined]. *)
Theorem chatStream_async_creation_fails (userMessage : string) (params : Params)
    (w : World) :
  created_task_id host net userMessage params w = None ->
  exists e : Error,
    chatStream_async host net userMessage params w
    = (Throw e, log (Fetched (async_request host userMessage params)) w).
Proof.
  unfold created_task_id, chatStream_async. unfold bind at 1. unfold fetch at 1.
  destruct (respond net _ _) as [asyncResponse|]; [|eauto].
  destruct (ok asyncResponse); cbn [negb]; [|eauto]. unfold throw.
  unfold bind at 1. unfold lift at 1.
  destruct (json host asyncResponse) as [answer|]; [|unfold throw; eauto].
  unfold ret at 1. unfold bind at 1. unfold lift at 1.
  intros ->. unfold throw. eauto.
Qed.

(** X8. When the task has been created and the abort signal is found
    aborted at the first look, [chatStream] throws "cancelled by the user"
    without any further request: the replay is never opened, and the task
    created on the server is left running. *)
Theorem chatStream_async_aborted (userMessage : string) (params : Params)
    (w : World) (task_id : string) :
  created_task_id host net userMessage params w = Some task_id ->
  aborted net (length (trace w) + 1) = true ->
  chatStream_async host net userMessage params w
  = (Throw TaskCancelled, log (Fetched (async_request host userMessage params)) w).
Proof.
  unfold created_task_id, chatStream_async. unfold bind at 1. unfold fetch at 1.
  destruct (respond net _ _) as [asyncResponse|]; [|discriminate].
  destruct (ok asyncResponse); cbn [negb]; [|discriminate].
  unfold bind at 1. unfold lift at 1.
  destruct (json host asyncResponse) as [answer|]; [|discriminate].
  unfold ret at 1. unfold bind at 1. unfold lift at 1.
  intros -> Ha. unfold ret at 1. unfold bind at 1.
  cbn [quick_checks]. unfold bind at 1. unfold signal_aborted.
  cbn [log trace]. rewrite length_app. cbn [length]. now rewrite Ha.
Qed.

(** *** [chatReplayStreamFromAPI] *)

Lemma replay_event_returns (ev : StreamEvent) (w : World) :
  exists b w', replay_event host ev w = (Return b, w').
Proof.
  unfold replay_event, try_catch.
  match goal with |- context [match ?c w with _ => _ end] =>
    destruct (c w) as [[b|e] w'] end; unfold ret; eauto.
Qed.

Lemma replay_events_returns (events : list StreamEvent) (w : World) :
  exists w', replay_events host events w = (Return tt, w').
Proof.
  revert w; induction events as [|ev events IH]; intros w; cbn [replay_events].
  - unfold ret. eauto.
  - unfold bind. destruct (replay_event_returns ev w) as (b & w' & ->).
    destruct b; [unfold ret; eauto | apply IH].
Qed.

(** X9. The loop of [chatReplayStreamFromAPI] never throws, whatever the
    events are: an [error] event ends the replay as [replay_end] does, and
    an event that cannot be handled is logged and skipped. *)
Theorem replay_events_never_throws (events : list StreamEvent) (w : World) :
  fst (replay_events host events w) = Return tt.
Proof.
  revert w; induction events as [|ev events IH]; intros w; cbn [replay_events].
  - reflexivity.
  - unfold bind. destruct (replay_event_returns ev w) as (b & w' & ->).
    destruct b; [reflexivity | apply IH].
Qed.

Variable chatReplayStream :
  string -> Params -> M Json Resource McpSettings unit.

(** X10. [chatReplayStreamFromAPI] makes its request and, when the replay
    stream cannot be opened (the request is rejected, the status is not
    200, or the status is 200 and there is no body), falls back to the
    replay of a recorded file, which starts after that request.  When the
    stream is opened and read to its end, its events are replayed and the
    function returns without falling back, whatever the events are. *)
Theorem chatReplayStreamFromAPI_fallback (threadId userMessage : string)
    (params : Params) (w : World) :
  let request := api_replay_request host threadId in
  let result :=
    chatReplayStreamFromAPI host net chatReplayStream threadId userMessage params w in
  (respond net (length (trace w)) request = None ->
   result = chatReplayStream userMessage params (log (Fetched request) w))
  /\ (forall response : Response,
        respond net (length (trace w)) request = Some response ->
        (status response <> 200 ->
         result = chatReplayStream userMessage params (log (Fetched request) w))
        /\ (status response = 200 -> body response = None ->
            result = chatReplayStream userMessage params (log (Fetched request) w))
        /\ (forall events : list StreamEvent,
              fetchStream response = Yields events ->
              result = replay_events host events (log (Fetched request) w)
              /\ fst result = Return tt)).
Proof.
  cbn zeta.
  set (request := api_replay_request host threadId).
  assert (Hcases :
    chatReplayStreamFromAPI host net chatReplayStream threadId userMessage params w
    = match respond net (length (trace w)) request with
      | Some response =>
          match fetchStream response with
          | Yields events => replay_events host events (log (Fetched request) w)
          | FailedToFetch _ | BodyNotReadable =>
              chatReplayStream userMessage params (log (Fetched request) w)
          end
      | None => chatReplayStream userMessage params (log (Fetched request) w)
      end).
  { unfold chatReplayStreamFromAPI, try_catch, stream. unfold bind at 1 2.
    unfold fetch. fold request.
    destruct (respond net _ _) as [response|]; [|reflexivity].
    destruct (fetchStream response) as [events| |]; try reflexivity.
    unfold ret at 1.
    now destruct (replay_events_returns events (log (Fetched request) w))
      as [w' ->]. }
  rewrite Hcases. clear Hcases. split.
  - now intros ->.
  - intros response ->. unfold fetchStream. split; [|split].
    + intros Hst. apply Nat.eqb_neq in Hst. now rewrite Hst.
    + intros -> ->. reflexivity.
    + intros events ->. split; [reflexivity|].
      now destruct (replay_events_returns events (log (Fetched request) w))
        as [w' ->].
Qed.

(** X11. In the loop of [chatReplayStreamFromAPI] the data is parsed before
    the kind is looked at: a [replay_end] event whose data is not JSON does
    not end the replay, it is skipped and the events after it are replayed.
    The loop of the live path looks at the kind first and ends there. *)
Theorem replay_events_skips_bad_end (ev : StreamEvent) (events : list StreamEvent)
    (w : World) :
  event ev = "replay_end" ->
  parse_data host (Sse.data ev) = None ->
  replay_events host (ev :: events) w = replay_events host events w
  /\ consume host (ev :: events) w = (Return tt, w).
Proof.
  intros Hk Hp. split.
  - cbn [replay_events]. unfold bind at 1. unfold replay_event, try_catch.
    unfold bind at 1. unfold lift. now rewrite Hp.
  - cbn [consume]. now rewrite Hk.
Qed.

End Client.

Import Samples MoreSamples.

Lemma chatStream_async_creation_fails_witness :
  created_task_id (page "") offline "hi" params start = None
  /\ created_task_id (page "") null_body "hi" params start = None
  /\ created_task_id (page "") empty_body "hi" params start = Some "undefined"
  /\ (exists e : Error,
        chatStream_async (page "") offline "hi" params start
        = (Throw e, log (Fetched (async_request (page "") "hi" params)) start))
  /\ (exists e : Error,
        chatStream_async (page "") null_body "hi" params start
        = (Throw e, log (Fetched (async_request (page "") "hi" params)) start)).
Proof.
  split; [reflexivity|]. split; [reflexivity|]. split; [reflexivity|]. split.
  - exact (chatStream_async_creation_fails (page "") offline "hi" params start
             eq_refl).
  - exact (chatStream_async_creation_fails (page "") null_body "hi" params start
             eq_refl).
Defined.

Lemma chatReplayStreamFromAPI_fallback_witness :
  respond offline (length (trace start)) (api_replay_request (page "") "T") = None
  /\ chatReplayStreamFromAPI (page "") offline no_file_replay "T" "hi" params start
     = no_file_replay "hi" params
         (log (Fetched (api_replay_request (page "") "T")) start)
  /\ fst (chatReplayStreamFromAPI (page "") server no_file_replay "T" "hi" params
            start)
     = Return tt
  /\ yielded
       (snd (chatReplayStreamFromAPI (page "") server no_file_replay "T" "hi"
               params start))
     = [mkYielded "message_chunk" (Object1 "id" "m1")].
Proof.
  split; [reflexivity|]. split.
  - exact (proj1 (chatReplayStreamFromAPI_fallback (page "") offline
                    no_file_replay "T" "hi" params start) eq_refl).
  - destruct (proj2 (chatReplayStreamFromAPI_fallback (page "") server
                       no_file_replay "T" "hi" params start) _ eq_refl)
      as (_ & _ & Hopen).
    destruct (Hopen _ eq_refl) as [Hevents Hreturns].
    split; [exact Hreturns|]. now rewrite Hevents.
Defined.

Lemma chatStream_async_aborted_witness :
  created_task_id (page "") impatient "hi" params start = Some "X"
  /\ aborted impatient (length (trace start) + 1) = true
  /\ fst (chatStream_async (page "") impatient "hi" params start) = Throw TaskCancelled.
Proof.
  split; [reflexivity|]. split; [reflexivity|].
  now rewrite (chatStream_async_aborted (page "") impatient "hi" params start "X"
                 eq_refl eq_refl).
Defined.

Lemma replay_events_skips_bad_end_witness :
  event (mkStreamEvent "replay_end" (Some "")) = "replay_end"
  /\ parse_data (page "") (Sse.data (mkStreamEvent "replay_end" (Some ""))) = None
  /\ yielded (snd (replay_events (page "") stream_with_bad_end start))
     = [mkYielded "tool_calls" (Object1 "id" "c1")]
  /\ yielded (snd (consume (page "") stream_with_bad_end start)) = [].
Proof.
  split; [reflexivity|]. split; [reflexivity|].
  destruct (replay_events_skips_bad_end (page "")
              (mkStreamEvent "replay_end" (Some ""))
              [mkStreamEvent "tool_calls" (Some (object1 "id" "c1"))]
              start eq_refl eq_refl) as [Hr Hc].
  unfold stream_with_bad_end. rewrite Hr, Hc. split; reflexivity.
Defined.

End ChatApiCoverage.

(** ** core/api/chat: replay from the API and from Redis, smart replay *)

Module ChatReplayFacts.
Import JsString Sse ChatApi ChatReplay.

Section Client.
Context {Json Resource McpSettings : Type}.
Variable host : Host Json.
Variable net : Net Resource McpSettings.
Variable has_running_task_of : Json -> option Flag.
Variable chatReplayStream : string -> ReplayParams -> M Json Resource McpSettings unit.

Abbreviation World := (World Json Resource McpSettings).

Lemma yielding_nil (w : World) : yielding [] w = w.
Proof. destruct w. unfold yielding. cbn. now rewrite app_nil_r. Qed.

Lemma yielding_app (ys zs : list (Yielded Json)) (w : World) :
  yielding zs (yielding ys w) = yielding (ys ++ zs) w.
Proof. unfold yielding. cbn. now rewrite app_assoc. Qed.

Lemma yields_of_cons (ev : StreamEvent) (events : list StreamEvent) :
  yields_of host (ev :: events)
  = match parse_data host (Sse.data ev) with
    | Some d => mkYielded (event ev) d :: yields_of host events
    | None => yields_of host events
    end.
Proof.
  unfold yields_of. cbn [omap list_omap].
  destruct (parse_data host (Sse.data ev)); reflexivity.
Qed.

(** One round of the shared loop. *)
Lemma plain_event_cases (ev : StreamEvent) (w : World) :
  plain_event host ev w
  = match parse_data host (Sse.data ev) with
    | None => (Return false, w)
    | Some d =>
        if terminal_event ev then (Return true, w)
        else (Return false, yielding [mkYielded (event ev) d] w)
    end.
Proof.
  unfold plain_event, try_catch, bind, lift, terminal_event.
  destruct (parse_data host (Sse.data ev)) as [d|]; cbn; [|reflexivity].
  destruct (String.eqb (event ev) "replay_end"); cbn; [reflexivity|].
  destruct (String.eqb (event ev) "error"); reflexivity.
Qed.

(** X12.  The loop of [chatReplayStreamAPI] and [chatReplayFromRedis] never
    throws and does nothing but yield: it yields the events whose data
    parse, in order, up to the first [replay_end] or [error] event whose
    data parses; an event whose data does not parse is passed over, a
    terminal one too. *)
Theorem plain_events_yields (events : list StreamEvent) (w : World) :
  plain_events host events w
  = (Return tt, yielding (yields_of host (before_stop host events)) w).
Proof.
  revert w. induction events as [|ev events IH]; intros w.
  - cbn. now rewrite yielding_nil.
  - cbn [plain_events before_stop]. unfold bind at 1.
    rewrite plain_event_cases. unfold parses.
    destruct (parse_data host (Sse.data ev)) as [d|] eqn:Hd; cbn [is_null negb andb].
    + destruct (terminal_event ev).
      * now rewrite yielding_nil.
      * rewrite IH, yields_of_cons, Hd, yielding_app. reflexivity.
    + rewrite IH, yields_of_cons, Hd. reflexivity.
Qed.

(** X13.  On a stream all of whose data parse, the replay loop yields
    what the loop of the live stream yields and, like it, has no other
    effect; the two differ only in how they end. *)
Theorem plain_events_yields_as_consume (events : list StreamEvent) (w : World) :
  forallb (parses host) events = true ->
  snd (plain_events host events w) = snd (consume host events w).
Proof.
  rewrite plain_events_yields. cbn [snd].
  revert w. induction events as [|ev events IH]; intros w Hall.
  - cbn. now rewrite yielding_nil.
  - cbn [forallb] in Hall. apply andb_prop in Hall as [Hev Hall].
    cbn [before_stop consume]. rewrite Hev. cbn [andb].
    unfold terminal_event.
    destruct (String.eqb (event ev) "replay_end"); cbn [orb].
    + cbn. now rewrite yielding_nil.
    + destruct (String.eqb (event ev) "error"); cbn [orb].
      * cbn. now rewrite yielding_nil.
      * unfold parses in Hev. rewrite yields_of_cons.
        unfold bind, lift.
        destruct (parse_data host (Sse.data ev)) as [d|]; [|discriminate].
        cbn. rewrite <- (IH _ Hall).
        fold (yielding [mkYielded (event ev) d] w). now rewrite yielding_app.
Qed.

(** What opening a stream does. *)
Lemma stream_cases (request : Request Resource McpSettings) (w : World) :
  stream net request w
  = match respond net (length (trace w)) request with
    | None => (Throw FetchRejected, log (Fetched request) w)
    | Some response =>
        match fetchStream response with
        | Yields evs => (Return evs, log (Fetched request) w)
        | FailedToFetch st => (Throw (StreamFailed st), log (Fetched request) w)
        | BodyNotReadable => (Throw StreamNotReadable, log (Fetched request) w)
        end
    end.
Proof.
  unfold stream, bind, fetch.
  destruct (respond net (length (trace w)) request) as [response|]; [|reflexivity].
  destruct (fetchStream response); reflexivity.
Qed.

(** X14.  [chatReplayStreamAPI] makes one request.  When the stream cannot
    be opened (the request is rejected, the status is not 200, or the
    status is 200 and there is no body) it throws the error of the stream
    and has yielded nothing.  When the stream is opened and read to its
    end it returns, whatever the events are, and has yielded the events
    that parse, up to the first terminal event that parses. *)
Theorem chatReplayStreamAPI_one_request (threadId : string)
    (offset : option string) (w : World) :
  let request := api_request host threadId (default "0" offset) in
  let result := chatReplayStreamAPI host net threadId offset w in
  trace (snd result) = trace w ++ [Fetched request]
  /\ (respond net (length (trace w)) request = None ->
      result = (Throw FetchRejected, log (Fetched request) w))
  /\ (forall response : Response,
        respond net (length (trace w)) request = Some response ->
        (status response <> 200 ->
         result = (Throw (StreamFailed (status response)), log (Fetched request) w))
        /\ (status response = 200 -> body response = None ->
            result = (Throw StreamNotReadable, log (Fetched request) w))
        /\ (forall evs : list StreamEvent,
              fetchStream response = Yields evs ->
              result
              = (Return tt,
                 yielding (yields_of host (before_stop host evs))
                   (log (Fetched request) w)))).
Proof.
  cbn zeta. unfold chatReplayStreamAPI, try_catch, bind.
  rewrite stream_cases. split; [|split].
  - destruct (respond net (length (trace w)) _) as [response|]; [|reflexivity].
    destruct (fetchStream response) as [evs|st|]; try reflexivity.
    now rewrite plain_events_yields.
  - now intros ->.
  - intros response ->. unfold fetchStream. split; [|split].
    + intros Hst. apply Nat.eqb_neq in Hst. now rewrite Hst.
    + intros -> ->. reflexivity.
    + intros evs Hf. unfold fetchStream in Hf. rewrite Hf.
      now rewrite plain_events_yields.
Qed.


(** When its stream cannot be opened, [chatReplayFromRedis] is the replay
    of the recorded file. *)
Lemma chatReplayFromRedis_closed_stream (threadId text : string)
    (continuous : Flag) (offset queryId : option string) (e : Error) (w : World) :
  let request := redis_request host threadId (default "0" offset) text queryId in
  continuous_text continuous = Some text ->
  fst (stream net request w) = Throw e ->
  chatReplayFromRedis host net chatReplayStream threadId continuous offset queryId w
  = chatReplayStream "" (fallback_params threadId) (log (Fetched request) w).
Proof.
  cbn zeta. intros Ht.
  unfold chatReplayFromRedis, try_catch, bind at 1. rewrite Ht. cbn [lift].
  unfold ret at 1. unfold bind at 1. rewrite stream_cases.
  destruct (respond net (length (trace w)) _) as [response|]; [|reflexivity].
  destruct (fetchStream response); cbn; intros H; try reflexivity; discriminate.
Qed.

(** The running-task check, by cases. *)
Lemma checkThreadRunningTask_cases (threadId : string) (w : World) :
  checkThreadRunningTask host net threadId w
  = (Return
       match respond net (length (trace w)) (running_task_request host threadId) with
       | None => Literal false
       | Some response =>
           if ok response
           then match json host response with
                | Some answer => ParsedBody answer
                | None => Literal false
                end
           else Literal false
       end,
     log (Fetched (running_task_request host threadId)) w).
Proof.
  unfold checkThreadRunningTask, try_catch, bind, fetch, lift.
  destruct (respond net (length (trace w)) _) as [response|]; [|reflexivity].
  destruct (ok response); cbn; [|reflexivity].
  destruct (json host response); reflexivity.
Qed.

(** The flag [chatSmartReplayStream] reads gives the mode of
    [smart_continuous]. *)
Lemma smart_continuous_flag (threadId : string) (w : World) :
  smart_continuous host net has_running_task_of threadId w
  = match running_flag has_running_task_of
            (match fst (checkThreadRunningTask host net threadId w) with
             | Return info => info
             | Throw _ => Literal false
             end) with
    | Some flag => continuous_text flag
    | None => None
    end.
Proof.
  rewrite checkThreadRunningTask_cases. cbn [fst]. unfold smart_continuous.
  destruct (respond net (length (trace w)) _) as [response|]; [|reflexivity].
  destruct (ok response); [|reflexivity].
  destruct (json host response); reflexivity.
Qed.

(** [chatSmartReplayStream] when the check gives a mode. *)
Lemma chatSmartReplayStream_with_mode (threadId text : string)
    (offset queryId : option string) (w : World) :
  smart_continuous host net has_running_task_of threadId w = Some text ->
  exists continuous,
    continuous_text continuous = Some text
    /\ chatSmartReplayStream host net has_running_task_of chatReplayStream
         threadId offset queryId w
       = try_catch
           (chatReplayFromRedis host net chatReplayStream threadId continuous
              (Some (default "0" offset)) queryId)
           (fun _ => chatReplayStream "" (fallback_params threadId))
           (log (Fetched (running_task_request host threadId)) w).
Proof.
  rewrite smart_continuous_flag. intros Hmode.
  unfold chatSmartReplayStream. unfold try_catch at 1. unfold bind at 1.
  rewrite checkThreadRunningTask_cases in *. cbn [fst] in Hmode.
  destruct (running_flag has_running_task_of _) as [flag|]; [|discriminate].
  exists flag. split; [exact Hmode|]. cbn [lift]. reflexivity.
Qed.


(** X17.  When the stream of [chatSmartReplayStream] cannot be opened, the
    replay of the recorded file is run, and when that throws it is run a
    second time, from the state the first run has left. *)
Theorem chatSmartReplayStream_falls_back_twice (threadId text : string)
    (offset queryId : option string) (e : Error) (w : World) :
  let request := redis_request host threadId (default "0" offset) text queryId in
  let w1 := log (Fetched request)
              (log (Fetched (running_task_request host threadId)) w) in
  smart_continuous host net has_running_task_of threadId w = Some text ->
  fst (stream net request (log (Fetched (running_task_request host threadId)) w))
  = Throw e ->
  chatSmartReplayStream host net has_running_task_of chatReplayStream
    threadId offset queryId w
  = match chatReplayStream "" (fallback_params threadId) w1 with
    | (Return _, w2) => (Return tt, w2)
    | (Throw _, w2) => chatReplayStream "" (fallback_params threadId) w2
    end.
Proof.
  cbn zeta. intros Hmode Hs.
  destruct (chatSmartReplayStream_with_mode threadId text offset queryId w Hmode)
    as (continuous & Ht & ->).
  unfold try_catch at 1.
  rewrite (chatReplayFromRedis_closed_stream threadId text continuous
             (Some (default "0" offset)) queryId e _ Ht Hs).
  cbn [default].
  destruct (chatReplayStream "" (fallback_params threadId) _) as [[[]|e'] w2];
    reflexivity.
Qed.

(** X18.  When the answer to the running-task check gives no mode (the
    body is [null], or its [has_running_task] is), [chatSmartReplayStream]
    asks the server for no replay: it is the replay of the recorded file,
    when that returns. *)
Theorem chatSmartReplayStream_without_mode (threadId : string)
    (offset queryId : option string) (w w' : World) :
  let w1 := log (Fetched (running_task_request host threadId)) w in
  smart_continuous host net has_running_task_of threadId w = None ->
  chatReplayStream "" (fallback_params threadId) w1 = (Return tt, w') ->
  chatSmartReplayStream host net has_running_task_of chatReplayStream
    threadId offset queryId w
  = (Return tt, w').
Proof.
  cbn zeta. rewrite smart_continuous_flag. intros Hmode Hfile.
  unfold chatSmartReplayStream. unfold try_catch at 1. unfold bind at 1.
  rewrite checkThreadRunningTask_cases in *. cbn [fst] in Hmode.
  destruct (running_flag has_running_task_of _) as [flag|].
  - cbn [lift]. unfold ret at 1. unfold bind at 1.
    unfold chatReplayFromRedis, try_catch at 1, bind at 1.
    rewrite Hmode. cbn [lift]. unfold throw at 1. now rewrite Hfile.
  - cbn [lift]. unfold throw at 1. exact Hfile.
Qed.

End Client.

Import Samples ReplaySamples.

Lemma plain_events_yields_as_consume_witness :
  forallb (parses (page "")) stream_with_json_error = true
  /\ snd (plain_events (page "") stream_with_json_error start)
     = snd (consume (page "") stream_with_json_error start)
  /\ fst (plain_events (page "") stream_with_json_error start) = Return tt
  /\ fst (consume (page "") stream_with_json_error start)
     = Throw (ErrorEvent (Some (object1 "message" "boom"))).
Proof.
  split; [reflexivity|]. split; [|split; reflexivity].
  apply (plain_events_yields_as_consume (page "") stream_with_json_error start).
  reflexivity.
Defined.

Lemma chatReplayStreamAPI_one_request_witness :
  respond MoreSamples.offline (length (trace start))
    (api_request (page "") "T" (default "0" None)) = None
  /\ chatReplayStreamAPI (page "") MoreSamples.offline "T" None start
     = (Throw FetchRejected, log (Fetched (api_request (page "") "T" "0")) start)
  /\ fst (chatReplayStreamAPI (page "") archive "T" None start) = Return tt
  /\ yielded (snd (chatReplayStreamAPI (page "") archive "T" None start))
     = [mkYielded "message_chunk" (Object1 "id" "m1")].
Proof.
  split; [reflexivity|]. split.
  - exact (proj1 (proj2 (chatReplayStreamAPI_one_request (page "")
                           MoreSamples.offline "T" None start)) eq_refl).
  - destruct (proj2 (proj2 (chatReplayStreamAPI_one_request (page "") archive
                              "T" None start)) _ eq_refl) as (_ & _ & Hopen).
    rewrite (Hopen archive_events eq_refl). split; reflexivity.
Defined.



Lemma chatSmartReplayStream_falls_back_twice_witness :
  smart_continuous (page "") check_only flag_of "T" start = Some "true"
  /\ fst (stream check_only
            (redis_request (page "") "T" (default "0" None) "true" None)
            (log (Fetched (running_task_request (page "") "T")) start))
     = Throw FetchRejected
  /\ fst (chatSmartReplayStream (page "") check_only flag_of broken_file_replay
            "T" None None start)
     = Throw TypeError
  /\ yielded (snd (chatSmartReplayStream (page "") check_only flag_of
                     broken_file_replay "T" None None start))
     = [mkYielded "message_chunk" (Object1 "id" "f1");
        mkYielded "message_chunk" (Object1 "id" "f1")].
Proof.
  split; [reflexivity|]. split; [reflexivity|].
  rewrite (chatSmartReplayStream_falls_back_twice (page "") check_only flag_of
             broken_file_replay "T" "true" None None FetchRejected start
             eq_refl eq_refl).
  split; reflexivity.
Defined.

Lemma chatSmartReplayStream_without_mode_witness :
  smart_continuous (page "") null_answers flag_of "T" start = None
  /\ yielded (snd (chatSmartReplayStream (page "") null_answers flag_of
                     short_file_replay "T" None None start))
     = [mkYielded "message_chunk" (Object1 "id" "f1")].
Proof.
  split; [reflexivity|].
  now rewrite (chatSmartReplayStream_without_mode (page "") null_answers flag_of
                 short_file_replay "T" None None start _ eq_refl eq_refl).
Defined.

End ChatReplayFacts.

(** ** core/store: reading the history *)

Module StoreHistoryFacts.
Import JsString Store StoreFacts StoreHistory.

Lemma find_insert_first {A : Type} (p : A -> bool) (l : list A) (i : nat) (x : A) :
  findIndex p l = Some i -> p x = true -> List.find p (<[i := x]> l) = Some x.
Proof.
  revert i. induction l as [|y l IH]; intros i; cbn [findIndex]; [discriminate|].
  destruct (p y) eqn:Hy.
  - intros [= <-] Hx. cbn. now rewrite Hx.
  - destruct (findIndex p l) as [j|]; [|discriminate].
    intros [= <-] Hx. cbn. rewrite Hy. now apply IH.
Qed.

Lemma find_insert_other {A : Type} (p : A -> bool) (l : list A) (i : nat) (x y : A) :
  l !! i = Some y -> p y = false -> p x = false ->
  List.find p (<[i := x]> l) = List.find p l.
Proof.
  revert i. induction l as [|z l IH]; intros i; [discriminate|].
  destruct i as [|i]; cbn.
  - intros [= ->] Hy Hx. now rewrite Hy, Hx.
  - intros Hl Hy Hx. destruct (p z); [reflexivity|]. now apply (IH i).
Qed.

Section History.
Context {MessageRest : Type}.
Abbreviation ChatHistory := (ChatHistory MessageRest).
Abbreviation Message := (Message MessageRest).
Abbreviation Storage := (Storage MessageRest).

(** The list [saveChatHistory] stores, searched for the thread saved and
    for another thread. *)
Lemma saved_found (l : list ChatHistory) (entry : ChatHistory) (t : string) :
  has_thread t entry = true ->
  length l <= 50 ->
  List.find (has_thread t)
    (take 50 match findIndex (has_thread t) l with
             | Some i => <[i := entry]> l
             | None => entry :: l
             end)
  = Some entry.
Proof.
  intros Hentry Hlen.
  destruct (findIndex (has_thread t) l) as [i|] eqn:Ei.
  - rewrite take_ge by (rewrite length_insert; exact Hlen).
    now apply find_insert_first.
  - cbn. now rewrite Hentry.
Qed.

Lemma saved_others (l : list ChatHistory) (entry : ChatHistory) (t t' : string) :
  has_thread t entry = true ->
  t' <> t ->
  length l <= 50 ->
  length l < 50 \/ is_null (findIndex (has_thread t) l) = false ->
  List.find (has_thread t')
    (take 50 match findIndex (has_thread t) l with
             | Some i => <[i := entry]> l
             | None => entry :: l
             end)
  = List.find (has_thread t') l.
Proof.
  intros Hentry Hne Hlen Hroom.
  assert (Hnew : has_thread t' entry = false).
  { unfold has_thread in *. apply String.eqb_eq in Hentry. rewrite Hentry.
    now apply String.eqb_neq. }
  destruct (findIndex (has_thread t) l) as [i|] eqn:Ei.
  - rewrite take_ge by (rewrite length_insert; exact Hlen).
    apply findIndex_Some in Ei as (y & Hy & Heq).
    apply (find_insert_other _ _ _ _ y); [exact Hy| |exact Hnew].
    unfold has_thread in *. apply String.eqb_eq in Heq. rewrite Heq.
    now apply String.eqb_neq.
  - destruct Hroom as [Hroom|Hroom]; [|discriminate].
    rewrite take_ge by (cbn [length]; lia). cbn [List.find]. now rewrite Hnew.
Qed.

(** A conversation that has just been saved is found again when the
    write returned, and the others are found as before. *)
Lemma lookup_saved (now t : string) (ms : list Message) (st : Storage) :
  ms <> [] ->
  length (getChatHistories true st) <= 50 ->
  getChatHistoryByThreadId true t (saveChatHistory true true now t ms st)
  = Some (chatHistory now t ms).
Proof.
  intros Hms Hlen. unfold getChatHistoryByThreadId, saveChatHistory.
  destruct ms as [|m ms]; [congruence|].
  cbn [length Nat.eqb negb orb getChatHistories].
  apply saved_found; [|exact Hlen]. apply String.eqb_refl.
Qed.

Lemma save_not_written (now t : string) (ms : list Message) (st : Storage) :
  saveChatHistory true false now t ms st = st.
Proof.
  unfold saveChatHistory. now destruct (Nat.eqb (length ms) 0 || negb true).
Qed.

Lemma lookup_other (written : bool) (now t t' : string) (ms : list Message)
    (st : Storage) :
  t' <> t ->
  length (getChatHistories true st) <= 50 ->
  length (getChatHistories true st) < 50
  \/ is_null (findIndex (has_thread t) (getChatHistories true st)) = false ->
  getChatHistoryByThreadId true t' (saveChatHistory true written now t ms st)
  = getChatHistoryByThreadId true t' st.
Proof.
  intros Hne Hlen Hroom.
  destruct written; [|now rewrite save_not_written].
  unfold getChatHistoryByThreadId, saveChatHistory.
  destruct ms as [|m ms]; [reflexivity|].
  cbn [length Nat.eqb negb orb getChatHistories].
  apply saved_others; [apply String.eqb_refl|assumption..].
Qed.

(** Saving keeps the stored list within 50 entries. *)
Lemma length_saved (written : bool) (now t : string) (ms : list Message)
    (st : Storage) :
  length (getChatHistories true st) <= 50 ->
  length (getChatHistories true (saveChatHistory true written now t ms st)) <= 50.
Proof.
  intros Hlen. unfold saveChatHistory.
  destruct (Nat.eqb (length ms) 0 || negb true); [exact Hlen|].
  destruct written; [|exact Hlen].
  cbn [getChatHistories negb]. rewrite length_take. lia.
Qed.

(** A conversation that is found has an index. *)
Lemma lookup_found (t : string) (h : ChatHistory) (st : Storage) :
  getChatHistoryByThreadId true t st = Some h ->
  is_null (findIndex (has_thread t) (getChatHistories true st)) = false.
Proof.
  unfold getChatHistoryByThreadId. cbn [negb].
  induction (getChatHistories true st) as [|x l IH]; cbn; [discriminate|].
  destruct (has_thread t x); [reflexivity|].
  intros H. specialize (IH H). now destruct (findIndex (has_thread t) l).
Qed.

(** X19.  In the browser, provided no more than 50 conversations were
    stored: after a save whose write to localStorage returned, the
    conversation is found under its thread id as it was saved; after a
    save whose write threw, the thread id finds what it found before. *)
Theorem getChatHistoryByThreadId_saved (written : bool) (now t : string)
    (ms : list Message) (st : Storage) :
  ms <> [] ->
  length (getChatHistories true st) <= 50 ->
  getChatHistoryByThreadId true t (saveChatHistory true written now t ms st)
  = if written then Some (chatHistory now t ms)
    else getChatHistoryByThreadId true t st.
Proof.
  intros Hms Hlen. unfold getChatHistoryByThreadId, saveChatHistory.
  destruct ms as [|m ms]; [congruence|].
  cbn [length Nat.eqb negb orb getChatHistories].
  destruct written; [|reflexivity].
  apply saved_found; [|exact Hlen].
  unfold has_thread. cbn [chatHistory threadId]. apply String.eqb_refl.
Qed.

(** X20.  In the browser, saving a conversation leaves every other
    conversation as it is found under its thread id, whether the write
    returns or throws, provided no more than 50 were stored and the save
    does not push one out (the thread saved is already stored, or fewer
    than 50 are). *)
Theorem getChatHistoryByThreadId_other (written : bool) (now t t' : string)
    (ms : list Message) (st : Storage) :
  t' <> t ->
  length (getChatHistories true st) <= 50 ->
  length (getChatHistories true st) < 50
  \/ is_null (findIndex (has_thread t) (getChatHistories true st)) = false ->
  getChatHistoryByThreadId true t' (saveChatHistory true written now t ms st)
  = getChatHistoryByThreadId true t' st.
Proof.
  intros Hne Hlen Hroom. unfold getChatHistoryByThreadId, saveChatHistory.
  destruct ms as [|m ms]; [reflexivity|].
  cbn [length Nat.eqb negb orb getChatHistories].
  destruct written; [|reflexivity].
  apply saved_others; [|assumption..].
  unfold has_thread. cbn [chatHistory threadId]. apply String.eqb_refl.
Qed.

Variable toLocaleString : string -> string.

(** X21.  In the browser, whatever was saved since the storage was empty,
    the list the history dialog shows has at most 50 items, whose ids are
    the stored thread ids in order and differ from one another. *)
Theorem getAllChatHistories_distinct_ids (calls : list (Call MessageRest)) :
  let items := getAllChatHistories true toLocaleString (run true calls None) in
  map id items = map threadId (getChatHistories true (run true calls None))
  /\ length items <= 50
  /\ NoDup (map id items).
Proof.
  cbn zeta.
  assert (Hids : forall st : Storage,
             map id (getAllChatHistories true toLocaleString st)
             = map threadId (getChatHistories true st)).
  { intros st. unfold getAllChatHistories. rewrite map_map. reflexivity. }
  destruct (run_keeps (MessageRest := MessageRest) true calls None) as [Hlen Hnd].
  { split; [cbn; lia | constructor]. }
  split; [apply Hids|]. split.
  - unfold getAllChatHistories. now rewrite length_map.
  - now rewrite Hids.
Qed.

End History.

Lemma getChatHistoryByThreadId_saved_witness :
  [mkMessage "user" (Some (text "hello")) tt] <> []
  /\ length (getChatHistories true (None : Store.Storage unit)) <= 50
  /\ option_map title
       (getChatHistoryByThreadId true "T"
          (saveChatHistory true true "2025" "T"
             [mkMessage "user" (Some (text "hello")) tt] None))
     = Some (text "hello")
  /\ getChatHistoryByThreadId true "T"
       (saveChatHistory true false "2025" "T"
          [mkMessage "user" (Some (text "hello")) tt] None)
     = None.
Proof.
  split; [discriminate|]. split; [cbn; lia|]. split.
  - now rewrite (getChatHistoryByThreadId_saved true "2025" "T"
                   [mkMessage "user" (Some (text "hello")) tt] None
                   ltac:(discriminate) ltac:(cbn; lia)).
  - now rewrite (getChatHistoryByThreadId_saved false "2025" "T"
                   [mkMessage "user" (Some (text "hello")) tt] None
                   ltac:(discriminate) ltac:(cbn; lia)).
Defined.

Lemma getChatHistoryByThreadId_other_witness :
  "T" <> "U"
  /\ length (getChatHistories true
               (saveChatHistory true true "2025" "T"
                  [mkMessage "user" (Some (text "hello")) tt] None)) <= 50
  /\ option_map title
       (getChatHistoryByThreadId true "T"
          (saveChatHistory true true "2026" "U"
             [mkMessage "user" (Some (text "bye")) tt]
             (saveChatHistory true true "2025" "T"
                [mkMessage "user" (Some (text "hello")) tt] None)))
     = Some (text "hello").
Proof.
  split; [discriminate|]. split; [cbn; lia|].
  now rewrite (getChatHistoryByThreadId_other true "2026" "U" "T"
                 [mkMessage "user" (Some (text "bye")) tt]
                 (saveChatHistory true true "2025" "T"
                    [mkMessage "user" (Some (text "hello")) tt] None)
                 ltac:(discriminate) ltac:(cbn; lia) ltac:(left; cbn; lia)).
Defined.

End StoreHistoryFacts.

(** ** core/store: is there research content in a thread? *)

Module ResearchContentFacts.
Import JsString ChatApi ResearchContent.

Section Check.
Context {Json : Type}.
Variable agent_of : Json -> option (option string).
Variable content_of : Json -> option (option string).

Abbreviation look := (look agent_of content_of).
Abbreviation for_await := (for_await agent_of content_of).
Abbreviation evidence := (evidence agent_of content_of).
Abbreviation shows_nothing := (shows_nothing agent_of content_of).
Abbreviation shows_research := (shows_research agent_of content_of).

(** With no flag set, one round does to the flags what it does to the
    initial ones, and counts one event. *)
Lemma look_initial (ev : Yielded Json) (f : Flags) :
  found f = false ->
  match look ev f with
  | Some f' =>
      evidence ev = Some (found f') /\ eventCount f' = S (eventCount f)
  | None => evidence ev = None
  end.
Proof.
  destruct f as [a b c n]. unfold found. cbn [hasToolCalls hasReportContent
    hasResearchActivities].
  intros H. apply orb_false_iff in H as [H ->].
  apply orb_false_iff in H as [-> ->].
  unfold evidence, ResearchContent.evidence, ResearchContent.look, initial.
  cbn [hasToolCalls hasReportContent hasResearchActivities eventCount].
  destruct (String.eqb (type ev) "tool_calls" || String.eqb (type ev) "tool_call_result");
    destruct (String.eqb (type ev) "message_chunk");
    try (cbn; split; reflexivity);
    (destruct (agent_of (data ev)) as [agent|]; [|reflexivity]);
    destruct (is_agent "reporter" agent);
    destruct (is_agent "researcher" agent || is_agent "coder" agent);
    try (cbn; split; reflexivity);
    (destruct (content_of (data ev)) as [content|]; [|reflexivity]);
    destruct (real_content content); cbn; split; reflexivity.
Qed.


End Check.

End ResearchContentFacts.

(** ** A JavaScript [Map] with string keys *)

Module JsMapFacts.
Import JsString JsMap.

Section Map.
Context {V : Type}.
Implicit Types (m : Map V) (k : string) (v : V).

Lemma get_nil k : get k ([] : Map V) = None.
Proof. reflexivity. Qed.

Lemma get_cons k k' v' m :
  get k ((k', v') :: m) = if String.eqb k' k then Some v' else get k m.
Proof. unfold get. cbn. unfold has_key. cbn. now destruct (String.eqb k' k). Qed.

Lemma set_nil k v : set k v [] = [(k, v)].
Proof. reflexivity. Qed.

Lemma set_cons k v k' v' m :
  set k v ((k', v') :: m)
  = if String.eqb k' k then (k, v) :: m else (k', v') :: set k v m.
Proof. reflexivity. Qed.

Lemma get_set_same k v m : get k (set k v m) = Some v.
Proof.
  induction m as [|[k' v'] m IH].
  - now rewrite set_nil, get_cons, String.eqb_refl.
  - rewrite set_cons. destruct (String.eqb k' k) eqn:E.
    + now rewrite get_cons, String.eqb_refl.
    + now rewrite get_cons, E.
Qed.

Lemma get_set_other k k' v m : k' <> k -> get k' (set k v m) = get k' m.
Proof.
  intros Hne. apply not_eq_sym in Hne. apply String.eqb_neq in Hne.
  induction m as [|[k0 v0] m IH].
  - now rewrite set_nil, get_cons, Hne.
  - rewrite set_cons. destruct (String.eqb_spec k0 k) as [->|Hk0].
    + now rewrite !get_cons, Hne.
    + rewrite !get_cons. now destruct (String.eqb k0 k').
Qed.

Lemma get_Some_iff k m : is_null (get k m) = false <-> In k (keys m).
Proof.
  induction m as [|[k' v'] m IH].
  - cbn. split; [discriminate|tauto].
  - rewrite get_cons. cbn [keys map fst In].
    destruct (String.eqb_spec k' k) as [->|Hne].
    + cbn. tauto.
    + rewrite IH. unfold keys. split; [tauto|].
      intros [H|H]; [congruence|exact H].
Qed.

Lemma get_In k v m : get k m = Some v -> In (k, v) m.
Proof.
  induction m as [|[k' v'] m IH]; [discriminate|].
  rewrite get_cons. destruct (String.eqb_spec k' k) as [->|Hne].
  - intros [= ->]. now left.
  - intros H. right. now apply IH.
Qed.

Lemma keys_set k v m :
  keys (set k v m) = if existsb (String.eqb k) (keys m) then keys m else keys m ++ [k].
Proof.
  induction m as [|[k' v'] m IH]; [reflexivity|].
  rewrite set_cons. cbn [keys map fst existsb]. rewrite (String.eqb_sym k k').
  destruct (String.eqb_spec k' k) as [->|Hne]; cbn [orb]; [reflexivity|].
  change (keys ((k', v') :: set k v m)) with (k' :: keys (set k v m)).
  rewrite IH. fold (keys m).
  now destruct (existsb (String.eqb k) (keys m)).
Qed.

Lemma existsb_eqb_In k (l : list string) : existsb (String.eqb k) l = true <-> In k l.
Proof.
  rewrite existsb_exists. split.
  - intros (x & Hx & Heq). apply String.eqb_eq in Heq. now subst.
  - intros H. exists k. split; [exact H|apply String.eqb_refl].
Qed.

Lemma In_keys_set k k' v m : In k' (keys (set k v m)) <-> k' = k \/ In k' (keys m).
Proof.
  rewrite keys_set. destruct (existsb (String.eqb k) (keys m)) eqn:E.
  - apply existsb_eqb_In in E. split; [tauto|]. intros [->|H]; assumption.
  - rewrite in_app_iff. cbn. split; [intros [H|[H|[]]]; auto|].
    intros [->|H]; auto.
Qed.

Lemma NoDup_keys_set k v m : NoDup (keys m) -> NoDup (keys (set k v m)).
Proof.
  intros Hnd. rewrite keys_set. destruct (existsb (String.eqb k) (keys m)) eqn:E.
  - exact Hnd.
  - apply NoDup_app. split; [exact Hnd|]. split; [|apply NoDup_singleton].
    intros x Hx Hin. apply list_elem_of_In in Hx, Hin. destruct Hin as [<-|[]].
    apply existsb_eqb_In in Hx. congruence.
Qed.

Lemma Forall_set (P : string * V -> Prop) k v m :
  P (k, v) -> Forall P m -> Forall P (set k v m).
Proof.
  intros Hkv. induction 1 as [|[k' v'] m Hx Hm IH].
  - now repeat constructor.
  - rewrite set_cons. destruct (String.eqb k' k); constructor; auto.
Qed.

(** Entries added one after another under new keys are added at the
    end. *)
Lemma fold_set_new (key : V -> string) (l : list V) m :
  NoDup (keys m ++ map key l) ->
  fold_left (fun acc x => set (key x) x acc) l m
  = m ++ map (fun x => (key x, x)) l.
Proof.
  revert m. induction l as [|x l IH]; intros m Hnd; cbn.
  - now rewrite app_nil_r.
  - assert (Hset : set (key x) x m = m ++ [(key x, x)]).
    { assert (Hx : ~ In (key x) (keys m)).
      { intros Hin. apply NoDup_app in Hnd as (_ & Hd & _).
        apply (Hd (key x)); [now apply list_elem_of_In|]. cbn. left. }
      clear - Hx. induction m as [|[k' v'] m IH]; [reflexivity|].
      rewrite set_cons. cbn [keys map fst In] in Hx.
      destruct (String.eqb_spec k' (key x)) as [->|Hne]; [tauto|].
      cbn [app]. rewrite IH; [reflexivity|]. unfold keys. tauto. }
    rewrite Hset, IH.
    + now rewrite <- app_assoc.
    + unfold keys in *. rewrite map_app. cbn [map fst]. rewrite <- app_assoc.
      exact Hnd.
Qed.

End Map.

End JsMapFacts.

(** ** core/store: the store of messages and research *)

Module ResearchStoreFacts.
Import JsString JsMap JsMapFacts ResearchStore.

Lemma array_includes_In (x : string) (l : list string) :
  array_includes x l = true <-> In x l.
Proof. apply existsb_eqb_In. Qed.

Lemma array_includes_app (x : string) (l l' : list string) :
  array_includes x (l ++ l') = array_includes x l || array_includes x l'.
Proof. apply existsb_app. Qed.

(** *** The messages *)

Lemma messages_listed_ext (s s' : State) :
  messageIds s' = messageIds s -> messages s' = messages s ->
  messages_listed s -> messages_listed s'.
Proof.
  unfold messages_listed, getMessage. intros -> ->. exact (fun H => H).
Qed.

Lemma messages_listed_empty (t : string) : messages_listed (empty_state t).
Proof. repeat split; constructor. Qed.

Lemma messages_listed_set (ids : list string) (m : Message) (s : State) :
  messages_listed s ->
  Forall (fun id => id = message_id m \/ In id (messageIds s)) ids ->
  messages_listed
    (set_messages ids (JsMap.set (message_id m) m (messages s)) s).
Proof.
  intros (Hids & Hkeys & Hnd) Hnew. unfold messages_listed, getMessage in *.
  cbn [set_messages messageIds messages]. repeat split.
  - rewrite Forall_forall in *. intros id Hid. apply list_elem_of_In in Hid.
    apply get_Some_iff, In_keys_set.
    destruct (Hnew id) as [->|Hin]; [now apply list_elem_of_In|now left|].
    right. apply get_Some_iff, Hids. now apply list_elem_of_In.
  - now apply Forall_set.
  - now apply NoDup_keys_set.
Qed.

Lemma messages_listed_append (m : Message) (s : State) :
  messages_listed s -> messages_listed (store_appendMessage m s).
Proof.
  intros H. apply messages_listed_set; [exact H|].
  rewrite Forall_forall. intros id Hid. apply list_elem_of_In, in_app_iff in Hid.
  destruct Hid as [Hid|[<-|[]]]; auto.
Qed.

Lemma messages_listed_update (m : Message) (s : State) :
  messages_listed s -> messages_listed (store_updateMessage m s).
Proof.
  intros H. apply messages_listed_set; [exact H|].
  rewrite Forall_forall. intros id Hid. apply list_elem_of_In in Hid. auto.
Qed.

Lemma store_updateMessages_cons (m : Message) (ms : list Message) (s : State) :
  store_updateMessages (m :: ms) s = store_updateMessages ms (store_updateMessage m s).
Proof. reflexivity. Qed.

Lemma messages_listed_updates (ms : list Message) (s : State) :
  messages_listed s -> messages_listed (store_updateMessages ms s).
Proof.
  revert s. induction ms as [|m ms IH]; intros s H.
  - now destruct s.
  - rewrite store_updateMessages_cons. now apply IH, messages_listed_update.
Qed.

(** The store [switchToHistoryChat] builds from the messages of a saved
    conversation. *)
Lemma messages_listed_restored (t : string) (ms : list Message) :
  messages_listed
    (set_messages (map message_id ms)
       (fold_left (fun messageMap m => JsMap.set (message_id m) m messageMap) ms [])
       (empty_state t)).
Proof.
  assert (Hgen : forall (acc : JsMap.Map Message) (ids : list string),
             Forall (fun id => In id (keys acc)) ids ->
             Forall (fun entry => fst entry = message_id (snd entry)) acc ->
             NoDup (keys acc) ->
             let acc' := fold_left (fun messageMap m => JsMap.set (message_id m) m messageMap)
                                   ms acc in
             Forall (fun id => In id (keys acc')) (ids ++ map message_id ms)
             /\ Forall (fun entry => fst entry = message_id (snd entry)) acc'
             /\ NoDup (keys acc')).
  { induction ms as [|m ms IH]; intros acc ids Hids Hkeys Hnd; cbn zeta.
    - cbn. now rewrite app_nil_r.
    - cbn [fold_left map].
      replace (ids ++ message_id m :: map message_id ms)
        with ((ids ++ [message_id m]) ++ map message_id ms)
        by now rewrite <- app_assoc.
      apply IH.
      + rewrite Forall_app. split.
        * rewrite Forall_forall in *. intros id Hid.
          apply In_keys_set. right. now apply Hids.
        * constructor; [|constructor]. apply In_keys_set. now left.
      + now apply Forall_set.
      + now apply NoDup_keys_set. }
  destruct (Hgen [] [] ltac:(constructor) ltac:(constructor) ltac:(constructor))
    as (Hids & Hkeys & Hnd).
  unfold messages_listed, getMessage. cbn [set_messages messageIds messages].
  repeat split; [|exact Hkeys|exact Hnd].
  cbn [app] in Hids. rewrite Forall_forall in *. intros id Hid.
  apply get_Some_iff. now apply Hids.
Qed.

(** *** The researches *)

Lemma research_recorded_iff (s : State) :
  research_recorded s
  <-> NoDup (researchIds s)
      /\ (forall r, In r (researchIds s) ->
            exists activityIds,
              JsMap.get r (researchActivityIds s) = Some activityIds)
      /\ (forall k, In k (keys (researchPlanIds s))
                    \/ In k (keys (researchReportIds s))
                    \/ In k (keys (researchActivityIds s)) ->
            In k (researchIds s))
      /\ (truthy (ongoingResearchId s) = true ->
          In (default "" (ongoingResearchId s)) (researchIds s)).
Proof.
  unfold research_recorded. rewrite !Forall_forall.
  split; intros (Hnd & Hact & Hkeys & Hon); (split; [exact Hnd|]); repeat split.
  - intros r Hr. apply list_elem_of_In in Hr. specialize (Hact r Hr).
    destruct (JsMap.get r (researchActivityIds s)) as [acts|]; [|discriminate].
    now exists acts.
  - intros k Hk. apply array_includes_In, Hkeys, list_elem_of_In.
    rewrite !in_app_iff. exact Hk.
  - intros H. now apply array_includes_In, Hon.
  - intros r Hr. apply list_elem_of_In in Hr. now destruct (Hact r Hr) as (acts & ->).
  - intros k Hk. apply list_elem_of_In in Hk. rewrite !in_app_iff in Hk.
    now apply array_includes_In, Hkeys.
  - intros H. now apply array_includes_In, Hon.
Qed.

Lemma research_recorded_ext (s s' : State) :
  researchIds s' = researchIds s ->
  researchPlanIds s' = researchPlanIds s ->
  researchReportIds s' = researchReportIds s ->
  researchActivityIds s' = researchActivityIds s ->
  ongoingResearchId s' = ongoingResearchId s ->
  research_recorded s -> research_recorded s'.
Proof.
  unfold research_recorded. intros -> -> -> -> ->. exact (fun H => H).
Qed.

Lemma research_recorded_empty (t : string) : research_recorded (empty_state t).
Proof.
  apply research_recorded_iff. cbn. repeat split.
  - constructor.
  - intros r [].
  - intros k [[]|[[]|[]]].
  - discriminate.
Qed.

Lemma research_recorded_clear (s : State) :
  research_recorded s -> research_recorded (setOngoingResearch None s).
Proof.
  rewrite !research_recorded_iff. cbn. intros (Hnd & Hact & Hkeys & _).
  repeat split; auto. discriminate.
Qed.

Lemma research_recorded_appendResearch (r : string) (s : State) :
  research_recorded s -> research_recorded (appendResearch r s).
Proof.
  intros H. unfold appendResearch.
  destruct (array_includes r (researchIds s)) eqn:Hin; [exact H|].
  assert (Hnew : ~ In r (researchIds s)).
  { rewrite <- array_includes_In. congruence. }
  apply research_recorded_iff in H as (Hnd & Hact & Hkeys & _).
  apply research_recorded_iff.
  cbn [researchIds researchPlanIds researchReportIds researchActivityIds
       ongoingResearchId default].
  repeat split.
  - apply NoDup_app. split; [exact Hnd|]. split; [|apply NoDup_singleton].
    intros x Hx Hx'. apply list_elem_of_In in Hx, Hx'. destruct Hx' as [<-|[]].
    contradiction.
  - intros r' Hr'. apply in_app_iff in Hr' as [Hr'|[<-|[]]].
    + rewrite get_set_other by (intros ->; contradiction). now apply Hact.
    + rewrite get_set_same. now eexists.
  - intros k Hk. apply in_app_iff.
    assert (Hcase : k = r \/ In k (researchIds s)).
    { destruct Hk as [Hk|[Hk|Hk]].
      - destruct (find_plan (rev (messageIds s)) s).
        + apply In_keys_set in Hk as [->|Hk]; auto.
        + auto.
      - auto.
      - apply In_keys_set in Hk as [->|Hk]; auto. }
    destruct Hcase as [->|Hk']; [right; now left|now left].
  - intros _. apply in_app_iff. right. now left.
Qed.

Lemma research_recorded_activity (m : Message) (s : State) :
  research_recorded s ->
  exists s', appendResearchActivity m s = Some s' /\ research_recorded s'
             /\ messageIds s' = messageIds s /\ messages s' = messages s
             /\ state_threadId s' = state_threadId s.
Proof.
  intros H. unfold appendResearchActivity.
  destruct (truthy (ongoingResearchId s)) eqn:Hon; [|now exists s].
  pose proof H as H0.
  apply research_recorded_iff in H as (Hnd & Hact & Hkeys & Hin).
  specialize (Hin Hon). set (r := default "" (ongoingResearchId s)) in *.
  destruct (Hact r Hin) as (current & ->).
  eexists. split; [reflexivity|].
  set (s1 := if negb (array_includes (message_id m) current)
             then set_activity
                    (JsMap.set r (current ++ [message_id m]) (researchActivityIds s)) s
             else s).
  assert (H1 : research_recorded s1 /\ researchIds s1 = researchIds s
               /\ ongoingResearchId s1 = ongoingResearchId s
               /\ messageIds s1 = messageIds s /\ messages s1 = messages s
               /\ state_threadId s1 = state_threadId s).
  { subst s1. destruct (negb (array_includes (message_id m) current)).
    2:{ split; [exact H0|repeat split]. }
    split; [|repeat split].
    apply research_recorded_iff.
    cbn [set_activity researchIds researchPlanIds researchReportIds
         researchActivityIds ongoingResearchId].
    repeat split.
    - exact Hnd.
    - intros r' Hr'. destruct (String.eqb_spec r' r) as [->|Hne].
      + rewrite get_set_same. now eexists.
      + rewrite get_set_other by exact Hne. now apply Hact.
    - intros k [Hk|[Hk|Hk]]; [apply Hkeys; auto..|].
      apply In_keys_set in Hk as [->|Hk]; [exact Hin|apply Hkeys; auto].
    - intros _. exact Hin. }
  destruct H1 as (H1 & Hr1 & Ho1 & Hi1 & Hm1 & Ht1).
  destruct (is_agent "reporter" m).
  2:{ split; [exact H1|repeat split; assumption]. }
  split; [|repeat split; assumption].
  apply research_recorded_iff in H1 as (Hnd1 & Hact1 & Hkeys1 & Hin1).
  apply research_recorded_iff.
  cbn [set_report researchIds researchPlanIds researchReportIds
       researchActivityIds ongoingResearchId].
  repeat split; auto.
  intros k [Hk|[Hk|Hk]]; [apply Hkeys1; auto| |apply Hkeys1; auto].
  apply In_keys_set in Hk as [->|Hk]; [|apply Hkeys1; auto].
  rewrite Hr1. exact Hin.
Qed.

Lemma appendResearch_listed (r : string) (s : State) :
  In r (researchIds (appendResearch r s)).
Proof.
  unfold appendResearch.
  destruct (array_includes r (researchIds s)) eqn:Hin.
  - now apply array_includes_In.
  - cbn [researchIds]. apply in_app_iff. right. now left.
Qed.

Lemma appendResearch_messages (r : string) (s : State) :
  state_threadId (appendResearch r s) = state_threadId s
  /\ messageIds (appendResearch r s) = messageIds s
  /\ messages (appendResearch r s) = messages s.
Proof.
  unfold appendResearch.
  now destruct (array_includes r (researchIds s)).
Qed.

Lemma research_recorded_ongoing (r : string) (s : State) :
  In r (researchIds s) ->
  research_recorded s -> research_recorded (setOngoingResearch (Some r) s).
Proof.
  intros Hin. rewrite !research_recorded_iff. cbn. intros (Hnd & Hact & Hkeys & _).
  split; [exact Hnd|]. split; [exact Hact|]. split; [exact Hkeys|]. now intros _.
Qed.

(** The writes of the research check keep the researches recorded. *)
Lemma research_recorded_restoreOngoing (t r : string) (topic : Store.Text)
    (s : State) :
  research_recorded s -> research_recorded (restoreOngoingResearch t r topic s).
Proof.
  intros H. unfold restoreOngoingResearch.
  set (s1 := match JsMap.get r (messages s) with
             | Some _ => s
             | None => store_appendMessage (researchMessage t r topic) s
             end).
  assert (H1 : research_recorded s1).
  { subst s1. destruct (JsMap.get r (messages s)); [exact H|].
    revert H. now apply research_recorded_ext. }
  apply research_recorded_ongoing.
  - cbn [store_openResearch researchIds]. apply appendResearch_listed.
  - apply (research_recorded_ext (appendResearch r s1)); try reflexivity.
    now apply research_recorded_appendResearch.
Qed.

Lemma messages_listed_restoreOngoing (t r : string) (topic : Store.Text)
    (s : State) :
  messages_listed s -> messages_listed (restoreOngoingResearch t r topic s).
Proof.
  intros H. unfold restoreOngoingResearch.
  set (s1 := match JsMap.get r (messages s) with
             | Some _ => s
             | None => store_appendMessage (researchMessage t r topic) s
             end).
  assert (H1 : messages_listed s1).
  { subst s1. destruct (JsMap.get r (messages s)); [exact H|].
    now apply messages_listed_append. }
  destruct (appendResearch_messages r s1) as (_ & Hids & Hms).
  revert H1. now apply messages_listed_ext.
Qed.

Lemma restoreOngoingResearch_thread (t r : string) (topic : Store.Text)
    (s : State) :
  state_threadId (restoreOngoingResearch t r topic s) = state_threadId s.
Proof.
  unfold restoreOngoingResearch. cbn [setOngoingResearch store_openResearch state_threadId].
  destruct (appendResearch_messages r
              match JsMap.get r (messages s) with
              | Some _ => s
              | None => store_appendMessage (researchMessage t r topic) s
              end) as (-> & _).
  now destruct (JsMap.get r (messages s)).
Qed.

Lemma restoreCompletedResearch_messages (t : string) (topic : Store.Text)
    (s : State) :
  state_threadId (restoreCompletedResearch t topic s) = state_threadId s
  /\ messageIds (restoreCompletedResearch t topic s) = messageIds s
  /\ messages (restoreCompletedResearch t topic s) = messages s.
Proof.
  unfold restoreCompletedResearch.
  destruct (find_research topic (JsMap.values (messages s))) as [[found|]|];
    [|now repeat split..].
  now destruct (negb (array_includes (message_id found) (researchIds s))).
Qed.

Lemma research_recorded_restoreCompleted (t : string) (topic : Store.Text)
    (s : State) :
  research_recorded s -> research_recorded (restoreCompletedResearch t topic s).
Proof.
  intros H. unfold restoreCompletedResearch.
  destruct (find_research topic (JsMap.values (messages s))) as [[found|]|];
    [|exact H..].
  destruct (array_includes (message_id found) (researchIds s)) eqn:Hin;
    cbn [negb]; [exact H|].
  assert (Hnew : ~ In (message_id found) (researchIds s)).
  { rewrite <- array_includes_In. congruence. }
  set (r := message_id found) in *.
  apply research_recorded_iff in H as (Hnd & Hact & Hkeys & Hon).
  apply research_recorded_iff.
  cbn [researchIds researchPlanIds researchReportIds researchActivityIds
       ongoingResearchId].
  split; [|split; [|split]].
  - apply NoDup_app. split; [exact Hnd|]. split; [|apply NoDup_singleton].
    intros x Hx Hx'. apply list_elem_of_In in Hx, Hx'. destruct Hx' as [<-|[]].
    contradiction.
  - intros r' Hr'. apply in_app_iff in Hr' as [Hr'|[<-|[]]].
    + rewrite get_set_other by (intros ->; contradiction). now apply Hact.
    + rewrite get_set_same. now eexists.
  - intros k Hk. apply in_app_iff.
    assert (Hcase : k = r \/ In k (researchIds s)).
    { destruct Hk as [Hk|[Hk|Hk]].
      - destruct (List.find (is_agent "planner") _).
        + apply In_keys_set in Hk as [->|Hk]; auto.
        + auto.
      - destruct (List.find (is_agent "reporter") _).
        + apply In_keys_set in Hk as [->|Hk]; auto.
        + auto.
      - apply In_keys_set in Hk as [->|Hk]; auto. }
    destruct Hcase as [->|Hk']; [right; now left|now left].
  - intros Htruthy. apply in_app_iff. left. now apply Hon.
Qed.

Section Client.
Variable isClient : bool.

(** Saving the history does not touch the store. *)
Lemma autosave_store (written : bool) (now : string) (env : Env) :
  store (autosave isClient written now env) = store env
  /\ CURRENT_THREAD_ID (autosave isClient written now env) = CURRENT_THREAD_ID env
  /\ thread_id_item (autosave isClient written now env) = thread_id_item env.
Proof.
  unfold autosave. destruct (Nat.ltb 0 _); repeat split; reflexivity.
Qed.

(** One call does not throw in a well-formed module, and leaves it
    well-formed. *)
Lemma step_well_formed (op : Op) (env : Env) :
  well_formed env ->
  exists env', step isClient op env = Some env' /\ well_formed env'.
Proof.
  intros Hwf. pose proof Hwf as (Ht & Hm & Hr).
  destruct op as [value|message|message|currentOngoingId|message|ms|written now
                 |researchId| | | |written id_written now newId|written now
                 |written id_written now target|target research_id topic
                 |message|target topic];
    cbn [step].
  - (* setResponding *)
    eexists. split; [reflexivity|]. split; [exact Ht|]. split.
    + revert Hm. now apply messages_listed_ext.
    + revert Hr. now apply research_recorded_ext.
  - (* appendMessage *)
    unfold appendMessage.
    set (s1 := if String.eqb (message_threadId message) (CURRENT_THREAD_ID env)
               then store_appendMessage message (store env) else store env).
    assert (H1 : state_threadId s1 = state_threadId (store env)
                 /\ messages_listed s1 /\ research_recorded s1).
    { subst s1. destruct (String.eqb _ _); [|auto].
      split; [reflexivity|]. split; [now apply messages_listed_append|].
      revert Hr. now apply research_recorded_ext. }
    destruct H1 as (Ht1 & Hm1 & Hr1).
    destruct (is_agent "coder" message || is_agent "reporter" message
              || is_agent "researcher" message).
    2:{ eexists. split; [reflexivity|].
        split; [cbn; congruence|]. split; assumption. }
    set (s2 := if negb (truthy (ongoingResearchId s1)) && is_agent "researcher" message
               then if negb (truthy (existingResearchForMessage message s1))
                    then store_openResearch (Some (message_id message))
                           (appendResearch (message_id message) s1)
                    else s1
               else s1).
    assert (H2 : state_threadId s2 = state_threadId s1
                 /\ messages_listed s2 /\ research_recorded s2).
    { subst s2. destruct (negb (truthy (ongoingResearchId s1)) && _); [|auto].
      destruct (negb (truthy (existingResearchForMessage message s1))); [|auto].
      assert (Ha : research_recorded (appendResearch (message_id message) s1))
        by now apply research_recorded_appendResearch.
      unfold appendResearch in *.
      destruct (array_includes (message_id message) (researchIds s1)).
      - split; [reflexivity|]. split.
        + revert Hm1. now apply messages_listed_ext.
        + revert Ha. now apply research_recorded_ext.
      - split; [reflexivity|]. split.
        + revert Hm1. now apply messages_listed_ext.
        + revert Ha. now apply research_recorded_ext. }
    destruct H2 as (Ht2 & Hm2 & Hr2).
    destruct (research_recorded_activity message s2 Hr2)
      as (s3 & -> & Hr3 & Hi3 & Hms3 & Ht3).
    eexists. split; [reflexivity|].
    split; [cbn; congruence|]. split; [|exact Hr3].
    exact (messages_listed_ext s2 s3 Hi3 Hms3 Hm2).
  - (* updateMessage *)
    eexists. split; [reflexivity|]. unfold updateMessage.
    set (s1 := if truthy (ongoingResearchId (store env)) && _ && _
               then setOngoingResearch None (store env) else store env).
    assert (H1 : state_threadId s1 = state_threadId (store env)
                 /\ messages_listed s1 /\ research_recorded s1).
    { subst s1. destruct (_ && _ && _); [|auto].
      split; [reflexivity|]. split.
      - revert Hm. now apply messages_listed_ext.
      - now apply research_recorded_clear. }
    destruct H1 as (Ht1 & Hm1 & Hr1).
    split; [cbn; congruence|]. split.
    + now apply messages_listed_update.
    + revert Hr1. now apply research_recorded_ext.
  - (* delayed_clear *)
    eexists. split; [reflexivity|]. unfold delayed_clear.
    destruct (ongoingResearchId (store env)) as [still|] eqn:Hs;
      [|exact Hwf].
    destruct currentOngoingId as [seen|]; [|exact Hwf].
    destruct (String.eqb still seen); [|exact Hwf].
    split; [exact Ht|]. split.
    + revert Hm. now apply messages_listed_ext.
    + now apply research_recorded_clear.
  - (* updateMessage of the store *)
    eexists. split; [reflexivity|]. split; [exact Ht|]. split.
    + now apply messages_listed_update.
    + revert Hr. now apply research_recorded_ext.
  - (* updateMessages of the store *)
    eexists. split; [reflexivity|]. split; [exact Ht|]. split.
    + now apply messages_listed_updates.
    + revert Hr. now apply research_recorded_ext.
  - (* autosave *)
    eexists. split; [reflexivity|].
    destruct (autosave_store written now env) as (Hs & Hc & _).
    unfold well_formed. now rewrite Hs, Hc.
  - (* openResearch *)
    eexists. split; [reflexivity|]. split; [exact Ht|]. split.
    + revert Hm. now apply messages_listed_ext.
    + revert Hr. now apply research_recorded_ext.
  - (* closeResearch *)
    eexists. split; [reflexivity|]. split; [exact Ht|]. split.
    + revert Hm. now apply messages_listed_ext.
    + revert Hr. now apply research_recorded_ext.
  - (* setOngoingResearch(null) *)
    eexists. split; [reflexivity|]. split; [exact Ht|]. split.
    + revert Hm. now apply messages_listed_ext.
    + now apply research_recorded_clear.
  - (* resetOngoingResearch *)
    eexists. split; [reflexivity|]. unfold resetOngoingResearch.
    destruct (truthy _); [|exact Hwf].
    split; [exact Ht|]. split.
    + revert Hm. now apply messages_listed_ext.
    + now apply research_recorded_clear.
  - (* resetThread *)
    eexists. split; [reflexivity|]. split; [reflexivity|]. split.
    + apply messages_listed_empty.
    + apply research_recorded_empty.
  - (* saveCurrentChat *)
    eexists. split; [reflexivity|]. unfold saveCurrentChat.
    destruct (_ && _); exact Hwf.
  - (* switchToHistoryChat *)
    eexists. split; [reflexivity|]. unfold switchToHistoryChat.
    destruct (StoreHistory.getChatHistoryByThreadId _ _ _) as [historyData|].
    + split; [reflexivity|]. split.
      * apply messages_listed_restored.
      * cbn [snd store].
        apply (research_recorded_ext (empty_state target)); try reflexivity.
        apply research_recorded_empty.
    + exact Hwf.
  - (* the research check: an ongoing research *)
    eexists. split; [reflexivity|]. split; [|split].
    + cbn [with_store store CURRENT_THREAD_ID].
      now rewrite restoreOngoingResearch_thread.
    + now apply messages_listed_restoreOngoing.
    + now apply research_recorded_restoreOngoing.
  - (* the research check: a message of the replay *)
    eexists. split; [reflexivity|]. unfold createReplayedMessage.
    destruct (JsMap.get (message_id message) (messages (store env)));
      [now destruct env|].
    split; [exact Ht|]. split.
    + now apply messages_listed_append.
    + revert Hr. now apply research_recorded_ext.
  - (* the research check: a completed research *)
    eexists. split; [reflexivity|].
    destruct (restoreCompletedResearch_messages target topic (store env))
      as (Hthread & Hids & Hms).
    split; [|split].
    + cbn [with_store store CURRENT_THREAD_ID]. now rewrite Hthread.
    + cbn [with_store store]. revert Hm. now apply messages_listed_ext.
    + now apply research_recorded_restoreCompleted.
Qed.

Lemma run_well_formed (ops : list Op) (env : Env) :
  well_formed env ->
  exists env', run isClient ops env = Some env' /\ well_formed env'.
Proof.
  revert env. induction ops as [|op ops IH]; intros env Hwf.
  - now exists env.
  - cbn [run]. destruct (step_well_formed op env Hwf) as (env1 & -> & Hwf1).
    now apply IH.
Qed.

Lemma initial_well_formed (id_read id_written : bool) (newId : string)
    (stored : Store.Storage MessageRest) (item : option string) :
  well_formed (initial isClient id_read id_written newId stored item).
Proof.
  split; [reflexivity|]. split.
  - apply messages_listed_empty.
  - apply research_recorded_empty.
Qed.

(** X23.  Whatever is stored when the module starts, whichever reads and
    writes of localStorage throw, and whatever the page, the stream and the
    timers then do among the following (the responding flag set, messages
    appended and updated, saves, research opened, closed or cleared, a new
    chat started, a saved conversation switched to, and the writes of the
    research check that follows a switch: an ongoing research restored,
    the messages of a replay created, a completed research restored), no
    call throws, and afterwards the store
    is consistent: its thread id is the current thread id; every listed
    message id has a message, every message is stored under its own id and
    once; the researches are listed once, each with a list of activities;
    plans, reports and activities belong to listed researches, and so does
    the ongoing research. *)
Theorem run_keeps_store_consistent (ops : list Op) (id_read id_written : bool)
    (newId : string) (stored : Store.Storage MessageRest) (item : option string) :
  exists env,
    run isClient ops (initial isClient id_read id_written newId stored item)
    = Some env
    /\ well_formed env.
Proof.
  generalize (initial_well_formed id_read id_written newId stored item).
  generalize (initial isClient id_read id_written newId stored item).
  induction ops as [|op ops IH]; intros env Hwf.
  - now exists env.
  - cbn [run]. destruct (step_well_formed op env Hwf) as (env1 & -> & Hwf1).
    now apply IH.
Qed.

(** X24.  In a module that got where it is by such calls, a message id
    that is listed has its message: what [existsMessage] accepts,
    [getMessage] finds, and the message found has that id. *)
Theorem listed_message_found (ops : list Op) (id_read id_written : bool)
    (newId : string) (stored : Store.Storage MessageRest) (item : option string)
    (env : Env) (id : string) :
  run isClient ops (initial isClient id_read id_written newId stored item)
  = Some env ->
  existsMessage id (store env) = true ->
  exists message,
    getMessage id (store env) = Some message /\ message_id message = id.
Proof.
  intros Hrun Hid.
  destruct (run_well_formed ops _
              (initial_well_formed id_read id_written newId stored item))
    as (env' & Hrun' & _ & (Hids & Hkeys & _) & _).
  rewrite Hrun in Hrun'. injection Hrun' as <-.
  apply array_includes_In in Hid.
  rewrite Forall_forall in Hids. rewrite Forall_forall in Hkeys.
  apply list_elem_of_In in Hid. specialize (Hids id Hid).
  unfold getMessage in *.
  destruct (JsMap.get id (messages (store env))) as [message|] eqn:Hget;
    [|discriminate].
  exists message. split; [reflexivity|].
  apply get_In, list_elem_of_In in Hget. now specialize (Hkeys _ Hget).
Qed.

(** X25.  [appendMessage] relies on the ongoing research having its list
    of activities: when there is an ongoing research without one (its id
    was set without [appendResearch]), appending a message of the coder,
    the reporter or the researcher throws. *)
Theorem appendMessage_needs_activities (message : Message) (env : Env) :
  is_agent "coder" message || is_agent "reporter" message
  || is_agent "researcher" message = true ->
  truthy (ongoingResearchId (store env)) = true ->
  JsMap.get (default "" (ongoingResearchId (store env)))
            (researchActivityIds (store env)) = None ->
  appendMessage message env = None.
Proof.
  intros Hagent Hon Hnone. unfold appendMessage. rewrite Hagent.
  set (s1 := if String.eqb (message_threadId message) (CURRENT_THREAD_ID env)
             then store_appendMessage message (store env) else store env).
  assert (H1 : ongoingResearchId s1 = ongoingResearchId (store env)
               /\ researchActivityIds s1 = researchActivityIds (store env)).
  { subst s1. now destruct (String.eqb _ _). }
  destruct H1 as [Ho Ha]. rewrite Ho, Hon. cbn [negb andb].
  unfold appendResearchActivity. now rewrite Ho, Hon, Ha, Hnone.
Qed.

End Client.

(** The messages of a thread have ids that differ. *)
Lemma messages_of_NoDup (t : option string) (s : State) :
  messages_listed s -> NoDup (map message_id (messages_of t s)).
Proof.
  intros (_ & Hkeys & Hnd). unfold messages_of.
  assert (Hids : map message_id (JsMap.values (messages s)) = keys (messages s)).
  { unfold JsMap.values, keys. rewrite map_map. clear Hnd.
    induction Hkeys as [|[k v] m Hk _ IH]; [reflexivity|].
    cbn in *. now rewrite IH, Hk. }
  rewrite <- Hids in Hnd. clear Hids Hkeys.
  induction (JsMap.values (messages s)) as [|m ms IH]; [constructor|].
  cbn [map] in Hnd. apply NoDup_cons in Hnd as [Hm Hnd].
  cbn [List.filter]. destruct (match t with Some t0 => _ | None => _ end).
  - cbn [map]. apply NoDup_cons. split; [|now apply IH].
    intros Hin. apply Hm. apply list_elem_of_In in Hin. apply list_elem_of_In.
    apply in_map_iff in Hin as (x & Hx & Hin). apply in_map_iff.
    exists x. split; [exact Hx|]. now apply filter_In in Hin as [Hin _].
  - now apply IH.
Qed.

(** The map [switchToHistoryChat] builds from messages whose ids differ
    has these messages, in order. *)
Lemma restored_values (ms : list Message) :
  NoDup (map message_id ms) ->
  JsMap.values
    (fold_left (fun messageMap m => JsMap.set (message_id m) m messageMap) ms [])
  = ms.
Proof.
  intros Hnd. rewrite (fold_set_new message_id ms []) by exact Hnd.
  cbn [app]. unfold JsMap.values. rewrite map_map. cbn. apply map_id.
Qed.


(** X27.  In the browser, when the current conversation has messages and
    no more than 50 conversations are stored, starting a new chat saves the
    conversation if the write to localStorage returns: it is then found in
    the history under its thread id, with its messages in the order of the
    store.  If the write throws, the history finds under that thread id
    what it found before.  Either way the store is then that of an empty
    thread with the new id, and the new id is the stored thread id if that
    write returns. *)
Theorem resetThread_saves_conversation (written id_written : bool)
    (now newId : string) (env : Env) :
  let current := messages_of (Some (CURRENT_THREAD_ID env)) (store env) in
  let env' := resetThread true written id_written now newId env in
  state_threadId (store env) = Some (CURRENT_THREAD_ID env) ->
  current <> [] ->
  length (Store.getChatHistories true (history env)) <= 50 ->
  StoreHistory.getChatHistoryByThreadId true (CURRENT_THREAD_ID env) (history env')
  = (if written
     then Some (Store.chatHistory now (CURRENT_THREAD_ID env) current)
     else StoreHistory.getChatHistoryByThreadId true (CURRENT_THREAD_ID env)
            (history env))
  /\ store env' = empty_state newId
  /\ CURRENT_THREAD_ID env' = newId
  /\ thread_id_item env'
     = if id_written then Some newId else thread_id_item env.
Proof.
  cbn zeta. intros Ht Hms Hlen. unfold resetThread.
  cbn [store CURRENT_THREAD_ID thread_id_item history].
  split; [|split; [reflexivity|split; [reflexivity|]]].
  - unfold autosave. rewrite Ht.
    destruct (messages_of (Some (CURRENT_THREAD_ID env)) (store env))
      as [|m ms] eqn:E; [congruence|].
    cbn [length Nat.ltb Nat.leb with_history history default].
    destruct written.
    + now apply StoreHistoryFacts.lookup_saved.
    + now rewrite StoreHistoryFacts.save_not_written.
  - destruct (autosave_store true written now env) as (_ & _ & ->).
    reflexivity.
Qed.

(** X28.  In the browser, switching to a saved conversation and back
    brings the messages of the current conversation back, in the order of
    the store and listed in that order, provided the write of the history
    on leaving returns, the current conversation has messages, no more
    than 50 conversations are stored, and saving the current one does not
    push one out; the other writes may return or throw. *)
Theorem switchToHistoryChat_and_back (written2 id_written1 id_written2 : bool)
    (now1 now2 target : string) (env : Env)
    (saved : Store.ChatHistory MessageRest) :
  let current := messages_of (Some (CURRENT_THREAD_ID env)) (store env) in
  let away := switchToHistoryChat true true id_written1 now1 target env in
  let back :=
    switchToHistoryChat true written2 id_written2 now2 (CURRENT_THREAD_ID env)
      (snd away) in
  messages_listed (store env) ->
  target <> CURRENT_THREAD_ID env ->
  current <> [] ->
  length (Store.getChatHistories true (history env)) <= 50 ->
  length (Store.getChatHistories true (history env)) < 50
  \/ is_null (Store.findIndex (Store.has_thread (CURRENT_THREAD_ID env))
                (Store.getChatHistories true (history env))) = false ->
  StoreHistory.getChatHistoryByThreadId true target (history env) = Some saved ->
  fst away = true
  /\ fst back = true
  /\ CURRENT_THREAD_ID (snd back) = CURRENT_THREAD_ID env
  /\ messageIds (store (snd back)) = map message_id current
  /\ JsMap.values (messages (store (snd back))) = current.
Proof.
  cbn zeta. intros Hlisted Hne Hms Hlen Hroom Hsaved.
  set (c := CURRENT_THREAD_ID env) in *.
  set (current := messages_of (Some c) (store env)) in *.
  assert (Hnd : NoDup (map message_id current)) by now apply messages_of_NoDup.
  assert (Hpos : Nat.ltb 0 (length current) = true).
  { destruct current; [congruence|reflexivity]. }
  set (saved1 := Store.saveChatHistory true true now1 c current (history env)).
  assert (Hfound1 : StoreHistory.getChatHistoryByThreadId true target saved1
                    = Some saved).
  { subst saved1. rewrite StoreHistoryFacts.lookup_other; auto. }
  assert (Haway : switchToHistoryChat true true id_written1 now1 target env
                  = (true, switched true id_written1 target saved saved1 env)).
  { unfold switchToHistoryChat. fold c. fold current. rewrite Hpos.
    fold saved1. now rewrite Hfound1. }
  rewrite Haway. cbn [fst snd].
  set (env1 := switched true id_written1 target saved saved1 env).
  set (there := messages_of (Some target) (store env1)).
  set (saved2 := if Nat.ltb 0 (length there)
                 then Store.saveChatHistory true written2 now2 target there saved1
                 else saved1).
  assert (Hlen1 : length (Store.getChatHistories true saved1) <= 50).
  { subst saved1. now apply StoreHistoryFacts.length_saved. }
  assert (Hfound2 : StoreHistory.getChatHistoryByThreadId true c saved2
                    = Some (Store.chatHistory now1 c current)).
  { assert (Hc1 : StoreHistory.getChatHistoryByThreadId true c saved1
                  = Some (Store.chatHistory now1 c current)).
    { subst saved1. apply StoreHistoryFacts.lookup_saved; [exact Hms|exact Hlen]. }
    subst saved2. destruct (Nat.ltb 0 (length there)); [|exact Hc1].
    rewrite StoreHistoryFacts.lookup_other; auto.
    right. now apply (StoreHistoryFacts.lookup_found target saved). }
  assert (Hback : switchToHistoryChat true written2 id_written2 now2 c env1
                  = (true,
                     switched true id_written2 c
                       (Store.chatHistory now1 c current) saved2 env1)).
  { unfold switchToHistoryChat.
    change (CURRENT_THREAD_ID env1) with target. fold there.
    change (history env1) with saved1. fold saved2. now rewrite Hfound2. }
  rewrite Hback. cbn [fst snd].
  split; [reflexivity|]. split; [reflexivity|]. split; [reflexivity|].
  split; [reflexivity|].
  cbn [switched store set_messages messages Store.messages Store.chatHistory].
  now apply restored_values.
Qed.

Import StoreSamples.

(** A research that the check restores need not be among its own
    activities: the message found by the topic may be of another thread
    than the one whose messages are collected. *)
Lemma restored_research_without_itself :
  exists env,
    run true [CreateReplayedMessage stray;
              RestoreCompletedResearch "T" (Store.text "found")] fresh
    = Some env
    /\ messageIds (store env) = ["s1"]
    /\ researchIds (store env) = ["s1"]
    /\ JsMap.get "s1" (researchActivityIds (store env)) = Some []
    /\ openResearchId (store env) = Some "s1".
Proof. eexists. repeat split; reflexivity. Qed.

Lemma listed_message_found_witness :
  exists env,
    run true [AppendMessage question; AppendMessage finding] fresh = Some env
    /\ existsMessage "m2" (store env) = true
    /\ exists found,
         getMessage "m2" (store env) = Some found /\ message_id found = "m2".
Proof.
  eexists. split; [reflexivity|]. split; [reflexivity|].
  exact (listed_message_found true [AppendMessage question; AppendMessage finding]
           true true "T" None None _ "m2" eq_refl eq_refl).
Defined.

Lemma resetThread_saves_conversation_witness :
  state_threadId (store chatting) = Some (CURRENT_THREAD_ID chatting)
  /\ messages_of (Some (CURRENT_THREAD_ID chatting)) (store chatting) <> []
  /\ length (Store.getChatHistories true (history chatting)) <= 50
  /\ option_map Store.messages
       (StoreHistory.getChatHistoryByThreadId true "T"
          (history (resetThread true true true "2025" "N" chatting)))
     = Some [question]
  /\ StoreHistory.getChatHistoryByThreadId true "T"
       (history (resetThread true false true "2025" "N" chatting))
     = None
  /\ store (resetThread true false true "2025" "N" chatting) = empty_state "N".
Proof.
  split; [reflexivity|]. split; [discriminate|]. split; [cbn; lia|].
  destruct (resetThread_saves_conversation true true "2025" "N" chatting eq_refl
              ltac:(discriminate) ltac:(cbn; lia)) as (Hfound & _).
  destruct (resetThread_saves_conversation false true "2025" "N" chatting eq_refl
              ltac:(discriminate) ltac:(cbn; lia)) as (Hlost & Hstore & _).
  change (CURRENT_THREAD_ID chatting) with "T" in Hfound, Hlost.
  split; [now rewrite Hfound|]. split; [now rewrite Hlost|exact Hstore].
Defined.

Lemma switchToHistoryChat_and_back_witness :
  messages_listed (store chatting)
  /\ "U" <> CURRENT_THREAD_ID chatting
  /\ messages_of (Some (CURRENT_THREAD_ID chatting)) (store chatting) <> []
  /\ length (Store.getChatHistories true (history chatting)) <= 50
  /\ length (Store.getChatHistories true (history chatting)) < 50
  /\ option_map Store.messages
       (StoreHistory.getChatHistoryByThreadId true "U" (history chatting))
     = Some [old_question]
  /\ JsMap.values
       (messages
          (store
             (snd (switchToHistoryChat true false false "2026"
                     (CURRENT_THREAD_ID chatting)
                     (snd (switchToHistoryChat true true false "2025" "U"
                             chatting))))))
     = [question].
Proof.
  assert (Hlisted : messages_listed (store chatting)).
  { apply (messages_listed_append question (empty_state "T")),
      messages_listed_empty. }
  split; [exact Hlisted|]. split; [discriminate|]. split; [discriminate|].
  split; [cbn; lia|]. split; [cbn; lia|]. split; [reflexivity|].
  exact (proj2 (proj2 (proj2 (proj2
           (switchToHistoryChat_and_back false false false "2025" "2026" "U"
              chatting _ Hlisted
              ltac:(discriminate) ltac:(discriminate) ltac:(cbn; lia)
              ltac:(left; cbn; lia) eq_refl))))).
Defined.

Lemma appendMessage_needs_activities_witness :
  is_agent "coder" finding || is_agent "reporter" finding
  || is_agent "researcher" finding = true
  /\ truthy (ongoingResearchId (store dangling)) = true
  /\ JsMap.get (default "" (ongoingResearchId (store dangling)))
               (researchActivityIds (store dangling)) = None
  /\ appendMessage finding dangling = None.
Proof.
  split; [reflexivity|]. split; [reflexivity|]. split; [reflexivity|].
  exact (appendMessage_needs_activities finding dangling eq_refl eq_refl eq_refl).
Defined.

End ResearchStoreFacts.

(** ** core/api/chat: the replay of a recorded file *)

Module RecordedReplayFacts.
Import JsString JsStringFacts Sse SseFacts ChatApi JsMap JsMapFacts RecordedReplay.

Lemma split_on_two (s : string) :
  has_char lf s = true -> exists a b rest, split_on lf s = a :: b :: rest.
Proof.
  induction s as [|c s IH]; cbn [has_char split_on]; [discriminate|].
  destruct (Ascii.eqb c lf) eqn:E; cbn [orb].
  - intros _. destruct s as [|c' s]; cbn [split_on].
    + now exists "", "", [].
    + destruct (Ascii.eqb c' lf).
      * eexists _, _, _. reflexivity.
      * destruct (split_on lf s); eexists _, _, _; reflexivity.
  - intros H. destruct (IH H) as (a & b & rest & ->).
    eexists _, _, _. reflexivity.
Qed.

Section Replay.
Context {Json : Type}.
Variable host : Host Json.
Variable URLSearchParams : string -> list (string * string).
Variable serve : string -> option Response.

(** The head of the loop throws exactly for a chunk of one line. *)
Lemma fields_None (chunk : string) :
  is_null (fields chunk) = negb (has_char lf chunk).
Proof.
  unfold fields. destruct (has_char lf chunk) eqn:H.
  - destruct (split_on_two chunk H) as (a & b & rest & ->). reflexivity.
  - now rewrite (split_on_single chunk H).
Qed.

(** X29.  The replay of a recorded file throws exactly when a chunk has a
    single line, as the empty chunk after a final blank line has: it is
    then a [TypeError], thrown at the first such chunk, after the chunks
    before it have been replayed; the chunks after it are never
    replayed. *)
Theorem replay_chunks_throws (fast : bool) (chunks : list string) :
  match snd (replay_chunks host fast chunks) with
  | None => forallb (has_char lf) chunks = true
  | Some error =>
      error = TypeError
      /\ exists before chunk after,
           chunks = before ++ chunk :: after
           /\ forallb (has_char lf) before = true
           /\ has_char lf chunk = false
           /\ replay_chunks host fast before
              = (fst (replay_chunks host fast chunks), None)
  end.
Proof.
  induction chunks as [|chunk chunks IH]; [reflexivity|].
  cbn [replay_chunks forallb]. pose proof (fields_None chunk) as Hf.
  destruct (fields chunk) as [[event data]|] eqn:E; cbn [is_null] in Hf.
  - assert (Hlf : has_char lf chunk = true) by now destruct (has_char lf chunk).
    rewrite Hlf. cbn [snd fst andb].
    destruct (snd (replay_chunks host fast chunks)) as [error|]; [|exact IH].
    destruct IH as (-> & before & short & after & -> & Hb & Hs & Heq).
    split; [reflexivity|].
    exists (chunk :: before), short, after. cbn [app forallb].
    rewrite Hlf, Hb, Hs. repeat split.
    cbn [replay_chunks]. rewrite E, Heq. reflexivity.
  - assert (Hlf : has_char lf chunk = false) by now destruct (has_char lf chunk).
    cbn [snd fst]. split; [reflexivity|].
    exists [], chunk, chunks. now repeat split.
Qed.

(** Looking a key up again in a map it was set in. *)
Lemma fetchReplay_hit (url text : string) (cache : JsMap.Map string) :
  JsMap.get url cache = Some text ->
  fetchReplay serve url cache = (inl text, cache, []).
Proof. unfold fetchReplay. now intros ->. Qed.

(** X30.  A recording that has been fetched is replayed from the cache the
    next time: when [fetchReplay] has given its text, a second call of
    [chatReplayStream] makes no request and does what the first did,
    throwing as the first did. *)
Theorem chatReplayStream_replays_from_cache (userMessage userMessage' : string)
    (interrupt_feedback : option string) (cache : JsMap.Map string)
    (fast : bool) (text : string) :
  let first := chatReplayStream host URLSearchParams serve userMessage
                 interrupt_feedback cache fast in
  let second := chatReplayStream host URLSearchParams serve userMessage'
                  interrupt_feedback (replayCache first)
                  (fastForwardReplaying first) in
  fst (fst (fetchReplay serve
              (fst (replayFilePath host URLSearchParams interrupt_feedback)) cache))
  = inl text ->
  requests second = []
  /\ actions second = actions first
  /\ failure second = failure first
  /\ replayCache second = replayCache first
  /\ fastForwardReplaying second = fastForwardReplaying first.
Proof.
  cbn zeta. unfold chatReplayStream.
  set (path := replayFilePath host URLSearchParams interrupt_feedback).
  intros Hfetch.
  assert (Hcache : exists cache' made,
             fetchReplay serve (fst path) cache = (inl text, cache', made)
             /\ JsMap.get (fst path) cache' = Some text).
  { unfold fetchReplay in *.
    destruct (JsMap.get (fst path) cache) as [cached|] eqn:Hget.
    - cbn in Hfetch. injection Hfetch as ->. now exists cache, [].
    - destruct (serve (fst path)) as [res|]; [|discriminate].
      destruct (negb (ok res)); [discriminate|].
      cbn in Hfetch. injection Hfetch as <-.
      eexists _, _. split; [reflexivity|]. apply get_set_same. }
  destruct Hcache as (cache' & made & -> & Hhit).
  cbn [replayCache fastForwardReplaying].
  rewrite (fetchReplay_hit _ _ _ Hhit).
  cbn [requests actions failure replayCache fastForwardReplaying].
  replace (snd path || (snd path || fast)) with (snd path || fast)
    by now destruct (snd path).
  repeat split.
Qed.

End Replay.

Import Samples RecordingSamples.

Lemma chatReplayStream_replays_from_cache_witness :
  fst (fst (fetchReplay recordings
              (fst (replayFilePath (page "") no_params None)) []))
  = inl recording
  /\ requests (chatReplayStream (page "") no_params recordings "" None [] false)
     = ["/replay/eiffel-tower-vs-tallest-building.txt"]
  /\ failure (chatReplayStream (page "") no_params recordings "" None [] false)
     = Some TypeError
  /\ requests
       (chatReplayStream (page "") no_params recordings "" None
          (replayCache
             (chatReplayStream (page "") no_params recordings "" None [] false))
          (fastForwardReplaying
             (chatReplayStream (page "") no_params recordings "" None [] false)))
     = [].
Proof.
  split; [reflexivity|]. split; [reflexivity|]. split; [reflexivity|].
  exact (proj1 (chatReplayStream_replays_from_cache (page "") no_params recordings
                  "" "" None [] false recording eq_refl)).
Defined.

End RecordedReplayFacts.
